(** * Taxi telemetry labelling pipeline

    A shallow embedding of [TaxiDatasetCreatorV2] (src/taxi_data_processor_v2.py),
    of the parser and the train/test split of [TaxiDatasetCreator]
    (src/taxi_data_processor.py), and of the blinker flags of the
    feature-extracting processor (taxi_data_processor.py at the top level).

    Conventions.
    - A [pd.Timestamp] is the integer number of milliseconds since the epoch
      ([Z]); every timestamp the code builds comes from [pd.Timestamp(ms,
      unit='ms')] plus multiples of 10 ms, so [total_seconds() > 60] is
      [diff > 60000] and [total_seconds() >= 10.0] is [diff >= 10000].
      A timestamp holds its nanoseconds in 64 bits, and building one
      outside that range raises.
    - [DataFrame.sort_values] is not a stable sort: it is a parameter of the
      development ([SortValues]: any ascending permutation), and the
      theorems hold for every such sort.  The insertion sort is the instance
      the examples are evaluated with.
    - A frame's column has a dtype: [shift] and [astype(str)] give [None]
      and ['None'] on an object column, [NaN] and ['nan'] on a numeric one.
    - Python floats are binary64 primitive floats, so [speed < threshold] and
      [speed == 0] are the IEEE comparisons (false on NaN, true on -0.0).
    - A data frame is a list of typed rows; the columns a frame carries are
      tracked by name next to the rows. *)

From Stdlib Require Import String Ascii ZArith List Lia Bool Arith DecimalString.
From Stdlib Require Import Floats Permutation QArith Qround Qabs.
Import ListNotations.
Open Scope Z_scope.

(* ================================================================== *)
(** ** Raw captures *)

(** What a conversion does with a key of a JSON object: [Missing] when the key
    is absent, [Value a] when the stored text converts to [a], [Malformed]
    when the conversion ([int], [float], [json.loads], [strptime]) raises. *)
Inductive field (A : Type) : Type :=
| Missing : field A
| Value : A -> field A
| Malformed : field A.
Arguments Missing {A}.
Arguments Value {A} _.
Arguments Malformed {A}.

Module Sample.
(** One element of [data['data']], with the keys the parser reads. *)
Record t := mk {
  timeStamp : field Z;
  speed : field float;
  accX : field (list float);
  accY : field (list float);
  accZ : field (list float);
  radX : field (list float);
  radY : field (list float);
  radZ : field (list float);
  vehicleInformationRightBlinker : field (list Z);
  vehicleInformationLeftBlinker : field (list Z);
  latitude : field float;
  longitude : field float;
  altitude : field float;
  heading : field float
}.
End Sample.

Module Capture.
(** One trip document: [data] is [None] when the key is absent. *)
Record t := mk {
  imei : string;
  recordDateTime : field Z;
  data : option (list Sample.t)
}.
End Capture.

(** Rows of the base table as [process_json_file] builds them. *)
Record BaseRow := mkBaseRow {
  timestamp : Z;
  speed : float;
  latitude : float;
  longitude : float;
  right_blinker : Z;
  left_blinker : Z
}.

(** Rows of the acceleration table. *)
Record AccelRow := mkAccelRow {
  a_timestamp : Z;
  acc_x : float;
  acc_y : float;
  acc_z : float;
  rad_x : float;
  rad_y : float;
  rad_z : float
}.

(* ================================================================== *)
(** ** Record Parser *)

Module Parser.

(** [int(record.get(k, '0'))], [float(record.get(k, 0))]: the default
    replaces an absent key, a present key is converted, and a conversion
    that raises gives [None]. *)
Definition convert {A : Type} (f : field A) (default : A) : option A :=
  match f with
  | Missing => Some default
  | Value a => Some a
  | Malformed => None
  end.

(** [datetime.strptime(record_datetime, "%Y%m%d%H%M%S")]: the caller passes
    [''] for an absent key, which does not match the format. *)
Definition strptime (record_datetime : field Z) : option Z :=
  match record_datetime with
  | Value d => Some d
  | Missing | Malformed => None
  end.

(** The milliseconds a [pd.Timestamp] can hold: its value is a signed
    64-bit count of nanoseconds, and [pd.Timestamp(ms, unit='ms')], like the
    sum of a timestamp and a [pd.Timedelta], raises when the count does not
    fit. *)
Definition timestamp_min_ms : Z := -9223372036854.
Definition timestamp_max_ms : Z := 9223372036854.

Definition in_timestamp_range (ms : Z) : bool :=
  (timestamp_min_ms <=? ms) && (ms <=? timestamp_max_ms).

Definition parse_timestamp (record_datetime : field Z) (timestamp_str : field Z)
  : option Z :=
  match strptime record_datetime with
  | None => None
  | Some _base_date =>
      match convert timestamp_str 0 with
      | None => None
      | Some timestamp_ms =>
          if in_timestamp_range timestamp_ms then Some timestamp_ms else None
      end
  end.

(** [extract_array_values]: the [try]/[except] turns every failure into
    the empty list. *)
Definition extract_array_values (array_str : field (list float)) : list float :=
  match array_str with
  | Value values => values
  | Missing | Malformed => []
  end.

Definition sum (l : list Z) : Z := fold_left Z.add l 0.

(** The blinker block: one [try] around both arrays, so a failure in
    either leaves both flags at 0. *)
Definition blinkers (right left : field (list Z)) : Z * Z :=
  match convert right [0], convert left [0] with
  | Some right_blinker_array, Some left_blinker_array =>
      (if sum right_blinker_array =? 0 then 0 else 1,
       if sum left_blinker_array =? 0 then 0 else 1)
  | _, _ => (0, 0)
  end.

Definition max_length (acc_x acc_y acc_z rad_x rad_y rad_z : list float) : nat :=
  Nat.max (length acc_x) (Nat.max (length acc_y) (Nat.max (length acc_z)
    (Nat.max (length rad_x) (Nat.max (length rad_y) (Nat.max (length rad_z) 1%nat))))).

(** [a[i] if i < len(a) else np.nan] *)
Definition at_or_nan (a : list float) (i : nat) : float :=
  if (i <? length a)%nat then nth i a nan else nan.

Definition accel_row (timestamp : Z) (acc_x acc_y acc_z rad_x rad_y rad_z : list float)
    (i : nat) : AccelRow :=
  {| a_timestamp := timestamp + Z.of_nat i * 10;
     acc_x := at_or_nan acc_x i;
     acc_y := at_or_nan acc_y i;
     acc_z := at_or_nan acc_z i;
     rad_x := at_or_nan rad_x i;
     rad_y := at_or_nan rad_y i;
     rad_z := at_or_nan rad_z i |}.

(** The body of the loop over [data['data']] for one record: the base row
    and the acceleration rows it appends, or [None] when a statement of the
    body raises; [timestamp + pd.Timedelta(milliseconds=i * 10)] raises when
    the sum leaves the range, which the last sub-sample does first. *)
Definition process_record (record_datetime : field Z) (record : Sample.t)
  : option (BaseRow * list AccelRow) :=
  match parse_timestamp record_datetime (Sample.timeStamp record) with
  | None => None
  | Some timestamp =>
  match convert (Sample.speed record) 0%float with
  | None => None
  | Some speed =>
    let acc_x := extract_array_values (Sample.accX record) in
    let acc_y := extract_array_values (Sample.accY record) in
    let acc_z := extract_array_values (Sample.accZ record) in
    let rad_x := extract_array_values (Sample.radX record) in
    let rad_y := extract_array_values (Sample.radY record) in
    let rad_z := extract_array_values (Sample.radZ record) in
    let '(right_blinker, left_blinker) :=
      blinkers (Sample.vehicleInformationRightBlinker record)
               (Sample.vehicleInformationLeftBlinker record) in
  match convert (Sample.latitude record) 0%float with
  | None => None
  | Some latitude =>
  match convert (Sample.longitude record) 0%float with
  | None => None
  | Some longitude =>
  match convert (Sample.altitude record) 0%float with
  | None => None
  | Some _altitude =>
  match convert (Sample.heading record) 0%float with
  | None => None
  | Some _heading =>
    let base_row := mkBaseRow timestamp speed latitude longitude
                              right_blinker left_blinker in
    let max_length := max_length acc_x acc_y acc_z rad_x rad_y rad_z in
    if in_timestamp_range (timestamp + Z.of_nat (max_length - 1) * 10) then
      Some (base_row,
            map (accel_row timestamp acc_x acc_y acc_z rad_x rad_y rad_z)
                (seq 0 max_length))
    else None
  end end end end end end.

(** The loop: rows are appended record by record; an exception leaves the
    loop (and the function body). *)
Fixpoint process_records (record_datetime : field Z) (records : list Sample.t)
    (base_rows : list BaseRow) (accel_rows : list AccelRow)
  : option (list BaseRow * list AccelRow) :=
  match records with
  | [] => Some (base_rows, accel_rows)
  | record :: rest =>
      match process_record record_datetime record with
      | None => None
      | Some (base_row, rows) =>
          process_records record_datetime rest
                          (base_rows ++ [base_row]) (accel_rows ++ rows)
      end
  end.

(** [process_json_file] on a document that [json.load] could read: the
    outer [except Exception] returns two empty frames. *)
Definition process_json_file (data : Capture.t) : list BaseRow * list AccelRow :=
  match Capture.data data with
  | None | Some [] => ([], [])
  | Some records =>
      match process_records (Capture.recordDateTime data) records [] [] with
      | Some frames => frames
      | None => ([], [])
      end
  end.

End Parser.

(* ================================================================== *)
(** ** Data frames *)

(** A frame: the names of its columns, in order, and its rows. *)
Record DataFrame (R : Type) := mkDataFrame {
  columns : list string;
  rows : list R
}.
Arguments mkDataFrame {R} _ _.
Arguments columns {R} _.
Arguments rows {R} _.

Definition has_column (name : string) (cols : list string) : bool :=
  existsb (String.eqb name) cols.

(** [df[name] = ...]: a new column goes last, an existing one keeps its place. *)
Definition add_column (name : string) (cols : list string) : list string :=
  if has_column name cols then cols else cols ++ [name].

(** [df.drop(columns=names)] for names that are all present, and
    [df.drop(columns=[c for c in names if c in df.columns])] in general. *)
Definition drop_columns (names : list string) (cols : list string) : list string :=
  filter (fun c => negb (has_column c names)) cols.

(** The columns of [pd.DataFrame(base_rows)]: the keys of [base_row]. *)
Definition base_columns : list string :=
  ["timestamp"; "speed"; "latitude"; "longitude"; "right_blinker"; "left_blinker"]%string.

(** Rows in ascending key order. *)
Fixpoint ascending {R : Type} (key : R -> Z) (l : list R) : Prop :=
  match l with
  | [] => True
  | x :: l' => (forall y, In y l' -> key x <= key y) /\ ascending key l'
  end.

(** [df.sort_values(key).reset_index(drop=True)].  pandas sorts with
    [kind='quicksort'], which is not stable: the rows come out in ascending
    key order, and the order among rows of equal key is whatever numpy's
    sort leaves.  The sort is therefore a parameter of the model: any
    function that returns the rows of the frame in ascending key order.
    What is proved below holds for each such function. *)
Class SortValues := {
  sort_values : forall {R : Type}, (R -> Z) -> list R -> list R;
  sort_values_perm :
    forall (R : Type) (key : R -> Z) (l : list R), Permutation l (sort_values key l);
  sort_values_ascending :
    forall (R : Type) (key : R -> Z) (l : list R), ascending key (sort_values key l)
}.

(** One such sort, on which the model is evaluated in the examples:
    insertion sort, which keeps rows of equal key in input order. *)
Section InsertionSort.
Context {R : Type} (key : R -> Z).

Fixpoint insert_sorted (r : R) (l : list R) : list R :=
  match l with
  | [] => [r]
  | x :: l' => if key r <=? key x then r :: l else x :: insert_sorted r l'
  end.

Fixpoint insertion_sort (l : list R) : list R :=
  match l with
  | [] => []
  | x :: l' => insert_sorted x (insertion_sort l')
  end.

Lemma insert_sorted_perm r l : Permutation (r :: l) (insert_sorted r l).
Proof.
  induction l as [|x l IH]; cbn [insert_sorted]; [reflexivity|].
  destruct (key r <=? key x); [reflexivity|].
  rewrite perm_swap. now apply perm_skip.
Qed.

Lemma insertion_sort_perm l : Permutation l (insertion_sort l).
Proof.
  induction l as [|x l IH]; cbn [insertion_sort]; [constructor|].
  rewrite <- insert_sorted_perm. now apply perm_skip.
Qed.

Lemma insert_sorted_ascending r l :
  ascending key l -> ascending key (insert_sorted r l).
Proof.
  induction l as [|x l IH]; cbn [insert_sorted ascending]; intros Hl.
  - split; [intros y []|exact I].
  - destruct Hl as (Hx & Hl). destruct (Z.leb_spec (key r) (key x)).
    + cbn [ascending]. split; [|split; assumption].
      intros y [<- | Hy]; [assumption|]. specialize (Hx y Hy). lia.
    + cbn [ascending]. split; [|now apply IH].
      intros y Hy. apply (Permutation_in _ (Permutation_sym (insert_sorted_perm r l))) in Hy.
      destruct Hy as [<- | Hy]; [lia | now apply Hx].
Qed.

Lemma insertion_sort_ascending l : ascending key (insertion_sort l).
Proof.
  induction l as [|x l IH]; cbn [insertion_sort]; [exact I|].
  now apply insert_sorted_ascending.
Qed.
End InsertionSort.

Arguments sort_values_perm {_} {R} key l.
Arguments sort_values_ascending {_} {R} key l.

#[export] Instance stable_sort : SortValues := {|
  sort_values := @insertion_sort;
  sort_values_perm := @insertion_sort_perm;
  sort_values_ascending := @insertion_sort_ascending
|}.

(** [l.iloc[start:stop]] for [0 <= start <= stop]. *)
Definition iloc_slice {A : Type} (l : list A) (start stop : nat) : list A :=
  firstn (stop - start) (skipn start l).

(* ================================================================== *)
(** ** Stop-Segment Detector *)

Module Detector.

(** A base row with the two columns [identify_stop_segments] adds. *)
Record SegRow := mkSegRow {
  base : BaseRow;
  stop_segment : Z;
  is_stopped : Z
}.

Definition ts (r : SegRow) : Z := timestamp (base r).

(** Filler for positional reads out of range; the loops below read rows
    [0 .. len-1] only. *)
Definition row0 : SegRow :=
  mkSegRow (mkBaseRow 0 0%float 0%float 0%float 0 0) 0 0.

(** [df['is_zero_speed'] = df['speed'] == 0] *)
Definition is_zero_speed (r : SegRow) : bool := PrimFloat.eqb (speed (base r)) 0%float.

Record scan_state := mkScan {
  in_low_speed : bool;
  start_idx : option nat;
  low_speed_groups : list (nat * nat)
}.

(** [if start_idx is not None: low_speed_groups.append((start_idx, i))] *)
Definition append_group (st : scan_state) (i : nat) : list (nat * nat) :=
  match start_idx st with
  | Some s => low_speed_groups st ++ [(s, i)]
  | None => low_speed_groups st
  end.

(** [df.loc[segment_indices, 'stop_segment'] = segment_id] together with
    [df.loc[segment_indices, 'is_stopped'] = 1], the labels being the
    positions [start .. stop-1]. *)
Definition mark (segment_id : Z) (r : SegRow) : SegRow :=
  mkSegRow (base r) segment_id 1.

Fixpoint loc_set (df : list SegRow) (i start stop : nat) (segment_id : Z)
  : list SegRow :=
  match df with
  | [] => []
  | r :: df' =>
      (if (start <=? i)%nat && (i <? stop)%nat then mark segment_id r else r)
        :: loc_set df' (S i) start stop segment_id
  end.

(** [(segment_data.iloc[-1]['timestamp'] - segment_data.iloc[0]['timestamp'])
    .total_seconds()], in milliseconds. *)
Definition time_diff (segment_data : list SegRow) : Z :=
  ts (last segment_data row0) - ts (hd row0 segment_data).

Section WithThreshold.
Context {sorter : SortValues}.
Variable stop_speed_threshold : float.

(** [df['is_low_speed'] = df['speed'] < self.stop_speed_threshold] *)
Definition is_low_speed (r : SegRow) : bool :=
  PrimFloat.ltb (speed (base r)) stop_speed_threshold.

(** The gap test at the top of the loop body. *)
Definition gap_check (car_data : list SegRow) (st : scan_state) (i : nat)
  : scan_state :=
  if (0 <? i)%nat then
    let time_gap := ts (nth i car_data row0) - ts (nth (i - 1) car_data row0) in
    if (60000 <? time_gap) && in_low_speed st then
      mkScan false None (append_group st i)
    else st
  else st.

(** The [if]/[elif] on the row's low-speed flag. *)
Definition speed_check (car_data : list SegRow) (st : scan_state) (i : nat)
  : scan_state :=
  let row := nth i car_data row0 in
  if is_low_speed row && negb (in_low_speed st) then
    mkScan true (Some i) (low_speed_groups st)
  else if negb (is_low_speed row) && in_low_speed st then
    mkScan false None (append_group st i)
  else st.

Definition scan_step (car_data : list SegRow) (st : scan_state) (i : nat)
  : scan_state :=
  speed_check car_data (gap_check car_data st i) i.

Definition scan (car_data : list SegRow) (n : nat) : scan_state :=
  fold_left (scan_step car_data) (seq 0 n) (mkScan false None []).

(** The low-speed groups after the loop and the end-of-stream test. *)
Definition find_low_speed_groups (car_data : list SegRow) : list (nat * nat) :=
  let st := scan car_data (length car_data) in
  if in_low_speed st then append_group st (length car_data)
  else low_speed_groups st.

(** One iteration of [for start, end in low_speed_groups]. *)
Definition mark_step (car_data : list SegRow)
    (acc : list SegRow * Z) (group : nat * nat) : list SegRow * Z :=
  let '(df, segment_id) := acc in
  let '(start, stop) := group in
  let segment_data := iloc_slice car_data start stop in
  if (2 <=? length segment_data)%nat then
    let has_zero_speed := existsb is_zero_speed segment_data in
    if (10000 <=? time_diff segment_data) && has_zero_speed then
      let segment_id := segment_id + 1 in
      (loc_set df 0 start stop segment_id, segment_id)
    else (df, segment_id)
  else (df, segment_id).

Definition identify_rows (rows : list BaseRow) : list SegRow :=
  let df := map (fun b => mkSegRow b 0 0) (sort_values timestamp rows) in
  let car_data := df in
  fst (fold_left (mark_step car_data) (find_low_speed_groups car_data) (df, 0)).

Definition identify_stop_segments (df : DataFrame BaseRow) : DataFrame SegRow :=
  mkDataFrame
    (drop_columns ["is_low_speed"; "is_zero_speed"]%string
       (add_column "is_stopped" (add_column "stop_segment"
          (add_column "is_zero_speed" (add_column "is_low_speed" (columns df))))))
    (identify_rows (rows df)).

End WithThreshold.

End Detector.

(* ================================================================== *)
(** ** Event Reconciler *)

Module Reconciler.
Import Detector.

(** A cell of a column read from the status log.  [read_csv] gives an
    [int64] column ([IntCell]), a [float64] column ([FloatCell], here
    holding whole numbers below 10^16, or [NaN]) or an [object] column of
    text ([StrCell], or [NaN]).  [NoneCell] is the [None] that [shift]
    puts into an [object] column. *)
Inductive cell :=
| NaN
| IntCell (z : Z)
| FloatCell (z : Z)
| StrCell (s : string)
| NoneCell.

Definition is_str (c : cell) : bool :=
  match c with StrCell _ => true | _ => false end.
Definition is_float (c : cell) : bool :=
  match c with NaN | FloatCell _ => true | _ => false end.
Definition to_float (c : cell) : cell :=
  match c with IntCell z => FloatCell z | _ => c end.

Inductive dtype := Int64 | Float64 | Object.

(** The dtype [read_csv] gives a column: [object] when it holds text, and
    also when the file has no data row; [float64] when it holds a missing
    value or a float; [int64] otherwise. *)
Definition dtype_of (col : list cell) : dtype :=
  match col with
  | [] => Object
  | _ =>
      if existsb is_str col then Object
      else if existsb is_float col then Float64
      else Int64
  end.

(** The dtype of a column of the right frame after the left merge: the
    [NaN] of a row without a match turns [int64] into [float64]; [float64]
    and [object] stay. *)
Definition merged_dtype (d : dtype) (col : list cell) : dtype :=
  match d with
  | Int64 => if existsb is_float col then Float64 else Int64
  | Float64 => Float64
  | Object => Object
  end.

Definition as_dtype (d : dtype) (c : cell) : cell :=
  match d with
  | Float64 => to_float c
  | Int64 | Object => c
  end.

(** The merged column [col], of a log column of dtype [d], with its cells
    as the merged dtype holds them. *)
Definition upcast (d : dtype) (col : list cell) : list cell :=
  map (as_dtype (merged_dtype d col)) col.

Definition string_of_Z (z : Z) : string := NilZero.string_of_int (Z.to_int z).

(** [.astype(str)] on one cell: [str(3) = '3'], [str(3.0) = '3.0'],
    [str(nan) = 'nan'], [str(None) = 'None']. *)
Definition astype_str (c : cell) : string :=
  match c with
  | NaN => "nan"
  | IntCell z => string_of_Z z
  | FloatCell z => string_of_Z z ++ ".0"
  | StrCell s => s
  | NoneCell => "None"
  end.

Definition is_sign (c : ascii) : bool :=
  Ascii.eqb c "+" || Ascii.eqb c "-".

(** [.str.zfill(2)]: zeros on the left up to width 2, after a leading sign:
    ['7'] gives ['07'], ['-'] gives ['-0'], [''] gives ['00']. *)
Definition zfill2 (s : string) : string :=
  match s with
  | EmptyString => "00"
  | String c EmptyString =>
      if is_sign c then String c "0" else String "0" (String c EmptyString)
  | _ => s
  end.

(** [.shift(1)] on a column of dtype [d]: the cells move one row down, the
    last one is dropped, and the first row gets the missing value of the
    dtype: [None] in an [object] column, which keeps its cells as they
    are, and [NaN] in a numeric column, which becomes [float64]. *)
Definition shift1 (d : dtype) (col : list cell) : list cell :=
  match d with
  | Object => firstn (length col) (NoneCell :: col)
  | Int64 | Float64 => map to_float (firstn (length col) (NaN :: col))
  end.

(** [df[c] == 1] on one cell. *)
Definition eq_one (c : cell) : bool :=
  match c with
  | IntCell z | FloatCell z => z =? 1
  | NaN | StrCell _ | NoneCell => false
  end.

Definition get_on_map : list string :=
  ["0003"; "0012"; "0014"; "0103"; "0112"; "0114";
   "0203"; "0212"; "0214"; "0403"; "0412"; "0414";
   "0503"; "0512"; "0514"; "0603"; "0612"; "0614";
   "0803"; "0812"; "0814"; "1303"; "1312"; "1314";
   "1503"; "1512"; "1514"]%string.

Definition get_off_map : list string :=
  ["0300"; "1200"; "1400"; "0301"; "1201"; "1401";
   "0302"; "1202"; "1402"; "0304"; "1204"; "1404";
   "0305"; "1205"; "1405"; "0306"; "1206"; "1406";
   "0308"; "1208"; "1408"; "0313"; "1213"; "1413";
   "0315"; "1215"; "1415"]%string.

(** [x in codes], the test behind [Series.isin(codes)]. *)
Definition isin (x : string) (codes : list string) : bool :=
  existsb (String.eqb x) codes.

(** A row of the status log, with the three columns the merge selects. *)
Record StatusEvent := mkStatusEvent {
  log_time_stamp : Z;
  log_status_management : cell;
  log_change_flag : cell
}.

(** A base row after the merge and the two derived columns. *)
Record EvRow := mkEvRow {
  seg : SegRow;
  time_stamp : option Z;
  status_management : cell;
  change_flag : cell;
  status_change : string;
  event_type : Z
}.

Definition ev_ts (r : EvRow) : Z := ts (seg r).

Definition set_status_management (r : EvRow) (c : cell) : EvRow :=
  mkEvRow (seg r) (time_stamp r) c (change_flag r) (status_change r) (event_type r).
Definition set_change_flag (r : EvRow) (c : cell) : EvRow :=
  mkEvRow (seg r) (time_stamp r) (status_management r) c (status_change r) (event_type r).
Definition set_status_change (r : EvRow) (s : string) : EvRow :=
  mkEvRow (seg r) (time_stamp r) (status_management r) (change_flag r) s (event_type r).
Definition set_event_type (r : EvRow) (e : Z) : EvRow :=
  mkEvRow (seg r) (time_stamp r) (status_management r) (change_flag r) (status_change r) e.

(** [pd.merge(df, log, left_on='timestamp_ms', right_on='time_stamp',
    how='left')]: every left row once per matching log row, in log order,
    or once with missing values when nothing matches; the two value
    columns then follow the dtype rule. *)
Definition merge_row (log : list StatusEvent) (r : SegRow) : list EvRow :=
  match filter (fun e => log_time_stamp e =? ts r) log with
  | [] => [mkEvRow r None NaN NaN "" 0]
  | matches =>
      map (fun e => mkEvRow r (Some (log_time_stamp e)) (log_status_management e)
                            (log_change_flag e) "" 0) matches
  end.

Definition replace_column {A : Type} (set : EvRow -> A -> EvRow)
    (df : list EvRow) (col : list A) : list EvRow :=
  map (fun '(r, c) => set r c) (combine df col).

Definition merge_left (df : list SegRow) (log : list StatusEvent) : list EvRow :=
  let joined := flat_map (merge_row log) df in
  let joined := replace_column set_status_management joined
                  (upcast (dtype_of (map log_status_management log))
                          (map status_management joined)) in
  replace_column set_change_flag joined
    (upcast (dtype_of (map log_change_flag log)) (map change_flag joined)).

(** [df['status_management'].astype(str).str.zfill(2) +
     df['status_management'].shift(1).astype(str).str.zfill(2)], the column
    being of dtype [d]. *)
Definition status_change_column (d : dtype) (status : list cell) : list string :=
  map (fun '(cur, prev) => (zfill2 (astype_str cur) ++ zfill2 (astype_str prev))%string)
      (combine status (shift1 d status)).

(** [df.loc[mask, 'event_type'] = v], row by row. *)
Definition loc_event_type (mask : EvRow -> bool) (v : Z) (df : list EvRow)
  : list EvRow :=
  map (fun r => if mask r then set_event_type r v else r) df.

Section WithSort.
Context {sorter : SortValues}.

Definition apply_event_rows (df : list SegRow) (change_flag_df : list StatusEvent)
  : list EvRow :=
  let status_dtype := dtype_of (map log_status_management change_flag_df) in
  let df := merge_left df change_flag_df in
  let df := sort_values ev_ts df in
  let df := replace_column set_status_change df
              (status_change_column
                 (merged_dtype status_dtype (map status_management df))
                 (map status_management df)) in
  let df := map (fun r => set_event_type r 0) df in
  let df := loc_event_type (fun r => eq_one (change_flag r)) 1 df in
  let df := loc_event_type (fun r => isin (status_change r) get_on_map) 1 df in
  loc_event_type (fun r => isin (status_change r) get_off_map) 2 df.

Definition apply_event_labels (df : DataFrame SegRow)
    (change_flag_df : list StatusEvent) : DataFrame EvRow :=
  mkDataFrame
    (add_column "event_type" (add_column "status_change"
       (add_column "change_flag" (add_column "status_management"
          (add_column "time_stamp" (add_column "timestamp_ms" (columns df)))))))
    (apply_event_rows (rows df) change_flag_df).

End WithSort.

(** A row with its label. *)
Record LabRow := mkLabRow {
  ev : EvRow;
  label : Z
}.

Definition lab_ts (r : LabRow) : Z := ev_ts (ev r).
Definition lab_segment (r : LabRow) : Z := stop_segment (seg (ev r)).
Definition lab_stopped (r : LabRow) : Z := is_stopped (seg (ev r)).

(** [df.loc[df['stop_segment'] == segment, 'label'] = v] *)
Definition label_segment (segment v : Z) (df : list LabRow) : list LabRow :=
  map (fun r => if lab_segment r =? segment then mkLabRow (ev r) v else r) df.

(** The segment a boarding event looks at: that of the last stopped row
    strictly before the event time ([stopped_before.iloc[-1]]); [None] when
    [before_event] or [stopped_before] is empty. *)
Definition last_stop_segment (df : list LabRow) (event_time : Z) : option Z :=
  let before_event := filter (fun r => lab_ts r <? event_time) df in
  let stopped_before := filter (fun r => lab_stopped r =? 1) before_event in
  option_map lab_segment (hd_error (rev stopped_before)).

(** The segment an alighting event looks at: that of the first stopped row
    strictly after the event time ([stopped_after.iloc[0]]); [None] when
    [after_event] or [stopped_after] is empty. *)
Definition next_stop_segment (df : list LabRow) (event_time : Z) : option Z :=
  let after_event := filter (fun r => event_time <? lab_ts r) df in
  let stopped_after := filter (fun r => lab_stopped r =? 1) after_event in
  option_map lab_segment (hd_error stopped_after).

(** One iteration of [for idx, event in events.iterrows()]. *)
Definition label_event (df : list LabRow) (event : LabRow) : list LabRow :=
  let event_type := event_type (ev event) in
  let event_time := lab_ts event in
  if event_type =? 1 then
    match last_stop_segment df event_time with
    | Some last_stop_segment =>
        if 0 <? last_stop_segment then label_segment last_stop_segment 1 df else df
    | None => df
    end
  else if event_type =? 2 then
    match next_stop_segment df event_time with
    | Some next_stop_segment =>
        if 0 <? next_stop_segment then label_segment next_stop_segment 2 df else df
    | None => df
    end
  else df.

Section LabelWithSort.
Context {sorter : SortValues}.

Definition label_rows (df : list EvRow) : list LabRow :=
  let df := map (fun r => mkLabRow r 0) df in
  let df := sort_values lab_ts df in
  let events := filter (fun r => 0 <? event_type (ev r)) df in
  fold_left label_event events df.

Definition columns_to_drop : list string :=
  ["timestamp_ms"; "time_stamp"; "status_management"; "change_flag";
   "status_change"; "stop_change"; "stop_segment"; "event_type"]%string.

Definition label_stop_segments (df : DataFrame EvRow) : DataFrame LabRow :=
  mkDataFrame
    (drop_columns columns_to_drop (add_column "label" (columns df)))
    (label_rows (rows df)).

End LabelWithSort.

End Reconciler.

(* ================================================================== *)
(** ** The pipeline of [create_dataset] *)

Module Pipeline.
Import Detector Reconciler.

(** [create_dataset] on the captures of the files it reads ([json_files]
    after the [max_files] cut): [None] stands for the two [ValueError]s, no
    file and no row; otherwise the frames of the files that gave rows are
    concatenated, the three passes run and the base frame is sorted. *)
Definition create_dataset {sorter : SortValues} (stop_speed_threshold : float)
    (json_files : list Capture.t) (change_flag_df : list StatusEvent)
  : option (DataFrame LabRow) :=
  match json_files with
  | [] => None
  | _ =>
      let all_base_data :=
        filter (fun base_rows => negb (length base_rows =? 0)%nat)
               (map (fun f => fst (Parser.process_json_file f)) json_files) in
      match all_base_data with
      | [] => None
      | _ =>
          let base_df := mkDataFrame base_columns (concat all_base_data) in
          let base_df := identify_stop_segments stop_speed_threshold base_df in
          let base_df := apply_event_labels base_df change_flag_df in
          let base_df := label_stop_segments base_df in
          Some (mkDataFrame (columns base_df) (sort_values lab_ts (rows base_df)))
      end
  end.

End Pipeline.

(* ================================================================== *)
(** ** Train/test split of [TaxiDatasetCreator.save_dataset] *)

Module Split.

(** [int(x)] on a float: truncation toward zero; raises on NaN and on
    the infinities. *)
Definition py_int (x : float) : option Z :=
  match Prim2SF x with
  | S754_zero _ => Some 0
  | S754_finite s m e =>
      let v := if 0 <=? e then Z.shiftl (Zpos m) e else Z.shiftr (Zpos m) (- e) in
      Some (if s then - v else v)
  | S754_infinity _ | S754_nan => None
  end.

(** [int(len(car_data) * train_ratio)]: the length becomes a float and
    the product is the binary64 product. *)
Definition split_index (len : nat) (train_ratio : float) : option Z :=
  py_int (PrimFloat.mul (PrimFloat.of_uint63 (Uint63.of_Z (Z.of_nat len))) train_ratio).

(** [l.iloc[:k]] and [l.iloc[k:]]; a negative [k] counts from the end. *)
Definition cut {A : Type} (l : list A) (k : Z) : nat :=
  if k <? 0 then (length l - Z.to_nat (- k))%nat else Z.to_nat k.
Definition iloc_to {A : Type} (l : list A) (k : Z) : list A := firstn (cut l k) l.
Definition iloc_from {A : Type} (l : list A) (k : Z) : list A := skipn (cut l k) l.

(** [Series.unique()]: the distinct values in order of first appearance. *)
Fixpoint unique (l : list string) : list string :=
  match l with
  | [] => []
  | x :: l' => x :: filter (fun y => negb (String.eqb y x)) (unique l')
  end.

Section WithRows.
Context {R : Type} (car_id : R -> string).

(** [dataset[dataset['car_id'] == car_id]] *)
Definition rows_of (dataset : list R) (c : string) : list R :=
  filter (fun r => String.eqb (car_id r) c) dataset.

(** The loop over [dataset['car_id'].unique()]: the two lists of
    per-vehicle frames, or [None] when [int] raises. *)
Fixpoint split_loop (dataset : list R) (train_ratio : float) (ids : list string)
    (train_data test_data : list (list R)) : option (list (list R) * list (list R)) :=
  match ids with
  | [] => Some (train_data, test_data)
  | c :: ids' =>
      let car_data := rows_of dataset c in
      match split_index (length car_data) train_ratio with
      | None => None
      | Some split_idx =>
          split_loop dataset train_ratio ids'
                     (train_data ++ [iloc_to car_data split_idx])
                     (test_data ++ [iloc_from car_data split_idx])
      end
  end.

(** [train_df] and [test_df] of [save_dataset]. *)
Definition split_dataset (dataset : list R) (train_ratio : float)
  : option (list R * list R) :=
  match split_loop dataset train_ratio (unique (map car_id dataset)) [] [] with
  | None => None
  | Some (train_data, test_data) => Some (concat train_data, concat test_data)
  end.
End WithRows.

End Split.

(* ================================================================== *)
(** ** The parser of the first processor *)

(** [TaxiDatasetCreator.process_json_file]: one frame, with a row per
    sub-sample that repeats the sample's vehicle, timestamp, speed and
    blinker flags. *)
Module ParserV1.

Record Row := mkRow {
  car_id : string;
  timestamp : Z;
  sample_index : Z;
  speed : float;
  acc_x : float;
  acc_y : float;
  acc_z : float;
  rad_x : float;
  rad_y : float;
  rad_z : float;
  right_blinker : Z;
  left_blinker : Z
}.

Definition parse_timestamp (record_datetime : field Z) (timestamp_str : field Z)
  : option Z :=
  match Parser.strptime record_datetime with
  | None => None
  | Some _base_date =>
      match Parser.convert timestamp_str 0 with
      | None => None
      | Some timestamp_ms =>
          if Parser.in_timestamp_range timestamp_ms then Some timestamp_ms else None
      end
  end.

Definition extract_array_values (array_str : field (list float)) : list float :=
  match array_str with
  | Value values => values
  | Missing | Malformed => []
  end.

(** The body of the loop over [data['data']] for one record: the rows it
    appends, or [None] when the timestamp or the speed raises. *)
Definition process_record (imei : string) (record_datetime : field Z)
    (record : Sample.t) : option (list Row) :=
  match parse_timestamp record_datetime (Sample.timeStamp record) with
  | None => None
  | Some base_timestamp =>
  match Parser.convert (Sample.speed record) 0%float with
  | None => None
  | Some speed =>
    let acc_x := extract_array_values (Sample.accX record) in
    let acc_y := extract_array_values (Sample.accY record) in
    let acc_z := extract_array_values (Sample.accZ record) in
    let rad_x := extract_array_values (Sample.radX record) in
    let rad_y := extract_array_values (Sample.radY record) in
    let rad_z := extract_array_values (Sample.radZ record) in
    let '(right_blinker, left_blinker) :=
      match Parser.convert (Sample.vehicleInformationRightBlinker record) [0],
            Parser.convert (Sample.vehicleInformationLeftBlinker record) [0] with
      | Some right_blinker_array, Some left_blinker_array =>
          (if Parser.sum right_blinker_array =? 0 then 0 else 1,
           if Parser.sum left_blinker_array =? 0 then 0 else 1)
      | _, _ => (0, 0)
      end in
    let max_length := Parser.max_length acc_x acc_y acc_z rad_x rad_y rad_z in
    Some (map (fun i =>
                 mkRow imei base_timestamp (Z.of_nat i) speed
                       (Parser.at_or_nan acc_x i) (Parser.at_or_nan acc_y i)
                       (Parser.at_or_nan acc_z i) (Parser.at_or_nan rad_x i)
                       (Parser.at_or_nan rad_y i) (Parser.at_or_nan rad_z i)
                       right_blinker left_blinker)
              (seq 0 max_length))
  end end.

Fixpoint process_records (imei : string) (record_datetime : field Z)
    (records : list Sample.t) (rows : list Row) : option (list Row) :=
  match records with
  | [] => Some rows
  | record :: rest =>
      match process_record imei record_datetime record with
      | None => None
      | Some new_rows => process_records imei record_datetime rest (rows ++ new_rows)
      end
  end.

Definition process_json_file (data : Capture.t) : list Row :=
  match Capture.data data with
  | None | Some [] => []
  | Some records =>
      match process_records (Capture.imei data) (Capture.recordDateTime data)
                            records [] with
      | Some rows => rows
      | None => []
      end
  end.

End ParserV1.

(* ================================================================== *)
(** ** The blinker flags of the feature-extracting processor *)

(** The blinker block of [process_json_file] in the top-level
    taxi_data_processor.py, which takes the majority of each array. *)
Module ParserFeatures.

(** [1 if sum(a) > len(a) / 2 else 0]: the quotient is a float and the
    comparison of an integer with it is exact. *)
Definition majority (a : list Z) : Z :=
  if Z.of_nat (length a) <? 2 * Parser.sum a then 1 else 0.

Definition blinkers (right left : field (list Z)) : Z * Z :=
  match Parser.convert right [0], Parser.convert left [0] with
  | Some right_blinker, Some left_blinker =>
      (majority right_blinker, majority left_blinker)
  | _, _ => (0, 0)
  end.

End ParserFeatures.

(* ================================================================== *)
(** * Properties of the Record Parser *)

Section ParserFacts.
Import Parser.

(** The six motion axes of a sample and of an acceleration row. *)
Inductive axis := AccX | AccY | AccZ | RadX | RadY | RadZ.

Definition axis_values (record : Sample.t) (a : axis) : list float :=
  extract_array_values
    match a with
    | AccX => Sample.accX record | AccY => Sample.accY record
    | AccZ => Sample.accZ record | RadX => Sample.radX record
    | RadY => Sample.radY record | RadZ => Sample.radZ record
    end.


(** [L]: the longest of the six arrays, and 1 when all are empty. *)
Definition sample_length (record : Sample.t) : nat :=
  max_length (axis_values record AccX) (axis_values record AccY)
             (axis_values record AccZ) (axis_values record RadX)
             (axis_values record RadY) (axis_values record RadZ).

Definition accel_rows_of (timestamp : Z) (record : Sample.t) : list AccelRow :=
  map (accel_row timestamp
         (axis_values record AccX) (axis_values record AccY)
         (axis_values record AccZ) (axis_values record RadX)
         (axis_values record RadY) (axis_values record RadZ))
      (seq 0 (sample_length record)).

(** What [process_record] leaves when it returns. *)
Lemma process_record_inv record_datetime record base_row rows :
  process_record record_datetime record = Some (base_row, rows) ->
  parse_timestamp record_datetime (Sample.timeStamp record) = Some (timestamp base_row)
  /\ convert (Sample.speed record) 0%float = Some (speed base_row)
  /\ (right_blinker base_row, left_blinker base_row)
     = blinkers (Sample.vehicleInformationRightBlinker record)
                (Sample.vehicleInformationLeftBlinker record)
  /\ convert (Sample.latitude record) 0%float = Some (latitude base_row)
  /\ convert (Sample.longitude record) 0%float = Some (longitude base_row)
  /\ convert (Sample.altitude record) 0%float <> None
  /\ convert (Sample.heading record) 0%float <> None
  /\ in_timestamp_range
       (timestamp base_row + Z.of_nat (sample_length record - 1) * 10) = true
  /\ rows = accel_rows_of (timestamp base_row) record.
Proof.
  unfold process_record.
  destruct (parse_timestamp _ _) as [t|]; [|discriminate].
  destruct (convert (Sample.speed record) _) as [v|]; [|discriminate].
  destruct (blinkers _ _) as [rb lb].
  destruct (convert (Sample.latitude record) _); [|discriminate].
  destruct (convert (Sample.longitude record) _); [|discriminate].
  destruct (convert (Sample.altitude record) _); [|discriminate].
  destruct (convert (Sample.heading record) _); [|discriminate].
  fold (axis_values record AccX) (axis_values record AccY) (axis_values record AccZ)
       (axis_values record RadX) (axis_values record RadY) (axis_values record RadZ).
  fold (sample_length record).
  destruct (in_timestamp_range _) eqn:Er; [|discriminate].
  intros H; injection H as <- <-. cbn [timestamp speed latitude longitude
                                        right_blinker left_blinker].
  repeat split; try reflexivity; try discriminate. exact Er.
Qed.



Lemma process_records_raises record_datetime records :
  forall base_rows accel_rows record,
    In record records ->
    process_record record_datetime record = None ->
    process_records record_datetime records base_rows accel_rows = None.
Proof.
  induction records as [|r rest IH]; intros base_rows accel_rows record Hin Hnone.
  - destruct Hin.
  - cbn. destruct Hin as [-> | Hin].
    + now rewrite Hnone.
    + destruct (process_record record_datetime r) as [[b rows]|]; [|reflexivity].
      now apply IH with record.
Qed.




Lemma sample_length_bounds record a :
  (length (axis_values record a) <= sample_length record)%nat
  /\ (1 <= sample_length record)%nat.
Proof. unfold sample_length, max_length. destruct a; lia. Qed.

(** [record.get(k, d)] converted, for a key that converts. *)
Definition get {A : Type} (f : field A) (default : A) : A :=
  match f with Value a => a | Missing | Malformed => default end.

(** The conversion of a key does not raise. *)
Definition converts {A : Type} (f : field A) : bool :=
  match f with Malformed => false | Missing | Value _ => true end.

(** The offset a record's timestamp is built from. *)
Definition offset_of (record : Sample.t) : Z := get (Sample.timeStamp record) 0.

(** The statements of the loop body that can raise all succeed on a
    record: [strptime] on the capture's date, [int] on the offset,
    [pd.Timestamp] on the milliseconds, [float] on the five scalars, and the
    sum of the timestamp and the last sub-sample's [pd.Timedelta]. *)
Definition record_converts (record_datetime : field Z) (record : Sample.t) : bool :=
  match strptime record_datetime with Some _ => true | None => false end
  && converts (Sample.timeStamp record)
  && in_timestamp_range (offset_of record)
  && converts (Sample.speed record)
  && converts (Sample.latitude record)
  && converts (Sample.longitude record)
  && converts (Sample.altitude record)
  && converts (Sample.heading record)
  && in_timestamp_range (offset_of record + Z.of_nat (sample_length record - 1) * 10).

(** The base row of a record that converts. *)
Definition base_row_of (record : Sample.t) : BaseRow :=
  let '(right_blinker, left_blinker) :=
    blinkers (Sample.vehicleInformationRightBlinker record)
             (Sample.vehicleInformationLeftBlinker record) in
  mkBaseRow (offset_of record) (get (Sample.speed record) 0%float)
            (get (Sample.latitude record) 0%float)
            (get (Sample.longitude record) 0%float)
            right_blinker left_blinker.

(** The number of acceleration rows of a list of records. *)
Definition total_length (records : list Sample.t) : nat :=
  fold_right (fun record n => (sample_length record + n)%nat) 0%nat records.

Lemma convert_converts {A : Type} (f : field A) d :
  convert f d = None <-> converts f = false.
Proof. destruct f; cbn; split; congruence. Qed.

Lemma convert_some {A : Type} (f : field A) d :
  converts f = true -> convert f d = Some (get f d).
Proof. destruct f; cbn; congruence. Qed.

Lemma convert_some_converts {A : Type} (f : field A) d a :
  convert f d = Some a -> converts f = true /\ a = get f d.
Proof. destruct f; cbn; split; congruence. Qed.

Lemma process_record_converts record_datetime record :
  (record_converts record_datetime record = true ->
   process_record record_datetime record
   = Some (base_row_of record, accel_rows_of (offset_of record) record))
  /\ (record_converts record_datetime record = false ->
      process_record record_datetime record = None).
Proof.
  split.
  - unfold record_converts. intros H.
    repeat (let Hf := fresh "Hf" in apply andb_true_iff in H as (H & Hf)).
    unfold process_record, parse_timestamp, base_row_of.
    destruct (strptime record_datetime); [|discriminate].
    rewrite (convert_some _ 0 Hf6). fold (offset_of record). rewrite Hf5.
    rewrite (convert_some _ 0%float Hf4), (convert_some _ 0%float Hf3),
      (convert_some _ 0%float Hf2), (convert_some _ 0%float Hf1),
      (convert_some _ 0%float Hf0).
    destruct (blinkers _ _) as [rb lb].
    fold (axis_values record AccX) (axis_values record AccY) (axis_values record AccZ)
         (axis_values record RadX) (axis_values record RadY) (axis_values record RadZ).
    fold (sample_length record). rewrite Hf. reflexivity.
  - intros H. destruct (process_record record_datetime record) as [[b rows]|] eqn:E;
      [|reflexivity].
    exfalso. apply process_record_inv in E
      as (Hts & Hv & _ & Hlat & Hlon & Halt & Hhead & Hlast & _).
    unfold parse_timestamp in Hts.
    destruct (strptime record_datetime) eqn:E0; [|discriminate].
    destruct (convert (Sample.timeStamp record) 0) as [ms|] eqn:E1; [|discriminate].
    destruct (in_timestamp_range ms) eqn:E2; [|discriminate].
    injection Hts as Hts.
    apply convert_some_converts in E1 as (C1 & Hms). fold (offset_of record) in Hms.
    apply convert_some_converts in Hv as (C2 & _).
    apply convert_some_converts in Hlat as (C3 & _).
    apply convert_some_converts in Hlon as (C4 & _).
    assert (C5 : converts (Sample.altitude record) = true)
      by (destruct (Sample.altitude record); [reflexivity | reflexivity | now contradiction Halt]).
    assert (C6 : converts (Sample.heading record) = true)
      by (destruct (Sample.heading record); [reflexivity | reflexivity | now contradiction Hhead]).
    unfold record_converts in H.
    rewrite E0, C1, C2, C3, C4, C5, C6, <- Hms, E2, Hts, Hlast in H. discriminate.
Qed.

Lemma accel_rows_of_length t record :
  length (accel_rows_of t record) = sample_length record.
Proof. unfold accel_rows_of. now rewrite length_map, length_seq. Qed.

Lemma process_records_all_convert record_datetime records :
  forallb (record_converts record_datetime) records = true ->
  forall base_rows accel_rows,
    process_records record_datetime records base_rows accel_rows
    = Some (base_rows ++ map base_row_of records,
            accel_rows
              ++ flat_map (fun record => accel_rows_of (offset_of record) record) records).
Proof.
  induction records as [|r rest IH]; intros Hall bs acs.
  - cbn. now rewrite !app_nil_r.
  - cbn [forallb] in Hall. apply andb_true_iff in Hall as (Hr & Hrest).
    cbn [process_records]. rewrite (proj1 (process_record_converts record_datetime r) Hr).
    rewrite (IH Hrest). cbn [map flat_map]. now rewrite <- !app_assoc.
Qed.

Lemma process_records_one_fails record_datetime records :
  forallb (record_converts record_datetime) records = false ->
  forall base_rows accel_rows,
    process_records record_datetime records base_rows accel_rows = None.
Proof.
  intros Hsome bs acs.
  assert (Hex : exists r, In r records /\ record_converts record_datetime r = false).
  { induction records as [|r rest IH]; [discriminate|].
    cbn [forallb] in Hsome. apply andb_false_iff in Hsome as [Hr | Hrest].
    - exists r. split; [now left | assumption].
    - destruct (IH Hrest) as (r' & Hin & Hr'). exists r'. split; [now right | assumption]. }
  destruct Hex as (r & Hin & Hr).
  apply process_records_raises with r; [assumption|].
  now apply process_record_converts.
Qed.

(** [process_json_file] on a capture whose sample list is present and not
    empty and whose records all convert: the base row of every record, and
    the acceleration rows of every record, in record order. *)
Lemma process_json_file_parses data records :
  Capture.data data = Some records ->
  records <> [] ->
  forallb (record_converts (Capture.recordDateTime data)) records = true ->
  process_json_file data
  = (map base_row_of records,
     flat_map (fun record => accel_rows_of (offset_of record) record) records).
Proof.
  intros Hdata Hne Hall. unfold process_json_file. rewrite Hdata.
  destruct records as [|r rest]; [congruence|].
  now rewrite (process_records_all_convert _ _ Hall).
Qed.

Lemma total_length_ge records : (length records <= total_length records)%nat.
Proof.
  induction records as [|r rest IH]; cbn [total_length fold_right length]; [lia|].
  fold (total_length rest).
  pose proof (proj2 (sample_length_bounds r AccX)). lia.
Qed.

Lemma flat_map_accel_length records :
  length (flat_map (fun record => accel_rows_of (offset_of record) record) records)
  = total_length records.
Proof.
  induction records as [|r rest IH]; [reflexivity|].
  cbn [flat_map total_length fold_right].
  now rewrite length_app, accel_rows_of_length, IH.
Qed.


(** Samples with every optional key absent but the offset and the speed,
    and a capture around a list of samples. *)
Definition plain_sample (offset : field Z) (v : field float) : Sample.t :=
  Sample.mk offset v Missing Missing Missing Missing Missing Missing
            Missing Missing Missing Missing Missing Missing.

Definition capture_of (records : list Sample.t) : Capture.t :=
  Capture.mk "353000000000001" (Value 20240101000000) (Some records).



End ParserFacts.

Section ParserTheorems.
Import Parser.







(** The sample of the specification's example: arrays of lengths
    3, 5, 4, 5, 3 and 5. *)
Definition ragged_sample : Sample.t :=
  Sample.mk (Value 1700000000000) (Value 12%float)
            (Value [1; 2; 3]%float) (Value [1; 2; 3; 4; 5]%float)
            (Value [1; 2; 3; 4]%float) (Value [1; 2; 3; 4; 5]%float)
            (Value [1; 2; 3]%float) (Value [1; 2; 3; 4; 5]%float)
            (Value [0]) (Value [0; 1]) (Value 35%float) (Value 139%float)
            Missing Missing.


End ParserTheorems.

(* ================================================================== *)
(** * Example streams *)

(** A stream given by its speeds, one row every [step] milliseconds. *)
Definition at_rate (step : Z) (speeds : list float) : list BaseRow :=
  map (fun '(i, v) => mkBaseRow (Z.of_nat i * step) v 0%float 0%float 0 0)
      (combine (seq 0 (length speeds)) speeds).

(* ================================================================== *)
(** * Sorting by a key *)

Section SortFacts.
Context {sorter : SortValues} {R : Type} (key : R -> Z).

Lemma sort_values_length l : length (sort_values key l) = length l.
Proof. symmetry. apply Permutation_length, sort_values_perm. Qed.

Lemma sort_values_In l x : In x (sort_values key l) <-> In x l.
Proof.
  split; apply Permutation_in; [symmetry|]; apply sort_values_perm.
Qed.


(** Rows of distinct keys have one ascending order only. *)
Lemma ascending_unique (l l' : list R) :
  NoDup (map key l) -> Permutation l l' -> ascending key l -> ascending key l' ->
  l = l'.
Proof.
  revert l'. induction l as [|x l IH]; intros l' Hnd Hperm Hl Hl'.
  - now apply Permutation_nil in Hperm.
  - destruct l' as [|y l']; [symmetry in Hperm; now apply Permutation_nil in Hperm|].
    cbn [map] in Hnd. inversion Hnd as [|? ? Hx Hnd']; subst.
    destruct Hl as (Hxmin & Hl). destruct Hl' as (Hymin & Hl').
    assert (Hxy : x = y).
    { assert (Hy : In y (x :: l))
        by (apply (Permutation_in _ (Permutation_sym Hperm)); now left).
      assert (Hx' : In x (y :: l')) by (apply (Permutation_in _ Hperm); now left).
      destruct Hy as [Hy | Hy]; [assumption|].
      destruct Hx' as [Hx' | Hx']; [now symmetry|].
      exfalso. apply Hx. specialize (Hxmin y Hy). specialize (Hymin x Hx').
      replace (key x) with (key y) by lia. now apply in_map. }
    subst y. f_equal. apply IH; try assumption.
    now apply Permutation_cons_inv in Hperm.
Qed.

(** On rows of distinct keys every sort gives the frame insertion sort
    gives. *)
Lemma sort_values_distinct l :
  NoDup (map key l) -> sort_values key l = insertion_sort key l.
Proof.
  intros Hnd. apply ascending_unique.
  - apply (Permutation_NoDup (l := map key l)); [|assumption].
    apply Permutation_map, sort_values_perm.
  - transitivity l; [symmetry; apply sort_values_perm | apply insertion_sort_perm].
  - apply sort_values_ascending.
  - apply insertion_sort_ascending.
Qed.

End SortFacts.

(* ================================================================== *)
(** * Properties of the raw event derivation *)

Section EventRows.
Import Detector Reconciler.

(** What the two transition-code assignments give on their own. *)
Definition status_event (code : string) : Z :=
  if isin code get_off_map then 2
  else if isin code get_on_map then 1
  else 0.

(** What the change-flag assignment gives on its own. *)
Definition flag_event (flag : cell) : Z :=
  if eq_one flag then 1 else 0.

(** The transition code as the specification words it: the previous row's
    code, padded, followed by the current row's. *)
Definition spec_transition_code (previous current : cell) : string :=
  (zfill2 (astype_str previous) ++ zfill2 (astype_str current))%string.

Lemma set_event_type_keeps r e :
  status_change (set_event_type r e) = status_change r
  /\ change_flag (set_event_type r e) = change_flag r
  /\ seg (set_event_type r e) = seg r.
Proof. now destruct r. Qed.

Lemma loc_event_type_row (b : bool) r v :
  status_change (if b then set_event_type r v else r) = status_change r
  /\ change_flag (if b then set_event_type r v else r) = change_flag r
  /\ event_type (if b then set_event_type r v else r) = (if b then v else event_type r).
Proof. destruct b, r; repeat split. Qed.

End EventRows.

(** Reads the three columns through every masked assignment in the goal. *)
Ltac simpl_masked_assignments :=
  repeat match goal with
         | |- context [if ?b then Reconciler.set_event_type ?x ?v else ?x] =>
             let Hsc := fresh in let Hcf := fresh in let Het := fresh in
             destruct (loc_event_type_row b x v) as (Hsc & Hcf & Het);
             rewrite ?Hsc, ?Hcf, ?Het; clear Hsc Hcf Het
         end.

Section EventFacts.
Import Detector Reconciler.
Context {sorter : SortValues}.

Lemma apply_event_rows_event_type df change_flag_df r :
  In r (apply_event_rows df change_flag_df) ->
  event_type r =
    if isin (status_change r) get_off_map then 2
    else if isin (status_change r) get_on_map then 1
    else if eq_one (change_flag r) then 1
    else 0.
Proof.
  unfold apply_event_rows, loc_event_type. intros H.
  apply in_map_iff in H as (r3 & <- & H).
  apply in_map_iff in H as (r2 & <- & H).
  apply in_map_iff in H as (r1 & <- & H).
  apply in_map_iff in H as (r0 & <- & _).
  simpl_masked_assignments.
  destruct (set_event_type_keeps r0 0) as (-> & -> & _).
  destruct (isin (status_change r0) get_off_map); [reflexivity|].
  destruct (isin (status_change r0) get_on_map); [reflexivity|].
  destruct (eq_one (change_flag r0)); [reflexivity|].
  now destruct r0.
Qed.

End EventFacts.

Section EventData.
Import Detector Reconciler.

Lemma code_sets_shape :
  length get_on_map = 27%nat /\ length get_off_map = 27%nat
  /\ forallb (fun c => negb (isin c get_off_map)) get_on_map = true.
Proof. repeat split; reflexivity. Qed.

(** Two base rows one second apart, with stop columns still at 0. *)
Definition two_rows : list SegRow :=
  map (fun b => mkSegRow b 0 0) (at_rate 1000 [30; 30]%float).

(** A status log for [two_rows]: the code goes from [previous] to [current]
    and the change flag of the second entry is [flag]. *)
Definition log_of (previous current flag : cell) : list StatusEvent :=
  [mkStatusEvent 0 previous (IntCell 0); mkStatusEvent 1000 current flag].

End EventData.

Section NumericStatusFacts.
Import Detector Reconciler.

Definition is_digit (c : ascii) : bool :=
  (48 <=? nat_of_ascii c)%nat && (nat_of_ascii c <=? 57)%nat.

(** The text holds a character that is not a decimal digit. *)
Fixpoint has_nondigit (s : string) : bool :=
  match s with
  | EmptyString => false
  | String c s' => negb (is_digit c) || has_nondigit s'
  end.

Lemma has_nondigit_app a b :
  has_nondigit (a ++ b) = has_nondigit a || has_nondigit b.
Proof.
  induction a as [|c a IH]; cbn [String.append has_nondigit]; [reflexivity|].
  now rewrite IH, orb_assoc.
Qed.

Lemma has_nondigit_zfill2 s : has_nondigit (zfill2 s) = has_nondigit s.
Proof.
  destruct s as [|c [|c' s']]; try reflexivity.
  unfold zfill2, is_sign.
  destruct (Ascii.eqb_spec c "+") as [-> | _]; [reflexivity|].
  destruct (Ascii.eqb_spec c "-") as [-> | _]; reflexivity.
Qed.

Lemma isin_all_digits code :
  isin code get_on_map = true \/ isin code get_off_map = true ->
  has_nondigit code = false.
Proof.
  assert (Hon : forallb (fun x => negb (has_nondigit x)) get_on_map = true)
    by reflexivity.
  assert (Hoff : forallb (fun x => negb (has_nondigit x)) get_off_map = true)
    by reflexivity.
  rewrite forallb_forall in Hon, Hoff.
  unfold isin. intros [H | H]; apply existsb_exists in H as (x & Hx & Heq);
    apply String.eqb_eq in Heq; subst x.
  - apply negb_true_iff. now apply Hon.
  - apply negb_true_iff. now apply Hoff.
Qed.

Lemma code_with_nondigit_unmatched code :
  has_nondigit code = true ->
  isin code get_on_map = false /\ isin code get_off_map = false.
Proof.
  intros Hnd. split.
  - destruct (isin code get_on_map) eqn:E; [|reflexivity].
    rewrite (isin_all_digits _ (or_introl E)) in Hnd. discriminate.
  - destruct (isin code get_off_map) eqn:E; [|reflexivity].
    rewrite (isin_all_digits _ (or_intror E)) in Hnd. discriminate.
Qed.

Lemma existsb_none {A : Type} (f : A -> bool) (l : list A) :
  (forall x, In x l -> f x = false) -> existsb f l = false.
Proof.
  induction l as [|x l IH]; intros H; cbn; [reflexivity|].
  rewrite (H x (or_introl eq_refl)). apply IH. intros y Hy. apply H. now right.
Qed.

(** A cell that is not text prints, as a float, with a character that is
    not a digit. *)
Lemma to_float_text c : is_str c = false -> has_nondigit (astype_str (to_float c)) = true.
Proof.
  destruct c as [|z|z|t|]; cbn [is_str to_float astype_str]; intros H;
    try discriminate; try reflexivity;
    rewrite has_nondigit_app; apply orb_true_r.
Qed.

Lemma In_firstn_cell (n : nat) (l : list cell) x : In x (firstn n l) -> In x l.
Proof. intros H. rewrite <- (firstn_skipn n l). apply in_or_app. now left. Qed.

Lemma replace_column_In {A : Type} (set : EvRow -> A -> EvRow) df col r :
  In r (replace_column set df col) ->
  exists x c, In x df /\ In c col /\ r = set x c.
Proof.
  unfold replace_column. intros H. apply in_map_iff in H as ([x c] & <- & Hin).
  exists x, c. split; [|split; [|reflexivity]].
  - eapply in_combine_l; eauto.
  - eapply in_combine_r; eauto.
Qed.

(** Distinct integers, decided. *)
Fixpoint distinct (l : list Z) : bool :=
  match l with
  | [] => true
  | x :: l' => negb (existsb (Z.eqb x) l') && distinct l'
  end.

Lemma distinct_NoDup l : distinct l = true -> NoDup l.
Proof.
  induction l as [|x l IH]; cbn [distinct]; intros H; constructor.
  - apply andb_true_iff in H as (H & _). apply negb_true_iff in H.
    intros Hin. assert (Hex : existsb (Z.eqb x) l = true).
    { apply existsb_exists. exists x. split; [assumption | apply Z.eqb_refl]. }
    congruence.
  - apply IH. now apply andb_true_iff in H.
Qed.

End NumericStatusFacts.

Section EventTheorems.
Import Detector Reconciler.
Context {sorter : SortValues}.

(** When the joined rows have distinct timestamps, the result does not
    depend on the sort. *)
Lemma apply_event_rows_distinct df change_flag_df :
  distinct (map ev_ts (merge_left df change_flag_df)) = true ->
  apply_event_rows df change_flag_df
  = apply_event_rows (sorter := stable_sort) df change_flag_df.
Proof.
  intros Hd. unfold apply_event_rows.
  rewrite (sort_values_distinct ev_ts _ (distinct_NoDup _ Hd)). reflexivity.
Qed.

(** C3, evaluated on the code: the status code goes from 0 to 3, for which
    the specification's transition code is "0003", a boarding code.  On a
    numeric status column the code builds "030.0" for the second row (the
    current code first, and the shifted previous code printed as a float),
    which is in neither set: no event.  On a text column it builds "0300",
    an alighting code.  The first row's code ends in "nan" on the numeric
    column and in "None" on the text column.  The two rows have distinct
    timestamps, so this holds whatever order the sort gives to ties. *)
Theorem C3_transition_code_0_to_3 :
  spec_transition_code (IntCell 0) (IntCell 3) = "0003"%string
  /\ isin "0003" get_on_map = true
  /\ map status_change (apply_event_rows two_rows (log_of (IntCell 0) (IntCell 3) (IntCell 0)))
     = ["00nan"; "030.0"]%string
  /\ map event_type (apply_event_rows two_rows (log_of (IntCell 0) (IntCell 3) (IntCell 0)))
     = [0; 0]
  /\ map status_change
       (apply_event_rows two_rows (log_of (StrCell "0") (StrCell "3") (IntCell 0)))
     = ["00None"; "0300"]%string
  /\ map event_type
       (apply_event_rows two_rows (log_of (StrCell "0") (StrCell "3") (IntCell 0)))
     = [0; 2].
Proof.
  rewrite !apply_event_rows_distinct by reflexivity.
  repeat split; reflexivity.
Qed.

(** C4: on a row whose change flag is 1 and whose transition code is in one
    of the two code sets, the event type is the one the transition code
    gives (2 for an alighting code, 1 for a boarding code), whatever the
    change flag gave before. *)
Theorem C4_status_code_overrides_change_flag :
  forall df change_flag_df i r,
    nth_error (apply_event_rows df change_flag_df) i = Some r ->
    eq_one (change_flag r) = true ->
    isin (status_change r) get_on_map = true
    \/ isin (status_change r) get_off_map = true ->
    flag_event (change_flag r) = 1
    /\ event_type r = status_event (status_change r)
    /\ (isin (status_change r) get_off_map = true -> event_type r = 2).
Proof.
  intros df log i r Hi Hflag Hcode.
  apply nth_error_In in Hi. apply apply_event_rows_event_type in Hi.
  unfold flag_event, status_event. rewrite Hi, Hflag.
  split; [reflexivity|]. split.
  - destruct (isin (status_change r) get_off_map); [reflexivity|].
    destruct Hcode as [-> | H]; [reflexivity | discriminate].
  - now intros ->.
Qed.

End EventTheorems.

Section EventExamples.
Import Detector Reconciler.

Lemma C4_status_code_overrides_witness :
  exists r,
    nth_error (apply_event_rows two_rows (log_of (StrCell "0") (StrCell "3") (IntCell 1)))
              1%nat = Some r
    /\ flag_event (change_flag r) = 1 /\ event_type r = 2.
Proof.
  eexists. split; [reflexivity|].
  pose proof (C4_status_code_overrides_change_flag
                two_rows (log_of (StrCell "0") (StrCell "3") (IntCell 1)) 1%nat _
                eq_refl eq_refl (or_intror eq_refl)) as (H1 & _ & H3).
  split; [exact H1 | exact (H3 eq_refl)].
Defined.

End EventExamples.

(* ================================================================== *)
(** * The columns of the emitted base table *)

Section ColumnTheorems.
Import Detector Reconciler Pipeline.
Context {sorter : SortValues}.

(** The derived columns the specification expects in the base table. *)
Definition spec_derived_columns : list string :=
  ["stop_segment"; "is_stopped"; "label"]%string.

Definition all_present (names cols : list string) : bool :=
  forallb (fun c => has_column c cols) names.

(** C5, amended: the emitted base table has the six parsed columns followed
    by [is_stopped] and [label]; every working column, [stop_segment]
    among them, is dropped. *)
Theorem C5_emitted_columns :
  forall stop_speed_threshold json_files change_flag_df base_df,
    create_dataset stop_speed_threshold json_files change_flag_df = Some base_df ->
    columns base_df
    = ["timestamp"; "speed"; "latitude"; "longitude"; "right_blinker";
       "left_blinker"; "is_stopped"; "label"]%string
    /\ all_present ["is_stopped"; "label"]%string (columns base_df) = true
    /\ forallb (fun c => negb (has_column c (columns base_df)))
               ("is_low_speed" :: "is_zero_speed" :: columns_to_drop)%string = true.
Proof.
  intros thr files log base_df H.
  apply (f_equal (option_map columns)) in H. cbn [option_map] in H.
  set (cols := columns base_df) in *. clearbody cols.
  unfold create_dataset in H.
  destruct files as [|f files]; [discriminate|].
  destruct (filter _ _) as [|x xs]; [discriminate|].
  vm_compute in H.
  injection H as <-. repeat split; reflexivity.
Qed.

End ColumnTheorems.

Section ColumnExamples.
Import Detector Reconciler Pipeline.

(** C5, as the specification states it, fails: [stop_segment] is one of the
    columns [label_stop_segments] drops, so the emitted base table of a
    one-sample capture does not carry the three derived columns. *)
Lemma C5_stop_segment_not_emitted :
  exists base_df,
    create_dataset 10%float
      [capture_of [plain_sample (Value 0) (Value 0%float)]] [] = Some base_df
    /\ has_column "stop_segment" (columns base_df) = false
    /\ all_present spec_derived_columns (columns base_df) = false.
Proof. eexists. split; [reflexivity|]. split; reflexivity. Qed.

Lemma C5_emitted_columns_witness :
  exists base_df,
    create_dataset 10%float
      [capture_of [plain_sample (Value 0) (Value 0%float)]] [] = Some base_df
    /\ columns base_df
       = ["timestamp"; "speed"; "latitude"; "longitude"; "right_blinker";
          "left_blinker"; "is_stopped"; "label"]%string.
Proof.
  eexists. split; [reflexivity|].
  exact (proj1 (C5_emitted_columns 10%float
                  [capture_of [plain_sample (Value 0) (Value 0%float)]] [] _ eq_refl)).
Defined.

End ColumnExamples.

(* ================================================================== *)
(** * The per-vehicle split *)

Section SplitFacts.
Import Split.
Context {R : Type} (car_id : R -> string).

Lemma In_firstn (n : nat) (l : list R) x : In x (firstn n l) -> In x l.
Proof. intros H. rewrite <- (firstn_skipn n l). apply in_or_app. now left. Qed.

Lemma In_skipn (n : nat) (l : list R) x : In x (skipn n l) -> In x l.
Proof. intros H. rewrite <- (firstn_skipn n l). apply in_or_app. now right. Qed.

Lemma cut_split (l : list R) (k : Z) : iloc_to l k ++ iloc_from l k = l.
Proof. apply firstn_skipn. Qed.

Lemma rows_of_car dataset c r : In r (rows_of car_id dataset c) -> car_id r = c.
Proof.
  unfold rows_of. intros H. apply filter_In in H as (_ & H).
  now apply String.eqb_eq.
Qed.

Lemma rows_of_same (l : list R) c :
  (forall r, In r l -> car_id r = c) -> rows_of car_id l c = l.
Proof.
  unfold rows_of. induction l as [|x l IH]; intros H; cbn; [reflexivity|].
  rewrite (H x (or_introl eq_refl)), String.eqb_refl. f_equal.
  apply IH. intros r Hr. apply H. now right.
Qed.

Lemma rows_of_other (l : list R) c c' :
  c' <> c -> (forall r, In r l -> car_id r = c') -> rows_of car_id l c = [].
Proof.
  unfold rows_of. induction l as [|x l IH]; intros Hne H; cbn; [reflexivity|].
  rewrite (H x (or_introl eq_refl)).
  destruct (String.eqb_spec c' c); [contradiction|].
  apply IH; [assumption|]. intros r Hr. apply H. now right.
Qed.

Lemma rows_of_app (l1 l2 : list R) c :
  rows_of car_id (l1 ++ l2) c = rows_of car_id l1 c ++ rows_of car_id l2 c.
Proof. apply filter_app. Qed.

(** The rows of vehicle [c] in a concatenation of per-vehicle blocks. *)
Lemma rows_of_blocks (block : string -> list R) ids c :
  NoDup ids -> In c ids ->
  (forall c' r, In r (block c') -> car_id r = c') ->
  rows_of car_id (concat (map block ids)) c = block c.
Proof.
  intros Hnd Hin Hblock. induction ids as [|x ids IH]; [destruct Hin|].
  inversion Hnd as [|? ? Hx Hnd']; subst. cbn [concat map]. rewrite rows_of_app.
  destruct Hin as [-> | Hin].
  - rewrite rows_of_same by (intros r; apply Hblock).
    assert (Hrest : rows_of car_id (concat (map block ids)) c = []).
    { clear IH Hnd Hnd'. induction ids as [|y ids IH]; [reflexivity|].
      cbn [concat map]. rewrite rows_of_app, IH by (intros H; apply Hx; now right).
      rewrite (rows_of_other _ c y); [reflexivity| |intros r; apply Hblock].
      intros ->. apply Hx. now left. }
    rewrite Hrest. apply app_nil_r.
  - rewrite (rows_of_other _ c x); [|intros ->; contradiction|intros r; apply Hblock].
    cbn [app]. now apply IH.
Qed.

Lemma unique_In l x : In x (unique l) <-> In x l.
Proof.
  induction l as [|y l IH]; cbn; [tauto|].
  rewrite filter_In, IH. split.
  - intros [H | [H _]]; auto.
  - intros [H | H]; [now left|].
    destruct (String.eqb_spec x y) as [->|Hne]; [now left|].
    right. split; [assumption|]. cbn.
    destruct (String.eqb_spec x y); [contradiction | reflexivity].
Qed.

Lemma unique_NoDup l : NoDup (unique l).
Proof.
  induction l as [|y l IH]; cbn; constructor.
  - rewrite filter_In. intros [_ H]. now rewrite String.eqb_refl in H.
  - now apply NoDup_filter.
Qed.

(** The split index the loop uses for a vehicle (0 where [int] raises). *)
Definition index_of dataset train_ratio c : Z :=
  match split_index (length (rows_of car_id dataset c)) train_ratio with
  | Some k => k
  | None => 0
  end.

Lemma split_loop_some dataset train_ratio ids :
  forall train_data test_data train_data' test_data',
    split_loop car_id dataset train_ratio ids train_data test_data
    = Some (train_data', test_data') ->
    (forall c, In c ids ->
       split_index (length (rows_of car_id dataset c)) train_ratio
       = Some (index_of dataset train_ratio c))
    /\ train_data' = train_data
         ++ map (fun c => iloc_to (rows_of car_id dataset c)
                                  (index_of dataset train_ratio c)) ids
    /\ test_data' = test_data
         ++ map (fun c => iloc_from (rows_of car_id dataset c)
                                    (index_of dataset train_ratio c)) ids.
Proof.
  induction ids as [|x ids IH]; intros tr te tr' te' H; cbn in H.
  - injection H as <- <-. cbn. rewrite !app_nil_r. split; [intros ? []|auto].
  - destruct (split_index (length (rows_of car_id dataset x)) train_ratio)
      as [k|] eqn:E; [|discriminate].
    apply IH in H as (Hk & -> & ->).
    assert (Hx : index_of dataset train_ratio x = k) by (unfold index_of; now rewrite E).
    split; [|cbn; rewrite Hx, <- !app_assoc; auto].
    intros c [<- | Hc]; [now rewrite Hx | now apply Hk].
Qed.

End SplitFacts.

Section SplitIndex.
Import Split.

(** The real number a finite float stands for, as a fraction. *)
Definition float_value (x : float) : option Q :=
  match Prim2SF x with
  | S754_zero _ => Some 0%Q
  | S754_finite s m e =>
      let v := if 0 <=? e then inject_Z (Z.shiftl (Zpos m) e)
               else (Zpos m # Z.to_pos (2 ^ (- e)))%Q in
      Some (if s then Qopp v else v)
  | S754_infinity _ | S754_nan => None
  end.

(** Rounding toward zero. *)
Definition truncate (q : Q) : Z := if Qle_bool 0 q then Qfloor q else Qceiling q.

(** The split index in the specification's words: floor(train_ratio x n). *)
Definition spec_split_index (train_ratio : Q) (n : nat) : Z :=
  Qfloor (train_ratio * inject_Z (Z.of_nat n)).

(** [len(car_data) * train_ratio], the binary64 product. *)
Definition scaled (len : nat) (train_ratio : float) : float :=
  PrimFloat.mul (PrimFloat.of_uint63 (Uint63.of_Z (Z.of_nat len))) train_ratio.

Lemma truncate_fraction (s : bool) (a : Z) (b : positive) :
  0 < a ->
  truncate (if s then Qopp (a # b) else (a # b)) = if s then - (a / Zpos b) else a / Zpos b.
Proof.
  intros Ha. unfold truncate, Qle_bool, Qceiling, Qfloor, Qopp.
  destruct s; cbn [Qnum Qden].
  - destruct (Z.leb_spec (0 * Zpos b) (- a * 1)); [lia|].
    now rewrite Z.opp_involutive.
  - destruct (Z.leb_spec (0 * Zpos b) (a * 1)); [reflexivity | lia].
Qed.

(** [int] gives the value of a finite float rounded toward zero, and raises
    on the others. *)
Lemma py_int_truncates x : py_int x = option_map truncate (float_value x).
Proof.
  unfold py_int, float_value. destruct (Prim2SF x) as [s|s| |s m e];
    cbn [option_map]; try reflexivity.
  f_equal. destruct (Z.leb_spec 0 e) as [He | He].
  - unfold inject_Z. rewrite truncate_fraction, Z.div_1_r; [reflexivity|].
    rewrite Z.shiftl_mul_pow2 by assumption.
    apply Z.mul_pos_pos; [reflexivity | now apply Z.pow_pos_nonneg].
  - assert (Hpow : 0 < 2 ^ (- e)) by (apply Z.pow_pos_nonneg; lia).
    rewrite truncate_fraction, Z2Pos.id, Z.shiftr_div_pow2 by (try reflexivity; lia).
    reflexivity.
Qed.

(** A successful split index is the binary64 product rounded toward zero. *)
Lemma split_index_truncates len train_ratio split_idx :
  split_index len train_ratio = Some split_idx ->
  exists product,
    float_value (scaled len train_ratio) = Some product /\ split_idx = truncate product.
Proof.
  unfold split_index. fold (scaled len train_ratio). rewrite py_int_truncates.
  destruct (float_value (scaled len train_ratio)) as [product|]; [|discriminate].
  cbn [option_map]. intros H. exists product. split; [reflexivity|].
  now injection H as <-.
Qed.

(** Where the binary64 product is the real product, rounding toward zero is
    the floor. *)
Lemma truncate_exact_product (product ratio : Q) (n : nat) :
  (0 <= ratio)%Q -> (product == ratio * inject_Z (Z.of_nat n))%Q ->
  truncate product = spec_split_index ratio n.
Proof.
  intros Hratio Hexact. unfold truncate, spec_split_index.
  assert (Hpos : Qle_bool 0 product = true).
  { apply Qle_bool_iff. rewrite Hexact. apply Qmult_le_0_compat; [assumption|].
    unfold Qle, inject_Z. cbn [Qnum Qden]. lia. }
  rewrite Hpos. now apply Qfloor_comp.
Qed.

(** A finite float below zero. *)
Definition finite_negative (f : spec_float) : bool :=
  match f with
  | S754_finite true _ _ => true
  | _ => false
  end.

(** Rounding keeps the sign, and so do the conversion of a length and the
    product with a ratio that is not below zero. *)
Lemma binary_round_aux_sign prec emax mx ex lx :
  finite_negative (binary_round_aux prec emax false mx ex lx) = false.
Proof.
  unfold binary_round_aux.
  destruct (shr_fexp prec emax mx ex lx) as [mrs' e'].
  destruct (shr_fexp prec emax _ e' loc_Exact) as [mrs'' e''].
  destruct (shr_m mrs''); [reflexivity | | reflexivity].
  now destruct (e'' <=? emax - prec).
Qed.

Lemma of_uint63_not_negative n : finite_negative (Prim2SF (of_uint63 n)) = false.
Proof.
  rewrite FloatAxioms.of_uint63_spec. unfold binary_normalize.
  pose proof (Uint63.to_Z_bounded n) as Hn.
  destruct (Uint63.to_Z n) as [|m|m]; [reflexivity | | lia].
  unfold binary_round. destruct (shl_align m 0 _) as [mz ez].
  apply binary_round_aux_sign.
Qed.

Lemma leb_zero_not_negative x :
  PrimFloat.leb 0 x = true -> finite_negative (Prim2SF x) = false.
Proof.
  rewrite FloatAxioms.leb_spec. change (Prim2SF 0) with (S754_zero false).
  destruct (Prim2SF x) as [s|s| |[|] m e]; try reflexivity. discriminate.
Qed.

Lemma mul_not_negative x y :
  finite_negative (Prim2SF x) = false -> finite_negative (Prim2SF y) = false ->
  finite_negative (Prim2SF (PrimFloat.mul x y)) = false.
Proof.
  rewrite FloatAxioms.mul_spec. unfold SF64mul, SFmul.
  destruct (Prim2SF x) as [sx|sx| |[|] mx ex]; try discriminate;
    destruct (Prim2SF y) as [sy|sy| |[|] my ey]; try discriminate; try reflexivity.
  intros _ _. apply binary_round_aux_sign.
Qed.

Lemma py_int_not_negative x k :
  finite_negative (Prim2SF x) = false -> py_int x = Some k -> 0 <= k.
Proof.
  unfold py_int. destruct (Prim2SF x) as [s|s| |[|] m e]; try discriminate.
  - intros _ H. injection H as <-. lia.
  - intros _ H. injection H as <-.
    destruct (0 <=? e); [apply Z.shiftl_nonneg | apply Z.shiftr_nonneg]; lia.
Qed.

Lemma split_index_not_negative len train_ratio split_idx :
  PrimFloat.leb 0 train_ratio = true ->
  split_index len train_ratio = Some split_idx -> 0 <= split_idx.
Proof.
  intros Hratio. apply py_int_not_negative, mul_not_negative;
    [apply of_uint63_not_negative | now apply leb_zero_not_negative].
Qed.

End SplitIndex.

Section SplitTheorems.
Import Split.

(** C9: when the split succeeds, the training rows of a vehicle are the
    first [k] of its rows in the data set and its test rows are the rest,
    both in the data set's order; the training rows followed by the test
    rows are the vehicle's rows again.  For the vehicle's [n] rows [k] is
    [int(n * train_ratio)]: the binary64 product of [n] and the ratio,
    rounded toward zero, which is not negative when the ratio is not.  It is
    floor(ratio x n) for every ratio that is not negative and whose real
    product with [n] the binary64 product is. *)
Theorem C9_split_is_prefix_and_rest :
  forall (R : Type) (car_id : R -> string) dataset train_ratio train_df test_df c,
    split_dataset car_id dataset train_ratio = Some (train_df, test_df) ->
    In c (map car_id dataset) ->
    let car_data := rows_of car_id dataset c in
    exists split_idx,
      split_index (length car_data) train_ratio = Some split_idx
      /\ rows_of car_id train_df c = iloc_to car_data split_idx
      /\ rows_of car_id test_df c = iloc_from car_data split_idx
      /\ rows_of car_id train_df c ++ rows_of car_id test_df c = car_data
      /\ (0 <= split_idx ->
          rows_of car_id train_df c = firstn (Z.to_nat split_idx) car_data
          /\ rows_of car_id test_df c = skipn (Z.to_nat split_idx) car_data)
      /\ (PrimFloat.leb 0 train_ratio = true -> 0 <= split_idx)
      /\ exists product,
           float_value (scaled (length car_data) train_ratio) = Some product
           /\ split_idx = truncate product
           /\ forall ratio : Q,
                (0 <= ratio)%Q ->
                (product == ratio * inject_Z (Z.of_nat (length car_data)))%Q ->
                split_idx = spec_split_index ratio (length car_data).
Proof.
  intros R car_id dataset ratio train_df test_df c H Hc car_data.
  unfold split_dataset in H.
  destruct (split_loop car_id dataset ratio (unique (map car_id dataset)) [] [])
    as [[train_data test_data]|] eqn:E; [|discriminate].
  injection H as <- <-.
  apply split_loop_some in E as (Hk & -> & ->). cbn [app].
  apply unique_In in Hc.
  exists (index_of car_id dataset ratio c).
  assert (Htrain : rows_of car_id
            (concat (map (fun c => iloc_to (rows_of car_id dataset c)
                                           (index_of car_id dataset ratio c))
                         (unique (map car_id dataset)))) c
          = iloc_to car_data (index_of car_id dataset ratio c)).
  { apply (rows_of_blocks car_id
             (fun c => iloc_to (rows_of car_id dataset c) (index_of car_id dataset ratio c)));
      [apply unique_NoDup | assumption |].
    intros c' r Hr. apply (rows_of_car car_id dataset).
    unfold iloc_to in Hr. now apply In_firstn in Hr. }
  assert (Htest : rows_of car_id
            (concat (map (fun c => iloc_from (rows_of car_id dataset c)
                                             (index_of car_id dataset ratio c))
                         (unique (map car_id dataset)))) c
          = iloc_from car_data (index_of car_id dataset ratio c)).
  { apply (rows_of_blocks car_id
             (fun c => iloc_from (rows_of car_id dataset c) (index_of car_id dataset ratio c)));
      [apply unique_NoDup | assumption |].
    intros c' r Hr. apply (rows_of_car car_id dataset).
    unfold iloc_from in Hr. now apply In_skipn in Hr. }
  rewrite Htrain, Htest.
  split; [now apply Hk|]. split; [reflexivity|]. split; [reflexivity|].
  split; [apply cut_split|]. split.
  - intros Hpos. unfold iloc_to, iloc_from, cut.
    destruct (Z.ltb_spec (index_of car_id dataset ratio c) 0); [lia | auto].
  - split; [intros Hratio; exact (split_index_not_negative _ _ _ Hratio (Hk c Hc))|].
    destruct (split_index_truncates _ _ _ (Hk c Hc)) as (product & Hvalue & Hidx).
    exists product. split; [exact Hvalue|]. split; [exact Hidx|].
    intros q Hq Hexact. rewrite Hidx. now apply truncate_exact_product.
Qed.

(** The split index on a few inputs: 10 rows at ratio 0.8, 10 rows at 0.7
    and 100 rows at 0.29, the ratios being the nearest binary64 values. *)
Lemma split_index_examples :
  split_index 10 0x1.999999999999ap-1%float = Some 8
  /\ split_index 10 0x1.6666666666666p-1%float = Some 7
  /\ split_index 100 0x1.28f5c28f5c28fp-2%float = Some 28.
Proof. repeat split; reflexivity. Qed.

(** Ten rows of one vehicle, in timestamp order. *)
Definition ten_rows : list (string * Z) :=
  map (fun i => ("car-1"%string, Z.of_nat i * 1000)) (seq 0 10).

Lemma C9_split_witness :
  exists split_idx,
    split_index 10 0x1.999999999999ap-1%float = Some split_idx
    /\ rows_of fst (firstn 8 ten_rows) "car-1" = iloc_to ten_rows split_idx
    /\ rows_of fst (skipn 8 ten_rows) "car-1" = iloc_from ten_rows split_idx
    /\ rows_of fst (firstn 8 ten_rows) "car-1" ++ rows_of fst (skipn 8 ten_rows) "car-1"
       = ten_rows
    /\ (0 <= split_idx ->
        rows_of fst (firstn 8 ten_rows) "car-1" = firstn (Z.to_nat split_idx) ten_rows
        /\ rows_of fst (skipn 8 ten_rows) "car-1" = skipn (Z.to_nat split_idx) ten_rows).
Proof.
  destruct (C9_split_is_prefix_and_rest (string * Z) fst ten_rows
              0x1.999999999999ap-1%float (firstn 8 ten_rows) (skipn 8 ten_rows)
              "car-1"%string eq_refl (or_introl eq_refl))
    as (split_idx & Hidx & Htrain & Htest & Hall & Hcut & _ & _).
  exists split_idx. repeat split; try assumption; now apply Hcut.
Defined.

(** One hundred rows of one vehicle, in timestamp order. *)
Definition hundred_rows : list (string * Z) :=
  map (fun i => ("car-1"%string, Z.of_nat i * 1000)) (seq 0 100).

(** The split as the specification words it: of every vehicle the first
    floor(train_ratio x n) rows for training and the rest for testing. *)
Definition splits_at_floor {R : Type} (car_id : R -> string) (dataset : list R)
    (train_ratio : Q) (train_df test_df : list R) : Prop :=
  forall c,
    In c (map car_id dataset) ->
    let car_data := rows_of car_id dataset c in
    let k := Z.to_nat (spec_split_index train_ratio (length car_data)) in
    rows_of car_id train_df c = firstn k car_data
    /\ rows_of car_id test_df c = skipn k car_data.

(** The binary64 value nearest to 0.29 and its real value. *)
Definition ratio_029 : float := 0x1.28f5c28f5c28fp-2%float.
Definition value_029 : Q := (5224175567749775 # 18014398509481984)%Q.

(** The binary64 value nearest to 0.7 and its real value. *)
Definition ratio_07 : float := 0x1.6666666666666p-1%float.
Definition value_07 : Q := (6305039478318694 # 9007199254740992)%Q.

(** C9, the stated cut: the cut is not at floor(train_ratio x n).  With 100
    rows and a ratio of 0.29 the binary64 product is below 29 and 28 rows go
    to training, where floor(0.29 x 100) is 29.  With 10 rows and a ratio
    of 0.7 the binary64 product is rounded up to 7 and 7 rows go to
    training, where the floor of the ratio's real value times 10 is 6 (and
    that of 0.7 x 10 is 7). *)
Lemma C9_floor_of_product_differs :
  (float_value ratio_029 = Some value_029
   /\ (Qabs (value_029 - (29 # 100)) <= 1 # 36028797018963968)%Q
   /\ split_dataset fst hundred_rows ratio_029
      = Some (firstn 28 hundred_rows, skipn 28 hundred_rows)
   /\ spec_split_index (29 # 100) 100 = 29
   /\ spec_split_index value_029 100 = 28
   /\ ~ splits_at_floor fst hundred_rows (29 # 100)
         (firstn 28 hundred_rows) (skipn 28 hundred_rows))
  /\ (float_value ratio_07 = Some value_07
      /\ (Qabs (value_07 - (7 # 10)) <= 1 # 18014398509481984)%Q
      /\ split_dataset fst ten_rows ratio_07
         = Some (firstn 7 ten_rows, skipn 7 ten_rows)
      /\ spec_split_index (7 # 10) 10 = 7
      /\ spec_split_index value_07 10 = 6
      /\ ~ splits_at_floor fst ten_rows value_07
            (firstn 7 ten_rows) (skipn 7 ten_rows)).
Proof.
  split.
  - split; [reflexivity|]. split; [now vm_compute|]. split; [reflexivity|].
    split; [reflexivity|]. split; [reflexivity|].
    intros H. destruct (H "car-1"%string (or_introl eq_refl)) as (Htrain & _).
    apply (f_equal (@length _)) in Htrain. vm_compute in Htrain. discriminate.
  - split; [reflexivity|]. split; [now vm_compute|]. split; [reflexivity|].
    split; [reflexivity|]. split; [reflexivity|].
    intros H. destruct (H "car-1"%string (or_introl eq_refl)) as (Htrain & _).
    apply (f_equal (@length _)) in Htrain. vm_compute in Htrain. discriminate.
Qed.

End SplitTheorems.

(* ================================================================== *)
(** * Properties of the Stop-Segment Detector *)

Section ScanFacts.
Import Detector.
Variable stop_speed_threshold : float.
Variable car_data : list SegRow.

(** Row [i] is below the threshold. *)
Definition low (i : nat) : Prop :=
  is_low_speed stop_speed_threshold (nth i car_data row0) = true.

(** Milliseconds between row [i - 1] and row [i]. *)
Definition gap (i : nat) : Z :=
  ts (nth i car_data row0) - ts (nth (i - 1) car_data row0).

(** Rows [s .. e-1] are all below the threshold and no two neighbours
    among them are more than 60 s apart. *)
Definition run_ok (s e : nat) : Prop :=
  (forall j, (s <= j < e)%nat -> low j)
  /\ (forall j, (s < j < e)%nat -> gap j <= 60000).

(** The run cannot be extended to the left: it starts the stream, or the
    row before is not low, or it is more than 60 s away. *)
Definition left_max (s : nat) : Prop :=
  s = 0%nat \/ ~ low (s - 1) \/ 60000 < gap s.

(** The run cannot be extended to the right. *)
Definition right_max (e : nat) : Prop :=
  e = length car_data \/ ~ low e \/ 60000 < gap e.

(** A candidate interval [s, e): a largest run of low-speed rows without a
    gap of more than 60 s. *)
Definition candidate (s e : nat) : Prop :=
  (s < e <= length car_data)%nat /\ run_ok s e /\ left_max s /\ right_max e.

(** Groups in increasing order, each non-empty, none overlapping, between
    [lo] and [hi]. *)
Fixpoint chain (lo : nat) (groups : list (nat * nat)) (hi : nat) : Prop :=
  match groups with
  | [] => (lo <= hi)%nat
  | (s, e) :: groups' => (lo <= s)%nat /\ (s < e)%nat /\ chain e groups' hi
  end.

Lemma chain_le lo groups hi : chain lo groups hi -> (lo <= hi)%nat.
Proof.
  revert lo. induction groups as [|[s e] gs IH]; cbn; intros lo H; [assumption|].
  destruct H as (H1 & H2 & H3). apply IH in H3. lia.
Qed.

Lemma chain_weaken lo groups hi hi' :
  (hi <= hi')%nat -> chain lo groups hi -> chain lo groups hi'.
Proof.
  revert lo. induction groups as [|[s e] gs IH]; cbn; intros lo Hle H; [lia|].
  destruct H as (H1 & H2 & H3). auto.
Qed.

Lemma chain_app lo groups s e hi :
  chain lo groups s -> (s < e)%nat -> (e <= hi)%nat ->
  chain lo (groups ++ [(s, e)]) hi.
Proof.
  revert lo. induction groups as [|[s' e'] gs IH]; cbn; intros lo H Hse Hhi.
  - auto.
  - destruct H as (H1 & H2 & H3). auto.
Qed.

Lemma chain_In lo groups hi s e :
  chain lo groups hi -> In (s, e) groups -> (lo <= s < e)%nat /\ (e <= hi)%nat.
Proof.
  revert lo. induction groups as [|[s' e'] gs IH]; cbn; intros lo H Hin; [destruct Hin|].
  destruct H as (H1 & H2 & H3). destruct Hin as [Heq | Hin].
  - injection Heq as -> ->. apply chain_le in H3. lia.
  - destruct (IH _ H3 Hin). lia.
Qed.

(** What holds of the scan state before row [k] is read. *)
Record scan_inv (k : nat) (st : scan_state) : Prop := {
  inv_chain :
    chain 0 (low_speed_groups st)
          (match start_idx st with Some s => s | None => k end);
  inv_groups :
    forall s e, In (s, e) (low_speed_groups st) -> candidate s e;
  inv_open :
    in_low_speed st = true ->
    exists s, start_idx st = Some s /\ (s < k)%nat /\ run_ok s k /\ left_max s;
  inv_closed :
    in_low_speed st = false ->
    start_idx st = None /\ (k = 0%nat \/ ~ low (k - 1));
  inv_cover :
    forall j, (j < k)%nat -> low j ->
      (exists s e, In (s, e) (low_speed_groups st) /\ (s <= j < e)%nat)
      \/ (exists s, in_low_speed st = true /\ start_idx st = Some s /\ (s <= j)%nat)
}.

Lemma scan_inv_init : scan_inv 0 (mkScan false None []).
Proof.
  constructor; cbn.
  - lia.
  - intros s e [].
  - discriminate.
  - auto.
  - intros j Hj. lia.
Qed.

Lemma run_ok_extend s k :
  run_ok s k -> low k -> ((s < k)%nat -> gap k <= 60000) -> run_ok s (S k).
Proof.
  intros (Hlow & Hgap) Hk Hg. split; intros j Hj.
  - destruct (Nat.eq_dec j k) as [->|]; [assumption | apply Hlow; lia].
  - destruct (Nat.eq_dec j k) as [->|]; [apply Hg; lia | apply Hgap; lia].
Qed.

Lemma run_ok_single k : low k -> run_ok k (S k).
Proof.
  intros Hk. split; intros j Hj; [|lia].
  now replace j with k by lia.
Qed.

Lemma scan_step_inv k st :
  (k < length car_data)%nat ->
  scan_inv k st ->
  scan_inv (S k) (scan_step stop_speed_threshold car_data st k).
Proof.
  intros Hk [Hchain Hgroups Hopen Hclosed Hcover].
  unfold scan_step, gap_check, speed_check.
  fold (gap k).
  destruct (in_low_speed st) eqn:Ein.
  - (* a run is open *)
    destruct (Hopen eq_refl) as (s & Es & Hsk & Hrun & Hleft).
    rewrite Es in Hchain.
    assert (Hclose : forall j, (j < k)%nat -> low j ->
              exists s' e', In (s', e') (low_speed_groups st ++ [(s, k)])
                            /\ (s' <= j < e')%nat).
    { intros j Hj Hlow. destruct (Hcover j Hj Hlow) as [(s' & e' & Hin & Hr) | (s' & _ & Es' & Hr)].
      - exists s', e'. split; [apply in_or_app; now left | assumption].
      - rewrite Es in Es'. injection Es' as <-.
        exists s, k. split; [apply in_or_app; right; now left | lia]. }
    assert (Hcand : right_max k -> forall s' e',
              In (s', e') (low_speed_groups st ++ [(s, k)]) -> candidate s' e').
    { intros Hright s' e' Hin. apply in_app_or in Hin as [Hin | [Heq | []]].
      - now apply Hgroups.
      - injection Heq as <- <-.
        split; [lia|]. split; [exact Hrun|]. split; assumption. }
    destruct ((0 <? k)%nat && (60000 <? gap k)) eqn:Egap.
    + (* the gap closes the run *)
      apply andb_true_iff in Egap as (E0 & Eg).
      rewrite E0, Eg. cbn [andb]. unfold append_group. rewrite Es.
      cbn [in_low_speed start_idx low_speed_groups negb andb].
      apply Z.ltb_lt in Eg.
      assert (Hright : right_max k) by (right; now right).
      destruct (is_low_speed stop_speed_threshold (nth k car_data row0)) eqn:El;
        cbn [andb negb in_low_speed start_idx low_speed_groups].
      * constructor; cbn [in_low_speed start_idx low_speed_groups].
        -- apply chain_app; auto.
        -- now apply Hcand.
        -- intros _. exists k. split; [reflexivity|]. split; [lia|].
           split; [apply run_ok_single; exact El | right; now right].
        -- discriminate.
        -- intros j Hj Hlow. destruct (Nat.eq_dec j k) as [->|].
           ++ right. exists k. auto.
           ++ left. apply Hclose; [lia | assumption].
      * constructor; cbn [in_low_speed start_idx low_speed_groups].
        -- apply chain_app; auto.
        -- now apply Hcand.
        -- discriminate.
        -- intros _. split; [reflexivity|]. right. rewrite Nat.sub_1_r. cbn [Nat.pred].
           unfold low. rewrite El. discriminate.
        -- intros j Hj Hlow. destruct (Nat.eq_dec j k) as [->|].
           ++ unfold low in Hlow. rewrite El in Hlow. discriminate.
           ++ left. apply Hclose; [lia | assumption].
    + (* no gap *)
      assert (Hnogap : (s < k)%nat -> gap k <= 60000).
      { intros Hlt. apply andb_false_iff in Egap as [E0 | Eg].
        - apply Nat.ltb_ge in E0. lia.
        - apply Z.ltb_ge in Eg. exact Eg. }
      assert (Est : (if (0 <? k)%nat
                     then if (60000 <? gap k) && true
                          then mkScan false None (append_group st k) else st
                     else st) = st).
      { destruct (0 <? k)%nat; [|reflexivity].
        cbn [andb] in Egap. rewrite Egap. reflexivity. }
      rewrite Est, Ein. clear Est.
      destruct (is_low_speed stop_speed_threshold (nth k car_data row0)) eqn:El;
        cbn [andb negb].
      * constructor.
        -- rewrite Es. exact Hchain.
        -- exact Hgroups.
        -- intros _. exists s. split; [exact Es|]. split; [lia|].
           split; [apply run_ok_extend; auto | exact Hleft].
        -- rewrite Ein. discriminate.
        -- intros j Hj Hlow. destruct (Nat.eq_dec j k) as [->|].
           ++ right. exists s. split; [assumption|]. split; [assumption | lia].
           ++ rewrite Ein. apply Hcover; [lia | assumption].
      * unfold append_group. rewrite Es.
        assert (Hright : right_max k).
        { right. left. unfold low. rewrite El. discriminate. }
        constructor; cbn [in_low_speed start_idx low_speed_groups].
        -- apply chain_app; auto.
        -- now apply Hcand.
        -- discriminate.
        -- intros _. split; [reflexivity|]. right. rewrite Nat.sub_1_r. cbn [Nat.pred].
           unfold low. rewrite El. discriminate.
        -- intros j Hj Hlow. destruct (Nat.eq_dec j k) as [->|].
           ++ unfold low in Hlow. rewrite El in Hlow. discriminate.
           ++ left. apply Hclose; [lia | assumption].
  - (* no run is open *)
    destruct (Hclosed eq_refl) as (Es & Hprev).
    rewrite Es in Hchain.
    assert (Est : (if (0 <? k)%nat
                   then if (60000 <? gap k) && false
                        then mkScan false None (append_group st k) else st
                   else st) = st).
    { destruct (0 <? k)%nat; [|reflexivity]. now rewrite andb_false_r. }
    rewrite Est, Ein. clear Est.
    destruct (is_low_speed stop_speed_threshold (nth k car_data row0)) eqn:El;
      cbn [andb negb].
    + constructor; cbn [in_low_speed start_idx low_speed_groups].
      * exact Hchain.
      * exact Hgroups.
      * intros _. exists k. split; [reflexivity|]. split; [lia|].
        split; [apply run_ok_single; exact El|].
        destruct Hprev as [-> | Hprev]; [now left | right; now left].
      * discriminate.
      * intros j Hj Hlow. destruct (Nat.eq_dec j k) as [->|].
        -- right. exists k. auto.
        -- destruct (Hcover j ltac:(lia) Hlow) as [H | (s' & E & _)];
             [now left | congruence].
    + constructor.
      * rewrite Es. apply chain_weaken with k; [lia | exact Hchain].
      * exact Hgroups.
      * rewrite Ein. discriminate.
      * intros _. split; [exact Es|]. right. rewrite Nat.sub_1_r. cbn [Nat.pred].
        unfold low. rewrite El. discriminate.
      * intros j Hj Hlow. destruct (Nat.eq_dec j k) as [->|].
        -- unfold low in Hlow. rewrite El in Hlow. discriminate.
        -- rewrite Ein. apply Hcover; [lia | assumption].
Qed.

Lemma scan_S k :
  scan stop_speed_threshold car_data (S k)
  = scan_step stop_speed_threshold car_data (scan stop_speed_threshold car_data k) k.
Proof. unfold scan. now rewrite seq_S, fold_left_app. Qed.

Lemma scan_inv_prefix k :
  (k <= length car_data)%nat -> scan_inv k (scan stop_speed_threshold car_data k).
Proof.
  induction k as [|k IH]; intros Hk.
  - apply scan_inv_init.
  - rewrite scan_S. apply scan_step_inv; [lia | apply IH; lia].
Qed.

(** The groups the scan returns: ordered and disjoint, each a candidate
    interval, and together covering every low-speed row. *)
Lemma find_low_speed_groups_sound :
  let groups := find_low_speed_groups stop_speed_threshold car_data in
  chain 0 groups (length car_data)
  /\ (forall s e, In (s, e) groups -> candidate s e)
  /\ (forall j, (j < length car_data)%nat -> low j ->
       exists s e, In (s, e) groups /\ (s <= j < e)%nat).
Proof.
  cbv zeta. unfold find_low_speed_groups.
  destruct (scan_inv_prefix (length car_data) (le_n _))
    as [Hchain Hgroups Hopen Hclosed Hcover].
  destruct (in_low_speed (scan stop_speed_threshold car_data (length car_data))) eqn:Ein.
  - destruct (Hopen eq_refl) as (s & Es & Hs & Hrun & Hleft).
    unfold append_group. rewrite Es in *. split; [|split].
    + apply chain_app; auto.
    + intros s' e' Hin. apply in_app_or in Hin as [Hin | [Heq | []]].
      * now apply Hgroups.
      * injection Heq as <- <-.
        split; [lia|]. split; [exact Hrun|]. split; [exact Hleft | now left].
    + intros j Hj Hlow.
      destruct (Hcover j Hj Hlow) as [(s' & e' & Hin & Hr) | (s' & _ & Es' & Hr)].
      * exists s', e'. split; [apply in_or_app; now left | assumption].
      * injection Es' as <-. exists s, (length car_data).
        split; [apply in_or_app; right; now left | lia].
  - destruct (Hclosed eq_refl) as (Es & _). rewrite Es in Hchain.
    split; [exact Hchain|]. split; [exact Hgroups|].
    intros j Hj Hlow.
    destruct (Hcover j Hj Hlow) as [H | (s' & E & _)]; [exact H | discriminate].
Qed.

(** Two candidate intervals that share a row are the same interval. *)
Lemma candidate_unique s e s' e' j :
  candidate s e -> candidate s' e' ->
  (s <= j < e)%nat -> (s' <= j < e')%nat -> s = s' /\ e = e'.
Proof.
  intros (Hb & (Hlow & Hgap) & Hl & Hr) (Hb' & (Hlow' & Hgap') & Hl' & Hr') Hj Hj'.
  assert (Hs : s = s').
  { destruct (Nat.lt_trichotomy s s') as [Hlt | [Heq | Hlt]]; [|assumption|].
    - exfalso. destruct Hl' as [H0 | [Hn | Hg]].
      + lia.
      + apply Hn, Hlow. lia.
      + specialize (Hgap s' ltac:(lia)). lia.
    - exfalso. destruct Hl as [H0 | [Hn | Hg]].
      + lia.
      + apply Hn, Hlow'. lia.
      + specialize (Hgap' s ltac:(lia)). lia. }
  split; [assumption|]. subst s'.
  destruct (Nat.lt_trichotomy e e') as [Hlt | [Heq | Hlt]]; [|assumption|].
  - exfalso. destruct Hr as [H0 | [Hn | Hg]].
    + lia.
    + apply Hn, Hlow'. lia.
    + specialize (Hgap' e ltac:(lia)). lia.
  - exfalso. destruct Hr' as [H0 | [Hn | Hg]].
    + lia.
    + apply Hn, Hlow. lia.
    + specialize (Hgap e' ltac:(lia)). lia.
Qed.

(** The groups are exactly the candidate intervals. *)
Lemma find_low_speed_groups_complete s e :
  In (s, e) (find_low_speed_groups stop_speed_threshold car_data) <-> candidate s e.
Proof.
  destruct find_low_speed_groups_sound as (_ & Hsound & Hcover). split.
  - apply Hsound.
  - intros Hc. pose proof Hc as (Hb & (Hlow & _) & _).
    destruct (Hcover s ltac:(lia) (Hlow s ltac:(lia))) as (s' & e' & Hin & Hr).
    destruct (candidate_unique s e s' e' s Hc (Hsound _ _ Hin) ltac:(lia) Hr) as (-> & ->).
    exact Hin.
Qed.

End ScanFacts.

Section MarkFacts.
Import Detector.
Variable car_data : list SegRow.

(** The qualification rule: at least 10 s from first to last row, a row
    with speed 0, and at least two rows. *)
Definition qualifies (s e : nat) : bool :=
  let segment_data := iloc_slice car_data s e in
  (10000 <=? time_diff segment_data)
  && existsb is_zero_speed segment_data
  && (2 <=? length segment_data)%nat.

Definition count_qualifying (groups : list (nat * nat)) : nat :=
  length (filter (fun g => qualifies (fst g) (snd g)) groups).

(** The segment id row [j] ends with when the groups are marked in order,
    the ids continuing after [segment_id]; 0 when no qualifying group holds
    the row. *)
Fixpoint segment_of (groups : list (nat * nat)) (segment_id : Z) (j : nat) : Z :=
  match groups with
  | [] => 0
  | (s, e) :: groups' =>
      if qualifies s e then
        if (s <=? j)%nat && (j <? e)%nat then segment_id + 1
        else segment_of groups' (segment_id + 1) j
      else segment_of groups' segment_id j
  end.

Lemma mark_step_qualifies df segment_id s e :
  mark_step car_data (df, segment_id) (s, e)
  = if qualifies s e then (loc_set df 0 s e (segment_id + 1), segment_id + 1)
    else (df, segment_id).
Proof.
  unfold mark_step, qualifies. cbv zeta.
  destruct (2 <=? length (iloc_slice car_data s e))%nat.
  - now rewrite andb_true_r.
  - now rewrite andb_false_r.
Qed.

Lemma loc_set_nth df : forall i s e v j,
  nth_error (loc_set df i s e v) j
  = option_map (fun r => if (s <=? i + j)%nat && (i + j <? e)%nat then mark v r else r)
               (nth_error df j).
Proof.
  induction df as [|r df IH]; intros i s e v j.
  - destruct j; reflexivity.
  - destruct j as [|j]; cbn [loc_set nth_error option_map].
    + now rewrite Nat.add_0_r.
    + rewrite IH. now rewrite Nat.add_succ_r.
Qed.

Lemma loc_set_length df : forall i s e v, length (loc_set df i s e v) = length df.
Proof. induction df; intros; cbn; auto. Qed.

Lemma segment_of_before groups : forall lo hi segment_id j,
  chain lo groups hi -> (j < lo)%nat -> segment_of groups segment_id j = 0.
Proof.
  induction groups as [|[s e] gs IH]; intros lo hi id j Hc Hj; cbn [segment_of];
    [reflexivity|].
  destruct Hc as (H1 & H2 & H3).
  destruct (Nat.leb_spec s j); [lia|]. cbn [andb].
  destruct (qualifies s e); apply IH with e hi; auto; lia.
Qed.

Lemma segment_of_outside groups : forall segment_id j,
  (forall s e, In (s, e) groups -> ~ (s <= j < e)%nat) ->
  segment_of groups segment_id j = 0.
Proof.
  induction groups as [|[s e] gs IH]; intros id j H; cbn [segment_of]; [reflexivity|].
  assert (Hout : (s <=? j)%nat && (j <? e)%nat = false).
  { destruct (Nat.leb_spec s j); [|reflexivity].
    destruct (Nat.ltb_spec j e); [|reflexivity].
    exfalso. apply (H s e); [now left | lia]. }
  rewrite Hout.
  destruct (qualifies s e); apply IH; intros s' e' Hin; apply H; now right.
Qed.

Lemma segment_of_group groups : forall lo hi segment_id k s e j,
  chain lo groups hi ->
  nth_error groups k = Some (s, e) ->
  (s <= j < e)%nat ->
  segment_of groups segment_id j
  = if qualifies s e
    then segment_id + Z.of_nat (count_qualifying (firstn (S k) groups))
    else 0.
Proof.
  induction groups as [|[s0 e0] gs IH]; intros lo hi id k s e j Hc Hk Hj.
  - destruct k; discriminate.
  - destruct Hc as (H1 & H2 & H3). destruct k as [|k].
    + injection Hk as -> ->.
      cbn [segment_of firstn]. unfold count_qualifying. cbn [filter fst snd].
      destruct (qualifies s e) eqn:Eq.
      * destruct (Nat.leb_spec s j); [|lia]. destruct (Nat.ltb_spec j e); [|lia].
        cbn. lia.
      * apply segment_of_before with e hi; [assumption | lia].
    + cbn [nth_error] in Hk.
      assert (Hin : In (s, e) gs) by (eapply nth_error_In; eauto).
      destruct (chain_In _ _ _ _ _ H3 Hin) as (Hs & _).
      cbn [segment_of].
      assert (Hout : (s0 <=? j)%nat && (j <? e0)%nat = false).
      { destruct (Nat.ltb_spec j e0); [lia | apply andb_false_r]. }
      rewrite Hout.
      change (firstn (S (S k)) ((s0, e0) :: gs)) with ((s0, e0) :: firstn (S k) gs).
      unfold count_qualifying. cbn [filter fst snd]. fold (count_qualifying (firstn (S k) gs)).
      destruct (qualifies s0 e0);
        rewrite (IH e0 hi _ k s e j H3 Hk Hj); destruct (qualifies s e);
        cbn [length]; try reflexivity.
      unfold count_qualifying. rewrite Nat2Z.inj_succ. lia.
Qed.

(** The frame after the marking loop, row by row. *)
Lemma mark_fold_nth groups : forall lo hi df segment_id j r,
  chain lo groups hi ->
  0 <= segment_id ->
  nth_error df j = Some r ->
  nth_error (fst (fold_left (mark_step car_data) groups (df, segment_id))) j
  = Some (let v := segment_of groups segment_id j in
          if v =? 0 then r else mark v r).
Proof.
  induction groups as [|[s e] gs IH]; intros lo hi df id j r Hc Hid Hj.
  - cbn. exact Hj.
  - destruct Hc as (H1 & H2 & H3).
    cbn [fold_left segment_of]. rewrite mark_step_qualifies.
    destruct (qualifies s e).
    + destruct ((s <=? j)%nat && (j <? e)%nat) eqn:Ein.
      * rewrite (IH e hi _ _ j (mark (id + 1) r)); [|assumption|lia|].
        -- rewrite (segment_of_before gs e hi); [|assumption|].
           ++ cbv zeta. cbn [Z.eqb]. destruct (Z.eqb_spec (id + 1) 0); [lia | reflexivity].
           ++ apply andb_true_iff in Ein as (_ & Ein). now apply Nat.ltb_lt in Ein.
        -- rewrite loc_set_nth, Hj. cbn [option_map Nat.add]. now rewrite Ein.
      * apply (IH e hi); [assumption | lia |].
        rewrite loc_set_nth, Hj. cbn [option_map Nat.add]. now rewrite Ein.
    + now apply (IH e hi).
Qed.

Lemma mark_fold_length groups : forall df segment_id,
  length (fst (fold_left (mark_step car_data) groups (df, segment_id))) = length df.
Proof.
  induction groups as [|[s e] gs IH]; intros df id; [reflexivity|].
  cbn [fold_left]. rewrite mark_step_qualifies.
  destruct (qualifies s e); rewrite IH; [apply loc_set_length | reflexivity].
Qed.

End MarkFacts.

Section DetectorTheorems.
Import Detector.
Context {sorter : SortValues}.


(** The frame [identify_stop_segments] scans: the rows in timestamp order,
    with both stop columns at 0. *)
Definition scanned (rows : list BaseRow) : list SegRow :=
  map (fun b => mkSegRow b 0 0) (sort_values timestamp rows).

(** A run as the specification words it: a largest stretch of low-speed
    rows, closed by a row at or above the threshold or by the end of the
    stream. *)
Definition speed_run (stop_speed_threshold : float) (car_data : list SegRow)
    (s e : nat) : Prop :=
  (s < e <= length car_data)%nat
  /\ (forall j, (s <= j < e)%nat -> low stop_speed_threshold car_data j)
  /\ (s = 0%nat \/ ~ low stop_speed_threshold car_data (s - 1))
  /\ (e = length car_data \/ ~ low stop_speed_threshold car_data e).

(** The marking the specification asks for: every row of a qualifying run
    gets a positive segment id. *)
Definition marks_every_qualifying_run (stop_speed_threshold : float)
    (rows : list BaseRow) : Prop :=
  forall s e, speed_run stop_speed_threshold (scanned rows) s e ->
    qualifies (scanned rows) s e = true ->
    forall j, (s <= j < e)%nat ->
      exists r, nth_error (identify_rows stop_speed_threshold rows) j = Some r
                /\ 0 < stop_segment r.

(** On rows of distinct timestamps the detector's result does not depend
    on the sort. *)
Lemma identify_rows_distinct stop_speed_threshold rows :
  distinct (map timestamp rows) = true ->
  identify_rows stop_speed_threshold rows
  = identify_rows (sorter := stable_sort) stop_speed_threshold rows.
Proof.
  intros Hd. unfold identify_rows.
  rewrite (sort_values_distinct timestamp _ (distinct_NoDup _ Hd)). reflexivity.
Qed.

(** C1, amended: the rows are scanned in timestamp order and the intervals
    the detector evaluates are the candidate intervals, the largest runs of
    low-speed rows in which no two neighbouring rows are more than 60 s
    apart (a whole low-speed run when it has no such gap).  Every row of the [k]-th
    interval gets, when the interval qualifies (at least 10 s long, a row
    at speed 0, at least two rows), the number of qualifying intervals up
    to and including the [k]-th as [stop_segment], and [is_stopped = 1];
    when it does not qualify, and for rows in no interval, both columns
    stay 0. *)
Theorem C1_candidate_intervals_marked :
  forall stop_speed_threshold rows,
    let car_data := scanned rows in
    let groups := find_low_speed_groups stop_speed_threshold car_data in
    let out := identify_rows stop_speed_threshold rows in
    ascending timestamp (sort_values timestamp rows)
    /\ (forall s e, In (s, e) groups <-> candidate stop_speed_threshold car_data s e)
    /\ (forall s e,
          speed_run stop_speed_threshold car_data s e ->
          (forall j, (s < j < e)%nat -> gap car_data j <= 60000) ->
          In (s, e) groups)
    /\ chain 0 groups (length car_data)
    /\ length out = length rows
    /\ (forall k s e j,
          nth_error groups k = Some (s, e) -> (s <= j < e)%nat ->
          exists b,
            nth_error (sort_values timestamp rows) j = Some b
            /\ nth_error out j
               = Some (if qualifies car_data s e
                       then mkSegRow b (Z.of_nat (count_qualifying car_data
                                                    (firstn (S k) groups))) 1
                       else mkSegRow b 0 0)
            /\ (qualifies car_data s e = true ->
                (1 <= count_qualifying car_data (firstn (S k) groups))%nat))
    /\ (forall j b,
          nth_error (sort_values timestamp rows) j = Some b ->
          (forall s e, In (s, e) groups -> ~ (s <= j < e)%nat) ->
          nth_error out j = Some (mkSegRow b 0 0)).
Proof.
  intros thr rows car_data groups out.
  destruct (find_low_speed_groups_sound thr car_data) as (Hchain & Hsound & Hcover).
  fold groups in Hchain, Hsound, Hcover.
  assert (Hrow : forall j b, nth_error (sort_values timestamp rows) j = Some b ->
            nth_error out j
            = Some (let v := segment_of car_data groups 0 j in
                    if v =? 0 then mkSegRow b 0 0 else mark v (mkSegRow b 0 0))).
  { intros j b Hb. unfold out, identify_rows. fold (scanned rows). fold car_data.
    fold groups. apply mark_fold_nth with 0%nat (length car_data); [assumption | lia |].
    unfold car_data, scanned. now rewrite nth_error_map, Hb. }
  split; [apply sort_values_ascending|].
  split; [intros s e; apply find_low_speed_groups_complete|].
  split.
  { intros s e (Hb & Hlow & Hl & Hr) Hgaps.
    apply find_low_speed_groups_complete.
    split; [exact Hb|]. split; [split; assumption|]. split.
    - destruct Hl as [-> | Hl]; [now left | right; now left].
    - destruct Hr as [-> | Hr]; [now left | right; now left]. }
  split; [exact Hchain|]. split.
  { unfold out, identify_rows. rewrite mark_fold_length, length_map.
    apply sort_values_length. }
  split.
  - intros k s e j Hk Hj.
    assert (Hin : In (s, e) groups) by (eapply nth_error_In; eauto).
    destruct (chain_In _ _ _ _ _ Hchain Hin) as (_ & He).
    assert (Hlen : (j < length (sort_values timestamp rows))%nat).
    { unfold car_data, scanned in He. rewrite length_map in He. lia. }
    destruct (nth_error (sort_values timestamp rows) j) as [b|] eqn:Eb;
      [|apply nth_error_None in Eb; lia].
    exists b. split; [reflexivity|].
    assert (Hcount : qualifies car_data s e = true ->
              (1 <= count_qualifying car_data (firstn (S k) groups))%nat).
    { intros Hq. unfold count_qualifying.
      assert (Hmem : In (s, e) (filter (fun g => qualifies car_data (fst g) (snd g))
                                       (firstn (S k) groups))).
      { apply filter_In. split; [|exact Hq].
        apply nth_error_In with k. rewrite nth_error_firstn.
        destruct (Nat.ltb_spec k (S k)); [assumption | lia]. }
      destruct (filter _ _); [destruct Hmem | cbn; lia]. }
    split; [|exact Hcount].
    rewrite (Hrow j b Eb).
    rewrite (segment_of_group car_data groups 0%nat (length car_data) 0 k s e j Hchain Hk Hj).
    cbv zeta. destruct (qualifies car_data s e); [|reflexivity].
    specialize (Hcount eq_refl).
    destruct (Z.eqb_spec (0 + Z.of_nat (count_qualifying car_data (firstn (S k) groups))) 0);
      [lia|].
    unfold mark. cbn [base]. now rewrite Z.add_0_l.
  - intros j b Hb Hout. rewrite (Hrow j b Hb).
    now rewrite segment_of_outside.
Qed.

Lemma speed_run_split stop_speed_threshold car_data s m e :
  speed_run stop_speed_threshold car_data s e ->
  (s < m < e)%nat ->
  60000 < gap car_data m ->
  (forall j, (s < j < e)%nat -> j <> m -> gap car_data j <= 60000) ->
  candidate stop_speed_threshold car_data s m
  /\ candidate stop_speed_threshold car_data m e.
Proof.
  intros (Hb & Hlow & Hl & Hr) Hm Hgap Hothers. split.
  - split; [lia|]. split; [split|split].
    + intros j Hj. apply Hlow. lia.
    + intros j Hj. apply Hothers; lia.
    + destruct Hl as [-> | Hl]; [now left | right; now left].
    + right. now right.
  - split; [lia|]. split; [split|split].
    + intros j Hj. apply Hlow. lia.
    + intros j Hj. apply Hothers; lia.
    + right. now right.
    + destruct Hr as [-> | Hr]; [now left | right; now left].
Qed.

(** C6: while a run is open, a row more than 60 s after its predecessor
    closes the run at the predecessor, whatever the row's own speed, and a
    low-speed row then opens a new run; so no group holds two neighbouring
    rows more than 60 s apart, and a low-speed run with one such gap inside
    gives the two groups on either side of the gap and not the whole run. *)
Theorem C6_gap_closes_open_run :
  forall stop_speed_threshold car_data,
    let groups := find_low_speed_groups stop_speed_threshold car_data in
    (forall st i s,
        (0 < i)%nat -> in_low_speed st = true -> start_idx st = Some s ->
        60000 < gap car_data i ->
        let st' := scan_step stop_speed_threshold car_data st i in
        low_speed_groups st' = low_speed_groups st ++ [(s, i)]
        /\ (low stop_speed_threshold car_data i ->
            in_low_speed st' = true /\ start_idx st' = Some i)
        /\ (~ low stop_speed_threshold car_data i ->
            in_low_speed st' = false /\ start_idx st' = None))
    /\ (forall s e j, In (s, e) groups -> (s < j < e)%nat -> gap car_data j <= 60000)
    /\ (forall s m e,
          speed_run stop_speed_threshold car_data s e ->
          (s < m < e)%nat ->
          60000 < gap car_data m ->
          (forall j, (s < j < e)%nat -> j <> m -> gap car_data j <= 60000) ->
          In (s, m) groups /\ In (m, e) groups /\ ~ In (s, e) groups).
Proof.
  intros thr car_data groups. split; [|split].
  - intros st i s Hi Hin Hs Hgap. cbv zeta.
    unfold scan_step, gap_check, speed_check. fold (gap car_data i).
    destruct (Nat.ltb_spec 0 i); [|lia].
    destruct (Z.ltb_spec 60000 (gap car_data i)); [|lia].
    rewrite Hin. cbn [andb in_low_speed start_idx low_speed_groups negb].
    unfold low.
    destruct (is_low_speed thr (nth i car_data row0));
      cbn [andb negb in_low_speed start_idx low_speed_groups];
      unfold append_group; rewrite Hs.
    + split; [reflexivity|]. split; [auto|]. intros Hn. now destruct Hn.
    + split; [reflexivity|]. split; [discriminate | auto].
  - intros s e j Hin Hj.
    apply find_low_speed_groups_complete in Hin as (_ & (_ & Hg) & _). now apply Hg.
  - intros s m e Hrun Hm Hgap Hothers.
    destruct (speed_run_split _ _ _ _ _ Hrun Hm Hgap Hothers) as (H1 & H2).
    split; [now apply find_low_speed_groups_complete|].
    split; [now apply find_low_speed_groups_complete|].
    intros Hin. apply find_low_speed_groups_complete in Hin as (_ & (_ & Hg) & _).
    specialize (Hg m Hm). lia.
Qed.

End DetectorTheorems.

Section DetectorExamples.
Import Detector.

Lemma scanned_distinct (sorter : SortValues) rows :
  distinct (map timestamp rows) = true ->
  scanned (sorter := sorter) rows = scanned (sorter := stable_sort) rows.
Proof.
  intros Hd. unfold scanned.
  rewrite (sort_values_distinct timestamp _ (distinct_NoDup _ Hd)). reflexivity.
Qed.

(** Four rows at speed 0, at 0 s, 5 s, 75 s and 80 s. *)
Definition gap_rows : list BaseRow :=
  map (fun t => mkBaseRow t 0%float 0%float 0%float 0 0) [0; 5000; 75000; 80000].

(** C1, as the specification states it, fails: the four rows of [gap_rows]
    are one run below the threshold, 80 s long, with zero speed and four
    rows, yet no row is marked, because the 70 s gap cuts the run into two
    intervals of 5 s each.  The four timestamps are distinct, so this holds
    whatever order the sort gives to rows of equal timestamp. *)
Lemma C1_gap_cuts_qualifying_run :
  speed_run 10%float (scanned gap_rows) 0 4
  /\ qualifies (scanned gap_rows) 0 4 = true
  /\ find_low_speed_groups 10%float (scanned gap_rows) = [(0, 2); (2, 4)]%nat
  /\ map stop_segment (identify_rows 10%float gap_rows) = [0; 0; 0; 0]
  /\ ~ marks_every_qualifying_run 10%float gap_rows
  /\ (forall sorter : SortValues,
        ~ marks_every_qualifying_run (sorter := sorter) 10%float gap_rows).
Proof.
  assert (Hrun : speed_run 10%float (scanned gap_rows) 0 4).
  { split; [cbn; lia|]. split; [|split; [now left | now left]].
    intros j Hj.
    assert (Hc : (j = 0 \/ j = 1 \/ j = 2 \/ j = 3)%nat) by lia.
    destruct Hc as [-> | [-> | [-> | ->]]]; reflexivity. }
  assert (Hall : forall sorter : SortValues,
            ~ marks_every_qualifying_run (sorter := sorter) 10%float gap_rows).
  { intros sorter H. specialize (H 0%nat 4%nat).
    rewrite (scanned_distinct sorter gap_rows eq_refl) in H.
    rewrite (identify_rows_distinct 10%float gap_rows eq_refl) in H.
    destruct (H Hrun eq_refl 0%nat ltac:(lia)) as (r & Hr & Hpos).
    vm_compute in Hr. injection Hr as <-. cbn in Hpos. lia. }
  split; [exact Hrun|]. split; [reflexivity|]. split; [reflexivity|].
  split; [reflexivity|]. split; [apply Hall | exact Hall].
Qed.

(** The specification's two detector examples at 1 Hz: a low-speed run of
    2 s with a zero is not a stop; a run of 60 rows with zeros is one stop
    covering exactly the run. *)
Lemma detector_examples :
  map stop_segment (identify_rows 10%float (at_rate 1000 [15; 8; 0; 5; 12]%float))
  = [0; 0; 0; 0; 0]
  /\ map is_stopped
       (identify_rows 10%float
          (at_rate 1000 (repeat 15%float 5
                         ++ concat (repeat [8; 3; 0; 4]%float 15)
                         ++ repeat 15%float 5)))
     = repeat 0 5 ++ repeat 1 60 ++ repeat 0 5
  /\ map stop_segment
       (identify_rows 10%float
          (at_rate 1000 (repeat 15%float 5
                         ++ concat (repeat [8; 3; 0; 4]%float 15)
                         ++ repeat 15%float 5)))
     = repeat 0 5 ++ repeat 1 60 ++ repeat 0 5.
Proof. repeat split; vm_compute; reflexivity. Qed.

(** A low-speed run (rows 1 to 4) with 70 s between rows 2 and 3. *)
Definition gap70_data : list SegRow :=
  map (fun '(t, v) => mkSegRow (mkBaseRow t v 0%float 0%float 0 0) 0 0)
      [(0, 15%float); (1000, 5%float); (12000, 0%float);
       (82000, 0%float); (95000, 5%float); (96000, 15%float)].

Lemma C6_gap_closes_witness :
  In (1, 3)%nat (find_low_speed_groups 10%float gap70_data)
  /\ In (3, 5)%nat (find_low_speed_groups 10%float gap70_data)
  /\ ~ In (1, 5)%nat (find_low_speed_groups 10%float gap70_data).
Proof.
  apply (proj2 (proj2 (C6_gap_closes_open_run 10%float gap70_data)) 1%nat 3%nat 5%nat).
  - split; [cbn; lia|]. split; [|split].
    + intros j Hj. assert (Hc : (j = 1 \/ j = 2 \/ j = 3 \/ j = 4)%nat) by lia.
      destruct Hc as [-> | [-> | [-> | ->]]]; reflexivity.
    + right. vm_compute. discriminate.
    + right. vm_compute. discriminate.
  - lia.
  - reflexivity.
  - intros j Hj Hne. assert (Hc : (j = 2 \/ j = 4)%nat) by lia.
    destruct Hc as [-> | ->]; vm_compute; discriminate.
Defined.

(** The stream of the specification's second example, with the speed key
    absent where the speed is 0: speeds 15, 8, [missing], 5, 12, six seconds
    apart.  The three middle rows form one stop segment; with a measured
    speed of 3 in place of the absent key, none does. *)
Lemma missing_speed_makes_a_stop :
  let capture v :=
    capture_of (map (fun '(t, x) => plain_sample (Value t) x)
                    [(0, Value 15%float); (6000, Value 8%float); (12000, v);
                     (18000, Value 5%float); (24000, Value 12%float)]) in
  map stop_segment
      (identify_rows 10%float (fst (Parser.process_json_file (capture Missing))))
  = [0; 1; 1; 1; 0]
  /\ map stop_segment
         (identify_rows 10%float
            (fst (Parser.process_json_file (capture (Value 3%float)))))
     = [0; 0; 0; 0; 0].
Proof. split; reflexivity. Qed.

End DetectorExamples.

(* ================================================================== *)
(** * Properties of the label propagation *)

Section LabelFacts.
Import Detector Reconciler.

(** The segment an event row labels, if any: for a boarding event that of
    the last stopped row strictly before it, for an alighting event that of
    the first stopped row strictly after it, provided its id is positive. *)
Definition target (df : list LabRow) (event : LabRow) : option Z :=
  let found :=
    if event_type (ev event) =? 1 then last_stop_segment df (lab_ts event)
    else if event_type (ev event) =? 2 then next_stop_segment df (lab_ts event)
    else None in
  match found with
  | Some segment => if 0 <? segment then Some segment else None
  | None => None
  end.

(** The label a segment ends with when the events are processed in order:
    each event that targets the segment overwrites the label. *)
Definition final_label (df : list LabRow) (events : list LabRow)
    (segment : Z) (initial : Z) : Z :=
  fold_left
    (fun l event =>
       match target df event with
       | Some segment' => if segment =? segment' then event_type (ev event) else l
       | None => l
       end)
    events initial.

Lemma label_event_target df event :
  label_event df event
  = match target df event with
    | Some segment => label_segment segment (event_type (ev event)) df
    | None => df
    end.
Proof.
  unfold label_event, target. cbv zeta.
  destruct (Z.eqb_spec (event_type (ev event)) 1) as [-> | H1].
  - destruct (last_stop_segment df (lab_ts event)) as [sg|]; [|reflexivity].
    now destruct (0 <? sg).
  - destruct (Z.eqb_spec (event_type (ev event)) 2) as [-> | H2]; [|reflexivity].
    destruct (next_stop_segment df (lab_ts event)) as [sg|]; [|reflexivity].
    now destruct (0 <? sg).
Qed.

Lemma target_event_type df event segment :
  target df event = Some segment ->
  0 < segment
  /\ ((event_type (ev event) = 1
       /\ last_stop_segment df (lab_ts event) = Some segment)
      \/ (event_type (ev event) = 2
          /\ next_stop_segment df (lab_ts event) = Some segment)).
Proof.
  unfold target. cbv zeta.
  destruct (Z.eqb_spec (event_type (ev event)) 1) as [E1 | H1].
  - destruct (last_stop_segment df (lab_ts event)) as [sg|]; [|discriminate].
    destruct (Z.ltb_spec 0 sg); [|discriminate].
    intros Hsg; injection Hsg as <-. auto.
  - destruct (Z.eqb_spec (event_type (ev event)) 2) as [E2 | H2]; [|discriminate].
    destruct (next_stop_segment df (lab_ts event)) as [sg|]; [|discriminate].
    destruct (Z.ltb_spec 0 sg); [|discriminate].
    intros Hsg; injection Hsg as <-. auto.
Qed.

Lemma map_ev_filter (p : EvRow -> bool) (df : list LabRow) :
  map ev (filter (fun r => p (ev r)) df) = filter p (map ev df).
Proof.
  induction df as [|r df IH]; cbn; [reflexivity|].
  destruct (p (ev r)); cbn; now rewrite IH.
Qed.

Lemma hd_error_map {A B : Type} (f : A -> B) (l : list A) :
  hd_error (map f l) = option_map f (hd_error l).
Proof. now destruct l. Qed.

(** The two searches read the rows' data only, not their labels. *)
Lemma last_stop_segment_ev df event_time :
  last_stop_segment df event_time
  = option_map (fun r => stop_segment (seg r))
      (hd_error (rev (filter (fun r => is_stopped (seg r) =? 1)
                        (filter (fun r => ev_ts r <? event_time) (map ev df))))).
Proof.
  unfold last_stop_segment.
  rewrite <- (map_ev_filter (fun r => ev_ts r <? event_time)).
  rewrite <- (map_ev_filter (fun r => is_stopped (seg r) =? 1)).
  rewrite <- map_rev, hd_error_map.
  now destruct (hd_error _).
Qed.

Lemma next_stop_segment_ev df event_time :
  next_stop_segment df event_time
  = option_map (fun r => stop_segment (seg r))
      (hd_error (filter (fun r => is_stopped (seg r) =? 1)
                   (filter (fun r => event_time <? ev_ts r) (map ev df)))).
Proof.
  unfold next_stop_segment.
  rewrite <- (map_ev_filter (fun r => event_time <? ev_ts r)).
  rewrite <- (map_ev_filter (fun r => is_stopped (seg r) =? 1)).
  rewrite hd_error_map.
  now destruct (hd_error _).
Qed.

Lemma target_ev df df' event :
  map ev df = map ev df' -> target df event = target df' event.
Proof.
  intros H. unfold target.
  now rewrite !last_stop_segment_ev, !next_stop_segment_ev, H.
Qed.

Lemma label_segment_ev segment v df :
  map ev (label_segment segment v df) = map ev df.
Proof.
  unfold label_segment. rewrite map_map. apply map_ext.
  intros r. now destruct (lab_segment r =? segment).
Qed.

Lemma label_event_ev df event : map ev (label_event df event) = map ev df.
Proof.
  rewrite label_event_target. destruct (target df event); [|reflexivity].
  apply label_segment_ev.
Qed.

Lemma label_segment_nth segment v df j r :
  nth_error df j = Some r ->
  nth_error (label_segment segment v df) j
  = Some (mkLabRow (ev r) (if lab_segment r =? segment then v else label r)).
Proof.
  intros H. unfold label_segment. rewrite nth_error_map, H. cbn.
  destruct (lab_segment r =? segment); [reflexivity | now destruct r].
Qed.

(** The frame after the event loop, row by row. *)
Lemma label_fold_nth df0 events : forall df j r,
  map ev df = map ev df0 ->
  nth_error df j = Some r ->
  nth_error (fold_left label_event events df) j
  = Some (mkLabRow (ev r) (final_label df0 events (lab_segment r) (label r))).
Proof.
  induction events as [|event events IH]; intros df j r Hev Hj.
  - cbn. rewrite Hj. now destruct r.
  - cbn [fold_left]. unfold final_label. cbn [fold_left].
    fold (final_label df0 events (lab_segment r)).
    rewrite <- (target_ev df df0 event Hev).
    assert (Hev' : map ev (label_event df event) = map ev df0)
      by now rewrite label_event_ev.
    rewrite label_event_target in *.
    destruct (target df event) as [sg|].
    + rewrite (IH _ j _ Hev' (label_segment_nth sg _ df j r Hj)).
      unfold lab_segment at 1 2. cbn [ev label].
      fold (lab_segment r).
      reflexivity.
    + now apply IH.
Qed.



End LabelFacts.

Section LabelTheorems.
Import Detector Reconciler.
Context {sorter : SortValues}.

(** The frame the event loop starts from, and its event rows. *)
Definition labelled0 (rows : list EvRow) : list LabRow :=
  sort_values lab_ts (map (fun r => mkLabRow r 0) rows).

Definition event_rows (rows : list EvRow) : list LabRow :=
  filter (fun r => 0 <? event_type (ev r)) (labelled0 rows).

Lemma label_rows_nth rows j r :
  nth_error (labelled0 rows) j = Some r ->
  nth_error (label_rows rows) j
  = Some (mkLabRow (ev r)
            (final_label (labelled0 rows) (event_rows rows) (lab_segment r) 0)).
Proof.
  intros Hj. unfold label_rows. fold (labelled0 rows). fold (event_rows rows).
  rewrite (label_fold_nth (labelled0 rows) (event_rows rows) _ j r eq_refl Hj).
  assert (Hl : label r = 0).
  { apply nth_error_In in Hj. unfold labelled0 in Hj.
    apply sort_values_In in Hj. apply in_map_iff in Hj as (x & <- & _). reflexivity. }
  now rewrite Hl.
Qed.

Lemma label_rows_length rows : length (label_rows rows) = length rows.
Proof.
  unfold label_rows. fold (labelled0 rows). fold (event_rows rows).
  transitivity (length (map ev (fold_left label_event (event_rows rows) (labelled0 rows)))).
  { now rewrite length_map. }
  assert (H : forall events df, map ev (fold_left label_event events df) = map ev df).
  { induction events as [|e events IH]; intros df; [reflexivity|].
    cbn [fold_left]. now rewrite IH, label_event_ev. }
  rewrite H, length_map. unfold labelled0.
  now rewrite sort_values_length, length_map.
Qed.

Lemma label_rows_In rows r :
  In r (label_rows rows) ->
  exists r0, In r0 (labelled0 rows) /\ ev r = ev r0
             /\ label r = final_label (labelled0 rows) (event_rows rows) (lab_segment r) 0.
Proof.
  intros Hin. apply In_nth_error in Hin as (j & Hj).
  assert (Hlen : (j < length (labelled0 rows))%nat).
  { unfold labelled0. rewrite sort_values_length, length_map, <- label_rows_length.
    apply nth_error_Some. now rewrite Hj. }
  destruct (nth_error (labelled0 rows) j) as [r0|] eqn:E0;
    [|apply nth_error_None in E0; lia].
  exists r0. split; [eapply nth_error_In; eauto|].
  rewrite (label_rows_nth rows j r0 E0) in Hj. injection Hj as <-.
  split; reflexivity.
Qed.





End LabelTheorems.

Section LabelExamples.
Import Detector Reconciler.

(** Two stops of 15 s, the first from 0 s and the second from 100 s, each
    followed by a row at speed 30. *)
Definition two_stops : list BaseRow :=
  map (fun '(t, v) => mkBaseRow t v 0%float 0%float 0 0)
      [(0, 0%float); (5000, 0%float); (10000, 0%float); (15000, 0%float);
       (20000, 30%float);
       (100000, 0%float); (105000, 0%float); (110000, 0%float); (115000, 0%float);
       (120000, 30%float)].

(** [two_stops] with its segments, and a change flag of 1 at 110 s, inside
    the second stop. *)
Definition boarding_in_second_stop : list EvRow :=
  apply_event_rows (identify_rows 10%float two_stops)
                   [mkStatusEvent 110000 (IntCell 0) (IntCell 1)].

Definition lab_row0 : LabRow := mkLabRow (mkEvRow row0 None NaN NaN "" 0) 0.




End LabelExamples.

(* ================================================================== *)
(** * Further properties of the Record Parser *)

Section ParserMore.
Import Parser.

(** X1: A capture is parsed as a whole or not at all.  When the sample list is
    present and not empty, the capture's date matches its format and, for
    every sample, the offset and the five scalars convert and the offset
    and the timestamp of the last sub-sample are milliseconds a
    [pd.Timestamp] can hold, the base frame has one row per sample, in
    sample order, at the samples' offsets, and the acceleration frame has as
    many rows as the samples' lengths add up to, at least one per sample.
    In every other case both frames are empty. *)
Theorem process_json_file_all_or_nothing :
  forall data,
    let base_rows := fst (process_json_file data) in
    let accel_rows := snd (process_json_file data) in
    let parses :=
      match Capture.data data with
      | Some records =>
          negb (length records =? 0)%nat
          && forallb (record_converts (Capture.recordDateTime data)) records
      | None => false
      end in
    (parses = true ->
     exists records,
       Capture.data data = Some records
       /\ base_rows = map base_row_of records
       /\ map timestamp base_rows = map offset_of records
       /\ length base_rows = length records
       /\ length accel_rows = total_length records
       /\ (length base_rows <= length accel_rows)%nat
       /\ (0 < length base_rows)%nat)
    /\ (parses = false -> base_rows = [] /\ accel_rows = []).
Proof.
  intros data. cbv zeta.
  destruct (Capture.data data) as [records|] eqn:Hdata;
    [|unfold process_json_file; rewrite Hdata; split; [discriminate | auto]].
  destruct records as [|r rest];
    [unfold process_json_file; rewrite Hdata; split; [discriminate | auto]|].
  cbn [length Nat.eqb negb andb].
  destruct (forallb _ (r :: rest)) eqn:Hall.
  - split; [intros _|discriminate].
    rewrite (process_json_file_parses data (r :: rest) Hdata ltac:(discriminate) Hall).
    cbn [fst snd]. exists (r :: rest).
    split; [reflexivity|]. split; [reflexivity|]. split.
    { rewrite map_map. apply map_ext. intros x. unfold base_row_of.
      now destruct (blinkers _ _). }
    split; [apply length_map|]. split; [apply flat_map_accel_length|]. split.
    + rewrite length_map, flat_map_accel_length. apply total_length_ge.
    + cbn. lia.
  - split; [discriminate|intros _]. unfold process_json_file. rewrite Hdata.
    now rewrite (process_records_one_fails _ _ Hall [] []).
Qed.

Lemma process_json_file_witness :
  fst (process_json_file
         (capture_of [plain_sample (Value 0) (Value 5%float);
                      plain_sample Malformed (Value 5%float)])) = []
  /\ snd (process_json_file
            (capture_of [plain_sample (Value 0) (Value 5%float);
                         plain_sample Malformed (Value 5%float)])) = [].
Proof.
  exact (proj2 (process_json_file_all_or_nothing
                  (capture_of [plain_sample (Value 0) (Value 5%float);
                               plain_sample Malformed (Value 5%float)]))
               eq_refl).
Defined.

(** X2: A capture without a usable [recordDateTime] gives no rows although the
    date parsed from it is never used: every sample list that is not empty
    is lost with it. *)
Theorem missing_record_date_empties_capture :
  forall data,
    Capture.recordDateTime data = Missing
    \/ Capture.recordDateTime data = Malformed ->
    process_json_file data = ([], []).
Proof.
  intros data Hdate. unfold process_json_file.
  destruct (Capture.data data) as [[|r rest]|]; try reflexivity.
  rewrite process_records_one_fails; [reflexivity|].
  cbn [forallb]. unfold record_converts.
  destruct Hdate as [-> | ->]; reflexivity.
Qed.

Lemma missing_record_date_witness :
  process_json_file
    (Capture.mk "353000000000001" Missing
                (Some [plain_sample (Value 1000) (Value 5%float)])) = ([], []).
Proof.
  exact (missing_record_date_empties_capture
           (Capture.mk "353000000000001" Missing
                       (Some [plain_sample (Value 1000) (Value 5%float)]))
           (or_introl eq_refl)).
Defined.

(** X3: The two blinker flags share one [try]: when either blinker array does
    not decode, the base row has both flags at 0, whatever the other array
    holds, and the sample is still emitted.  When both decode, a flag is 1
    exactly when its array's sum is not 0. *)
Theorem blinkers_fail_together :
  forall record_datetime record base_row rows,
    process_record record_datetime record = Some (base_row, rows) ->
    (right_blinker base_row = 0 \/ right_blinker base_row = 1)
    /\ (left_blinker base_row = 0 \/ left_blinker base_row = 1)
    /\ (Sample.vehicleInformationRightBlinker record = Malformed
        \/ Sample.vehicleInformationLeftBlinker record = Malformed ->
        right_blinker base_row = 0 /\ left_blinker base_row = 0)
    /\ (forall right left,
          convert (Sample.vehicleInformationRightBlinker record) [0] = Some right ->
          convert (Sample.vehicleInformationLeftBlinker record) [0] = Some left ->
          (right_blinker base_row = 1 <-> sum right <> 0)
          /\ (left_blinker base_row = 1 <-> sum left <> 0)).
Proof.
  intros rd record b rows H.
  assert (Hb : (right_blinker b, left_blinker b)
               = blinkers (Sample.vehicleInformationRightBlinker record)
                          (Sample.vehicleInformationLeftBlinker record)).
  { now apply process_record_inv in H as (_ & _ & Hb & _). }
  unfold blinkers in Hb.
  destruct (Sample.vehicleInformationRightBlinker record) as [|right|];
    destruct (Sample.vehicleInformationLeftBlinker record) as [|left|];
    cbn [convert] in Hb;
    repeat match type of Hb with
           | context [if ?c =? 0 then _ else _] => destruct (Z.eqb_spec c 0)
           end;
    injection Hb as -> ->;
    (split; [auto|]); (split; [auto|]);
    (split; [intros [Hm | Hm]; try discriminate; auto|]);
    intros right' left' Hr Hl; cbn [convert] in Hr, Hl; try discriminate;
    injection Hr as <-; injection Hl as <-;
    split; split; intros; try lia; try congruence; try reflexivity;
    try (exfalso; cbn in *; congruence).
Qed.

Lemma blinkers_fail_together_witness :
  right_blinker (mkBaseRow 1000 5%float 0%float 0%float 0 0) = 0
  /\ left_blinker (mkBaseRow 1000 5%float 0%float 0%float 0 0) = 0.
Proof.
  exact (proj1 (proj2 (proj2
    (blinkers_fail_together (Value 20240101000000)
       (Sample.mk (Value 1000) (Value 5%float) Missing Missing Missing Missing
                  Missing Missing (Value [1; 1; 1]) Malformed
                  Missing Missing Missing Missing)
       (mkBaseRow 1000 5%float 0%float 0%float 0 0)
       (accel_rows_of 1000 (plain_sample (Value 1000) (Value 5%float)))
       eq_refl))) (or_intror eq_refl)).
Defined.

End ParserMore.

(* ================================================================== *)
(** * Further properties of the Stop-Segment Detector *)

Section DetectorMore.
Import Detector.
Context {sorter : SortValues}.

Lemma identify_rows_length stop_speed_threshold rows :
  length (identify_rows stop_speed_threshold rows) = length rows.
Proof.
  unfold identify_rows. rewrite mark_fold_length, length_map.
  apply sort_values_length.
Qed.

(** Row [j] of the result: the [j]-th row in timestamp order, with the
    segment id the marking loop leaves on it. *)
Lemma identify_rows_nth stop_speed_threshold rows j b :
  nth_error (sort_values timestamp rows) j = Some b ->
  nth_error (identify_rows stop_speed_threshold rows) j
  = Some (let v := segment_of (scanned rows)
                     (find_low_speed_groups stop_speed_threshold (scanned rows)) 0 j in
          if v =? 0 then mkSegRow b 0 0 else mkSegRow b v 1).
Proof.
  intros Hb.
  destruct (find_low_speed_groups_sound stop_speed_threshold (scanned rows))
    as (Hchain & _ & _).
  unfold identify_rows. fold (scanned rows).
  rewrite (mark_fold_nth (scanned rows) _ 0%nat (length (scanned rows)) _ 0 j
             (mkSegRow b 0 0) Hchain (Z.le_refl 0)).
  - reflexivity.
  - unfold scanned. now rewrite nth_error_map, Hb.
Qed.

Lemma identify_rows_In stop_speed_threshold rows r :
  In r (identify_rows stop_speed_threshold rows) ->
  exists j b,
    nth_error (sort_values timestamp rows) j = Some b
    /\ nth_error (identify_rows stop_speed_threshold rows) j = Some r
    /\ base r = b.
Proof.
  intros Hin. apply In_nth_error in Hin as (j & Hj).
  assert (Hlen : (j < length (sort_values timestamp rows))%nat).
  { rewrite sort_values_length, <- (identify_rows_length stop_speed_threshold).
    apply nth_error_Some. now rewrite Hj. }
  destruct (nth_error (sort_values timestamp rows) j) as [b|] eqn:Eb;
    [|apply nth_error_None in Eb; lia].
  exists j, b. split; [exact Eb|]. split; [assumption|].
  rewrite (identify_rows_nth _ _ _ _ Eb) in Hj. injection Hj as <-.
  cbv zeta. now destruct (_ =? 0).
Qed.

Lemma count_qualifying_pos car_data groups k s e :
  nth_error groups k = Some (s, e) ->
  qualifies car_data s e = true ->
  (1 <= count_qualifying car_data (firstn (S k) groups))%nat.
Proof.
  intros Hk Hq. unfold count_qualifying.
  assert (Hmem : In (s, e) (filter (fun g => qualifies car_data (fst g) (snd g))
                                   (firstn (S k) groups))).
  { apply filter_In. split; [|exact Hq].
    apply nth_error_In with k. rewrite nth_error_firstn.
    destruct (Nat.ltb_spec k (S k)); [assumption | lia]. }
  destruct (filter _ _); [destruct Hmem | cbn; lia].
Qed.

Lemma count_qualifying_firstn_le car_data groups k :
  (count_qualifying car_data (firstn k groups) <= count_qualifying car_data groups)%nat.
Proof.
  unfold count_qualifying. revert k.
  induction groups as [|g gs IH]; intros k; destruct k; cbn [firstn filter length]; try lia.
  specialize (IH k). destruct (qualifies car_data (fst g) (snd g)); cbn [length]; lia.
Qed.

Lemma count_qualifying_cons car_data g groups :
  count_qualifying car_data (g :: groups)
  = ((if qualifies car_data (fst g) (snd g) then 1 else 0)
     + count_qualifying car_data groups)%nat.
Proof.
  unfold count_qualifying. cbn [filter].
  now destruct (qualifies car_data (fst g) (snd g)).
Qed.

(** Later qualifying groups get larger ids. *)
Lemma count_qualifying_increases car_data groups : forall k k' s e,
  (k < k')%nat ->
  nth_error groups k' = Some (s, e) ->
  qualifies car_data s e = true ->
  (count_qualifying car_data (firstn (S k) groups)
   < count_qualifying car_data (firstn (S k') groups))%nat.
Proof.
  induction groups as [|g gs IH]; intros k k' s e Hlt Hk' Hq.
  - destruct k'; discriminate.
  - destruct k' as [|k']; [lia|]. cbn [nth_error] in Hk'.
    change (firstn (S (S k')) (g :: gs)) with (g :: firstn (S k') gs).
    destruct k as [|k].
    + pose proof (count_qualifying_pos car_data gs k' s e Hk' Hq) as Hpos.
      change (firstn 1 (g :: gs)) with [g].
      rewrite !count_qualifying_cons. unfold count_qualifying at 1. cbn [filter length].
      lia.
    + change (firstn (S (S k)) (g :: gs)) with (g :: firstn (S k) gs).
      specialize (IH k k' s e ltac:(lia) Hk' Hq).
      rewrite !count_qualifying_cons. lia.
Qed.

(** A row with a segment id lies in a qualifying group, whose rank among
    the qualifying groups is the id. *)
Lemma segment_of_positive car_data groups : forall segment_id j,
  segment_of car_data groups segment_id j <> 0 ->
  exists k s e,
    nth_error groups k = Some (s, e)
    /\ (s <= j < e)%nat
    /\ qualifies car_data s e = true
    /\ segment_of car_data groups segment_id j
       = segment_id + Z.of_nat (count_qualifying car_data (firstn (S k) groups)).
Proof.
  induction groups as [|[s e] gs IH]; intros id j Hne; cbn [segment_of] in *;
    [congruence|].
  destruct (qualifies car_data s e) eqn:Eq.
  - destruct ((s <=? j)%nat && (j <? e)%nat) eqn:Ein.
    + exists 0%nat, s, e. apply andb_true_iff in Ein as (H1 & H2).
      apply Nat.leb_le in H1. apply Nat.ltb_lt in H2.
      split; [reflexivity|]. split; [lia|]. split; [assumption|].
      unfold count_qualifying. cbn [firstn filter fst snd]. rewrite Eq. cbn. lia.
    + destruct (IH (id + 1) j Hne) as (k & s' & e' & Hk & Hr & Hq & Hv).
      exists (S k), s', e'. split; [exact Hk|]. split; [assumption|].
      split; [assumption|]. rewrite Hv.
      change (firstn (S (S k)) ((s, e) :: gs)) with ((s, e) :: firstn (S k) gs).
      unfold count_qualifying. cbn [filter fst snd]. rewrite Eq. cbn [length].
      rewrite Nat2Z.inj_succ. lia.
  - destruct (IH id j Hne) as (k & s' & e' & Hk & Hr & Hq & Hv).
    exists (S k), s', e'. split; [exact Hk|]. split; [assumption|].
    split; [assumption|]. rewrite Hv.
    change (firstn (S (S k)) ((s, e) :: gs)) with ((s, e) :: firstn (S k) gs).
    unfold count_qualifying. cbn [filter fst snd]. now rewrite Eq.
Qed.

(** What a row of the result with a mark tells: its position lies in a
    qualifying group. *)
Lemma marked_row_in_group stop_speed_threshold rows j r :
  nth_error (identify_rows stop_speed_threshold rows) j = Some r ->
  stop_segment r <> 0 \/ is_stopped r <> 0 ->
  let groups := find_low_speed_groups stop_speed_threshold (scanned rows) in
  exists k s e,
    nth_error groups k = Some (s, e)
    /\ (s <= j < e)%nat
    /\ qualifies (scanned rows) s e = true
    /\ stop_segment r = Z.of_nat (count_qualifying (scanned rows) (firstn (S k) groups))
    /\ is_stopped r = 1.
Proof.
  intros Hj Hmark groups.
  assert (Hlen : (j < length (sort_values timestamp rows))%nat).
  { rewrite sort_values_length, <- (identify_rows_length stop_speed_threshold).
    apply nth_error_Some. now rewrite Hj. }
  destruct (nth_error (sort_values timestamp rows) j) as [b|] eqn:Eb;
    [|apply nth_error_None in Eb; lia].
  rewrite (identify_rows_nth _ _ _ _ Eb) in Hj. cbv zeta in Hj. fold groups in Hj.
  destruct (Z.eqb_spec (segment_of (scanned rows) groups 0 j) 0) as [E | Hne].
  - injection Hj as <-. cbn in Hmark. destruct Hmark; congruence.
  - injection Hj as <-. cbn [stop_segment is_stopped].
    destruct (segment_of_positive _ _ _ _ Hne) as (k & s & e & Hk & Hr & Hq & Hv).
    exists k, s, e. rewrite Hv. auto.
Qed.

Lemma identify_rows_base stop_speed_threshold rows :
  map base (identify_rows stop_speed_threshold rows) = sort_values timestamp rows.
Proof.
  apply nth_error_ext. intros j. rewrite nth_error_map.
  destruct (nth_error (sort_values timestamp rows) j) as [b|] eqn:Eb.
  - rewrite (identify_rows_nth _ _ _ _ Eb). cbv zeta.
    now destruct (_ =? 0).
  - apply nth_error_None in Eb.
    assert (Hn : nth_error (identify_rows stop_speed_threshold rows) j = None).
    { apply nth_error_None. rewrite identify_rows_length.
      now rewrite sort_values_length in Eb. }
    now rewrite Hn.
Qed.

(** X4: The result holds the input rows, each once, in ascending timestamp
    order: the detector adds its two columns and drops or repeats no row.
    The order among rows of equal timestamp is the sort's. *)
Theorem identify_keeps_rows :
  forall stop_speed_threshold rows,
    let out := identify_rows stop_speed_threshold rows in
    Permutation rows (map base out)
    /\ ascending timestamp (map base out)
    /\ length out = length rows
    /\ (forall b, In b rows <-> In b (map base out)).
Proof.
  intros thr rows out. unfold out. rewrite identify_rows_base.
  split; [apply sort_values_perm|]. split; [apply sort_values_ascending|].
  split; [apply identify_rows_length|].
  intros b. symmetry. apply sort_values_In.
Qed.

Lemma identify_rows_flag stop_speed_threshold rows r :
  In r (identify_rows stop_speed_threshold rows) ->
  (is_stopped r = 0 \/ is_stopped r = 1)
  /\ (is_stopped r = 1 <-> 0 < stop_segment r).
Proof.
  intros Hin. apply In_nth_error in Hin as (j & Hj).
  destruct (Z.eq_dec (stop_segment r) 0) as [E0 | Hne].
  - destruct (Z.eq_dec (is_stopped r) 0) as [E1 | Hne1].
    + rewrite E0, E1. split; [now left | split; lia].
    + destruct (marked_row_in_group _ _ _ _ Hj (or_intror Hne1))
        as (k & s & e & Hk & _ & Hq & Hv & _).
      pose proof (count_qualifying_pos _ _ _ _ _ Hk Hq). lia.
  - destruct (marked_row_in_group _ _ _ _ Hj (or_introl Hne))
      as (k & s & e & Hk & _ & Hq & Hv & Hs).
    pose proof (count_qualifying_pos _ _ _ _ _ Hk Hq).
    rewrite Hs. split; [now right | split; lia].
Qed.

(** X5: The two columns agree on every row: [is_stopped] is 0 or 1, it is 1
    exactly when [stop_segment] is positive, and the ids used are 1 up to
    the number of qualifying groups. *)
Theorem stopped_flag_matches_segment :
  forall stop_speed_threshold rows r,
    In r (identify_rows stop_speed_threshold rows) ->
    (is_stopped r = 1 <-> 0 < stop_segment r)
    /\ (is_stopped r = 0 <-> stop_segment r = 0)
    /\ (is_stopped r = 0 \/ is_stopped r = 1)
    /\ 0 <= stop_segment r
       <= Z.of_nat (count_qualifying (scanned rows)
                      (find_low_speed_groups stop_speed_threshold (scanned rows))).
Proof.
  intros thr rows r Hin.
  apply In_nth_error in Hin as (j & Hj).
  destruct (Z.eq_dec (stop_segment r) 0) as [E0 | Hne].
  - destruct (Z.eq_dec (is_stopped r) 0) as [E1 | Hne1].
    + rewrite E0, E1. repeat split; try lia; auto.
    + destruct (marked_row_in_group _ _ _ _ Hj (or_intror Hne1))
        as (k & s & e & Hk & _ & Hq & Hv & _).
      pose proof (count_qualifying_pos _ _ _ _ _ Hk Hq). lia.
  - destruct (marked_row_in_group _ _ _ _ Hj (or_introl Hne))
      as (k & s & e & Hk & _ & Hq & Hv & Hs).
    pose proof (count_qualifying_pos _ _ _ _ _ Hk Hq).
    pose proof (count_qualifying_firstn_le (scanned rows)
                  (find_low_speed_groups thr (scanned rows)) (S k)).
    rewrite Hs. repeat split; try lia; auto.
Qed.

Lemma iloc_slice_length {A : Type} (l : list A) s e :
  (length (iloc_slice l s e) <= e - s)%nat.
Proof. unfold iloc_slice. rewrite length_firstn. lia. Qed.

Lemma iloc_slice_index {A : Type} (l : list A) s e x :
  In x (iloc_slice l s e) ->
  exists i, (s <= i < e)%nat /\ nth_error l i = Some x.
Proof.
  unfold iloc_slice. intros Hin. apply In_nth_error in Hin as (i & Hi).
  rewrite nth_error_firstn in Hi.
  destruct (Nat.ltb_spec i (e - s)); [|discriminate].
  rewrite nth_error_skipn in Hi. exists (s + i)%nat. split; [lia | assumption].
Qed.

Lemma scanned_In rows x : In x (scanned rows) -> In (base x) rows.
Proof.
  unfold scanned. intros Hin. apply in_map_iff in Hin as (b & <- & Hb).
  cbn [base]. now apply sort_values_In in Hb.
Qed.

Lemma last_In {A : Type} (l : list A) d : l <> [] -> In (last l d) l.
Proof.
  induction l as [|x l IH]; intros Hne; [congruence|].
  destruct l as [|y l]; [now left|].
  right. apply IH. discriminate.
Qed.

(** Where no candidate interval qualifies, no row is marked. *)
Lemma unmarked_when_none_qualifies stop_speed_threshold rows :
  (forall s e, candidate stop_speed_threshold (scanned rows) s e ->
               qualifies (scanned rows) s e = false) ->
  forall r, In r (identify_rows stop_speed_threshold rows) ->
            stop_segment r = 0 /\ is_stopped r = 0.
Proof.
  intros Hnone r Hin. apply In_nth_error in Hin as (j & Hj).
  assert (Hno : ~ (stop_segment r <> 0 \/ is_stopped r <> 0)).
  { intros Hmark.
    destruct (marked_row_in_group _ _ _ _ Hj Hmark) as (k & s & e & Hk & _ & Hq & _).
    apply nth_error_In in Hk. apply find_low_speed_groups_complete in Hk.
    rewrite (Hnone s e Hk) in Hq. discriminate. }
  split.
  - destruct (Z.eq_dec (stop_segment r) 0); [assumption | exfalso; auto].
  - destruct (Z.eq_dec (is_stopped r) 0); [assumption | exfalso; auto].
Qed.

(** X6: Every stop segment is one block of consecutive rows: a marked row is a
    low-speed row inside a qualifying candidate interval of at least two
    rows, every row of that interval carries the row's segment id, and no
    row outside it does. *)
Theorem stop_segments_are_blocks :
  forall stop_speed_threshold rows j r,
    let out := identify_rows stop_speed_threshold rows in
    nth_error out j = Some r ->
    0 < stop_segment r ->
    is_low_speed stop_speed_threshold r = true
    /\ exists s e,
         (s <= j < e)%nat
         /\ (s + 2 <= e)%nat
         /\ candidate stop_speed_threshold (scanned rows) s e
         /\ qualifies (scanned rows) s e = true
         /\ forall i ri,
              nth_error out i = Some ri ->
              (stop_segment ri = stop_segment r <-> (s <= i < e)%nat).
Proof.
  intros thr rows j r out Hj Hpos.
  assert (Hne : stop_segment r <> 0) by lia.
  destruct (marked_row_in_group _ _ _ _ Hj (or_introl Hne))
    as (k & s & e & Hk & Hr & Hq & Hv & _).
  destruct (find_low_speed_groups_sound thr (scanned rows)) as (Hchain & _ & _).
  assert (Hcand : candidate thr (scanned rows) s e).
  { apply find_low_speed_groups_complete. eapply nth_error_In; eauto. }
  split.
  - destruct Hcand as (_ & (Hlow & _) & _). specialize (Hlow j Hr). unfold low in Hlow.
    assert (Hin : In r out) by (eapply nth_error_In; eauto).
    apply identify_rows_In in Hin as (j' & b & Hb & Hj' & Hbase).
    assert (Hbj : nth_error (sort_values timestamp rows) j = Some (base r)).
    { rewrite <- (identify_rows_base thr rows), nth_error_map. fold out.
      now rewrite Hj. }
    assert (Hn : nth j (scanned rows) row0 = mkSegRow (base r) 0 0).
    { apply nth_error_nth. unfold scanned. now rewrite nth_error_map, Hbj. }
    rewrite Hn in Hlow. exact Hlow.
  - exists s, e. split; [assumption|]. split.
    { unfold qualifies in Hq. cbv zeta in Hq.
      apply andb_true_iff in Hq as (_ & Hlen). apply Nat.leb_le in Hlen.
      pose proof (iloc_slice_length (scanned rows) s e). lia. }
    split; [assumption|]. split; [assumption|].
    intros i ri Hi. split.
    + intros Heq.
      assert (Hne' : stop_segment ri <> 0) by lia.
      destruct (marked_row_in_group _ _ _ _ Hi (or_introl Hne'))
        as (k' & s' & e' & Hk' & Hr' & Hq' & Hv' & _).
      assert (Hkk : k = k').
      { destruct (Nat.lt_trichotomy k k') as [Hlt | [E | Hlt]]; [|assumption|].
        - pose proof (count_qualifying_increases _ _ _ _ _ _ Hlt Hk' Hq'). lia.
        - pose proof (count_qualifying_increases _ _ _ _ _ _ Hlt Hk Hq). lia. }
      subst k'. rewrite Hk in Hk'. injection Hk' as <- <-. assumption.
    + intros Hrange.
      assert (Hlen : (i < length (sort_values timestamp rows))%nat).
      { rewrite sort_values_length, <- (identify_rows_length thr).
        apply nth_error_Some. fold out. now rewrite Hi. }
      destruct (nth_error (sort_values timestamp rows) i) as [b|] eqn:Eb;
        [|apply nth_error_None in Eb; lia].
      unfold out in Hi. rewrite (identify_rows_nth _ _ _ _ Eb) in Hi. cbv zeta in Hi.
      rewrite (segment_of_group _ _ 0%nat (length (scanned rows)) 0 k s e i Hchain Hk Hrange),
        Hq in Hi.
      pose proof (count_qualifying_pos _ _ _ _ _ Hk Hq) as Hc.
      destruct (Z.eqb_spec (0 + Z.of_nat (count_qualifying (scanned rows)
                  (firstn (S k) (find_low_speed_groups thr (scanned rows))))) 0);
        [lia|].
      injection Hi as <-. cbn [stop_segment]. rewrite Hv. apply Z.add_0_l.
Qed.

(** X7: A stream in which no two timestamps are 10 s apart has no stop: no row
    is marked, whatever the speeds. *)
Theorem short_stream_has_no_stop :
  forall stop_speed_threshold rows,
    (forall a b, In a rows -> In b rows -> timestamp b - timestamp a < 10000) ->
    forall r, In r (identify_rows stop_speed_threshold rows) ->
              stop_segment r = 0 /\ is_stopped r = 0.
Proof.
  intros thr rows Hshort. apply unmarked_when_none_qualifies.
  intros s e _. unfold qualifies. cbv zeta.
  destruct (Nat.leb_spec 2 (length (iloc_slice (scanned rows) s e))) as [Hlen|];
    [|apply andb_false_r].
  assert (Hne : iloc_slice (scanned rows) s e <> []).
  { intros E. rewrite E in Hlen. cbn in Hlen. lia. }
  assert (Hlast : In (base (last (iloc_slice (scanned rows) s e) row0)) rows).
  { apply scanned_In. apply (last_In _ row0) in Hne.
    apply iloc_slice_index in Hne as (i & _ & Hi). eapply nth_error_In; eauto. }
  assert (Hhd : In (base (hd row0 (iloc_slice (scanned rows) s e))) rows).
  { apply scanned_In. destruct (iloc_slice (scanned rows) s e) as [|x l] eqn:E;
      [congruence|]. cbn [hd].
    assert (Hx : In x (iloc_slice (scanned rows) s e)) by (rewrite E; now left).
    apply iloc_slice_index in Hx as (i & _ & Hi). eapply nth_error_In; eauto. }
  specialize (Hshort _ _ Hhd Hlast). unfold time_diff, ts.
  destruct (Z.leb_spec 10000
              (timestamp (base (last (iloc_slice (scanned rows) s e) row0))
               - timestamp (base (hd row0 (iloc_slice (scanned rows) s e)))));
    [lia | reflexivity].
Qed.

(** X8: A stream without a sample at speed exactly 0 has no stop, however long
    it stays below the threshold. *)
Theorem no_zero_speed_no_stop :
  forall stop_speed_threshold rows,
    (forall b, In b rows -> PrimFloat.eqb (speed b) 0%float = false) ->
    forall r, In r (identify_rows stop_speed_threshold rows) ->
              stop_segment r = 0 /\ is_stopped r = 0.
Proof.
  intros thr rows Hnz. apply unmarked_when_none_qualifies.
  intros s e _. unfold qualifies. cbv zeta.
  destruct (existsb is_zero_speed (iloc_slice (scanned rows) s e)) eqn:Ez;
    [|now rewrite andb_false_r].
  apply existsb_exists in Ez as (x & Hx & Hz).
  apply iloc_slice_index in Hx as (i & _ & Hi). apply nth_error_In in Hi.
  apply scanned_In in Hi. unfold is_zero_speed in Hz.
  rewrite (Hnz _ Hi) in Hz. discriminate.
Qed.

(** [speed == 0] and [speed < threshold] on a zero: a speed that compares
    equal to 0 compares with the threshold as 0 does. *)
Lemma zero_speed_compares_as_zero (x threshold : float) :
  PrimFloat.eqb x 0%float = true ->
  PrimFloat.ltb x threshold = PrimFloat.ltb 0%float threshold.
Proof.
  rewrite FloatAxioms.eqb_spec, !FloatAxioms.ltb_spec.
  change (Prim2SF 0%float) with (S754_zero false).
  unfold SFeqb, SFltb.
  destruct (Prim2SF x) as [s| s | | s m e]; cbn [SFcompare];
    try discriminate; try (destruct s; discriminate).
  intros _. now destruct (Prim2SF threshold).
Qed.

(** X9: With a threshold that is not above 0 (0, a negative number or NaN) the
    detector marks nothing: a row at speed 0 is then never a low-speed row,
    so no low-speed run holds the zero-speed instant a stop needs. *)
Theorem threshold_not_above_zero_marks_nothing :
  forall stop_speed_threshold rows,
    PrimFloat.ltb 0%float stop_speed_threshold = false ->
    forall r, In r (identify_rows stop_speed_threshold rows) ->
              stop_segment r = 0 /\ is_stopped r = 0.
Proof.
  intros thr rows Hthr. apply unmarked_when_none_qualifies.
  intros s e (_ & (Hlow & _) & _). unfold qualifies. cbv zeta.
  destruct (existsb is_zero_speed (iloc_slice (scanned rows) s e)) eqn:Ez;
    [|now rewrite andb_false_r].
  apply existsb_exists in Ez as (x & Hx & Hz).
  apply iloc_slice_index in Hx as (i & Hi & Hx).
  specialize (Hlow i Hi). unfold low in Hlow.
  rewrite (nth_error_nth _ _ row0 Hx) in Hlow.
  unfold is_low_speed in Hlow. unfold is_zero_speed in Hz.
  rewrite (zero_speed_compares_as_zero _ thr Hz), Hthr in Hlow. discriminate.
Qed.


End DetectorMore.

Section DetectorMoreExamples.
Import Detector.

Lemma stopped_flag_matches_witness :
  is_stopped (mkSegRow (mkBaseRow 12000 0%float 0%float 0%float 0 0) 1 1) = 0
  \/ is_stopped (mkSegRow (mkBaseRow 12000 0%float 0%float 0%float 0 0) 1 1) = 1.
Proof.
  refine (proj1 (proj2 (proj2
            (stopped_flag_matches_segment 10%float (map base gap70_data)
               (mkSegRow (mkBaseRow 12000 0%float 0%float 0%float 0 0) 1 1) _)))).
  vm_compute. right. right. left. reflexivity.
Defined.

Lemma stop_segments_are_blocks_witness :
  is_low_speed 10%float (mkSegRow (mkBaseRow 12000 0%float 0%float 0%float 0 0) 1 1) = true.
Proof.
  exact (proj1 (stop_segments_are_blocks 10%float (map base gap70_data) 2%nat
                  (mkSegRow (mkBaseRow 12000 0%float 0%float 0%float 0 0) 1 1)
                  eq_refl eq_refl)).
Defined.

Lemma short_stream_witness :
  stop_segment (mkSegRow (mkBaseRow 2000 0%float 0%float 0%float 0 0) 0 0) = 0
  /\ is_stopped (mkSegRow (mkBaseRow 2000 0%float 0%float 0%float 0 0) 0 0) = 0.
Proof.
  apply (short_stream_has_no_stop 10%float (at_rate 1000 [15; 8; 0; 5; 12]%float)).
  - intros a b Ha Hb. cbn in Ha, Hb.
    repeat (destruct Ha as [<- | Ha]); try destruct Ha;
      repeat (destruct Hb as [<- | Hb]); try destruct Hb; cbn; lia.
  - vm_compute. right. right. left. reflexivity.
Defined.

Lemma no_zero_speed_witness :
  stop_segment (mkSegRow (mkBaseRow 30000 5%float 0%float 0%float 0 0) 0 0) = 0
  /\ is_stopped (mkSegRow (mkBaseRow 30000 5%float 0%float 0%float 0 0) 0 0) = 0.
Proof.
  apply (no_zero_speed_no_stop 10%float (at_rate 30000 [5; 5; 5]%float)).
  - intros b Hb. cbn in Hb.
    repeat (destruct Hb as [<- | Hb]); try destruct Hb; reflexivity.
  - vm_compute. right. left. reflexivity.
Defined.

Lemma threshold_not_above_zero_witness :
  stop_segment (mkSegRow (mkBaseRow 5000 0%float 0%float 0%float 0 0) 0 0) = 0
  /\ is_stopped (mkSegRow (mkBaseRow 5000 0%float 0%float 0%float 0 0) 0 0) = 0.
Proof.
  apply (threshold_not_above_zero_marks_nothing 0%float
           (at_rate 5000 [0; 0; 0; 0]%float)).
  - reflexivity.
  - vm_compute. right. left. reflexivity.
Defined.



End DetectorMoreExamples.

(* ================================================================== *)
(** * Further properties of the raw event derivation *)

Section ReconcilerMore.
Import Detector Reconciler.
Context {sorter : SortValues}.

(** The number of log entries at a row's timestamp. *)
Definition matches (change_flag_df : list StatusEvent) (r : SegRow) : nat :=
  length (filter (fun e => log_time_stamp e =? ts r) change_flag_df).

(** A left join gives every left row once per matching entry, and once
    when nothing matches. *)
Definition copies (change_flag_df : list StatusEvent) (r : SegRow) : nat :=
  Nat.max 1 (matches change_flag_df r).

Lemma upcast_length d col : length (upcast d col) = length col.
Proof. unfold upcast. apply length_map. Qed.

Lemma shift1_length d col : length (shift1 d col) = length col.
Proof.
  unfold shift1. destruct d; rewrite ?length_map, length_firstn; cbn [length]; lia.
Qed.

Lemma status_change_column_length d status :
  length (status_change_column d status) = length status.
Proof.
  unfold status_change_column.
  rewrite length_map, length_combine, shift1_length. lia.
Qed.

(** The merged column is an object column exactly when the log's is. *)
Lemma merged_dtype_object d col : merged_dtype d col = Object <-> d = Object.
Proof. destruct d; cbn; [destruct (existsb is_float col)| |]; split; congruence. Qed.

(** A column without text is an object column only when it is empty. *)
Lemma dtype_of_object_no_text col :
  (forall c, In c col -> is_str c = false) -> dtype_of col = Object -> col = [].
Proof.
  intros H. destruct col as [|c col]; [reflexivity|]. unfold dtype_of.
  rewrite (existsb_none _ _ H). now destruct (existsb is_float (c :: col)).
Qed.

Lemma combine_fst {A B : Type} (l : list A) (col : list B) :
  length l = length col -> map fst (combine l col) = l.
Proof.
  revert col. induction l as [|x l IH]; intros [|c col] H; cbn in *;
    try reflexivity; try discriminate.
  f_equal. apply IH. lia.
Qed.

(** Replacing a column keeps the other columns of every row, in place. *)
Lemma replace_column_keeps {A B : Type} (set : EvRow -> A -> EvRow)
    (get : EvRow -> B) df col :
  length df = length col ->
  (forall r c, get (set r c) = get r) ->
  map get (replace_column set df col) = map get df.
Proof.
  intros Hlen Hget. unfold replace_column. rewrite map_map.
  rewrite <- (combine_fst df col Hlen) at 2. rewrite map_map.
  apply map_ext. intros [r c]. apply Hget.
Qed.

Lemma In_combine_map {A B : Type} (g : A -> B) (l : list A) x u :
  In (x, u) (combine l (map g l)) -> u = g x.
Proof.
  induction l as [|y l IH]; cbn; [intros []|].
  intros [H | H]; [injection H as <- <-; reflexivity | now apply IH].
Qed.

Lemma In_combine_upcast {A : Type} (f : A -> cell) d (l : list A) x u :
  In (x, u) (combine l (upcast d (map f l))) -> u = f x \/ u = to_float (f x).
Proof.
  unfold upcast. rewrite map_map. intros H.
  apply (In_combine_map (fun y => as_dtype _ (f y))) in H. subst u.
  destruct (merged_dtype d (map f l)); cbn [as_dtype]; auto.
Qed.

Lemma merge_row_length change_flag_df r :
  length (merge_row change_flag_df r) = copies change_flag_df r.
Proof.
  unfold merge_row, copies, matches.
  destruct (filter _ change_flag_df) as [|e l]; [reflexivity|].
  rewrite length_map. cbn [length]. lia.
Qed.

Lemma merge_row_seg change_flag_df r :
  map seg (merge_row change_flag_df r) = repeat r (copies change_flag_df r).
Proof.
  unfold merge_row, copies, matches.
  destruct (filter _ change_flag_df) as [|e l]; [reflexivity|].
  rewrite map_map. cbn [seg length].
  replace (Nat.max 1 (S (length l))) with (S (length l)) by lia.
  cbn [repeat map]. f_equal. induction l as [|e' l IH]; cbn; [reflexivity | now f_equal].
Qed.

Lemma merge_left_seg df change_flag_df :
  map seg (merge_left df change_flag_df)
  = flat_map (fun r => repeat r (copies change_flag_df r)) df.
Proof.
  unfold merge_left.
  rewrite (replace_column_keeps set_change_flag seg);
    [|rewrite upcast_length, length_map; reflexivity|now intros []].
  rewrite (replace_column_keeps set_status_management seg);
    [|rewrite upcast_length, length_map; reflexivity|now intros []].
  induction df as [|r df IH]; cbn [flat_map map]; [reflexivity|].
  now rewrite map_app, merge_row_seg, IH.
Qed.

(** The frame of [apply_event_labels], read column by column: the base
    columns are those of the sorted join. *)
Lemma apply_event_rows_seg df change_flag_df :
  map seg (apply_event_rows df change_flag_df)
  = map seg (sort_values ev_ts (merge_left df change_flag_df)).
Proof.
  unfold apply_event_rows, loc_event_type. cbv zeta. rewrite !map_map.
  set (joined := sort_values ev_ts (merge_left df change_flag_df)).
  set (codes := status_change_column _ (map status_management joined)).
  rewrite <- (replace_column_keeps set_status_change seg joined codes);
    [|unfold codes; rewrite status_change_column_length, length_map; reflexivity
     |now intros []].
  apply map_ext. intros r.
  simpl_masked_assignments.
  repeat match goal with
         | |- context [if ?b then set_event_type ?x ?v else ?x] =>
             replace (seg (if b then set_event_type x v else x)) with (seg x)
               by (destruct b; [now destruct x | reflexivity])
         end.
  now destruct r.
Qed.

Lemma flat_map_repeat_length {A : Type} (n : A -> nat) (l : list A) :
  length (flat_map (fun r => repeat r (n r)) l)
  = fold_right (fun r k => (n r + k)%nat) 0%nat l.
Proof.
  induction l as [|x l IH]; cbn [flat_map fold_right]; [reflexivity|].
  now rewrite length_app, repeat_length, IH.
Qed.

Lemma filter_key_unique (l : list StatusEvent) (t : Z) :
  NoDup (map log_time_stamp l) ->
  (length (filter (fun e => (log_time_stamp e =? t)%Z) l) <= 1)%nat.
Proof.
  induction l as [|e l IH]; intros Hnd; cbn [filter]; [cbn; lia|].
  inversion Hnd as [|? ? Hnot Hnd']; subst.
  destruct (Z.eqb_spec (log_time_stamp e) t) as [E | _]; [|now apply IH].
  assert (Hnil : filter (fun e' => log_time_stamp e' =? t) l = []).
  { destruct (filter (fun e' => log_time_stamp e' =? t) l) as [|e' l'] eqn:Ef;
      [reflexivity|].
    exfalso. apply Hnot.
    assert (Hin : In e' (filter (fun e' => log_time_stamp e' =? t) l))
      by (rewrite Ef; now left).
    apply filter_In in Hin as (Hin & Ht). apply Z.eqb_eq in Ht.
    apply in_map_iff. exists e'. split; [congruence | assumption]. }
  rewrite Hnil. cbn. lia.
Qed.

Lemma flat_map_repeat_once {A : Type} (n : A -> nat) (l : list A) :
  (forall r, In r l -> n r = 1%nat) ->
  flat_map (fun r => repeat r (n r)) l = l.
Proof.
  induction l as [|x l IH]; intros H; cbn [flat_map]; [reflexivity|].
  rewrite (H x (or_introl eq_refl)). cbn [repeat app]. f_equal.
  apply IH. intros r Hr. apply H. now right.
Qed.

Lemma apply_event_rows_seg_perm df change_flag_df :
  Permutation (map seg (apply_event_rows df change_flag_df))
              (flat_map (fun r => repeat r (copies change_flag_df r)) df).
Proof.
  rewrite apply_event_rows_seg, <- merge_left_seg.
  apply Permutation_map. symmetry. apply sort_values_perm.
Qed.

Lemma copies_positive change_flag_df r : exists n, copies change_flag_df r = S n.
Proof.
  unfold copies. destruct (matches change_flag_df r) as [|m];
    [exists 0%nat; reflexivity | exists m; lia].
Qed.

Lemma copies_unique change_flag_df r :
  NoDup (map log_time_stamp change_flag_df) -> copies change_flag_df r = 1%nat.
Proof.
  intros Hnd. unfold copies, matches.
  pose proof (filter_key_unique change_flag_df (ts r) Hnd). lia.
Qed.

Lemma In_repeated {A : Type} (n : A -> nat) (l : list A) x :
  (forall r, exists k, n r = S k) ->
  In x (flat_map (fun r => repeat r (n r)) l) <-> In x l.
Proof.
  intros Hn. rewrite in_flat_map. split.
  - intros (r & Hr & Hrep). apply repeat_spec in Hrep. now subst.
  - intros Hx. exists x. split; [assumption|].
    destruct (Hn x) as (k & ->). now left.
Qed.

Lemma apply_event_rows_seg_In df change_flag_df r :
  In r (map seg (apply_event_rows df change_flag_df)) <-> In r df.
Proof.
  rewrite <- (In_repeated (copies change_flag_df) df r (copies_positive change_flag_df)).
  split; apply Permutation_in;
    [|symmetry]; apply apply_event_rows_seg_perm.
Qed.

(** X10: The left join of [apply_event_labels] drops no base row and repeats a
    base row once per log entry at its timestamp: up to the sort, the base
    columns of the result are the base rows with these repetitions.  With a
    log that has no timestamp twice, the result has the base rows as they
    are, one each. *)
Theorem left_join_keeps_every_row :
  forall df change_flag_df,
    let out := apply_event_rows df change_flag_df in
    Permutation (map seg out)
                (flat_map (fun r => repeat r (copies change_flag_df r)) df)
    /\ length out
       = fold_right (fun r k => (copies change_flag_df r + k)%nat) 0%nat df
    /\ (length df <= length out)%nat
    /\ (forall r, In r df <-> In r (map seg out))
    /\ (NoDup (map log_time_stamp change_flag_df) ->
        Permutation (map seg out) df /\ length out = length df).
Proof.
  intros df log out.
  pose proof (apply_event_rows_seg_perm df log) as Hperm. fold out in Hperm.
  assert (Hlen : length out = fold_right (fun r k => (copies log r + k)%nat) 0%nat df).
  { rewrite <- (length_map seg out), (Permutation_length Hperm).
    apply flat_map_repeat_length. }
  split; [exact Hperm|]. split; [exact Hlen|]. split.
  { rewrite Hlen. clear. induction df as [|r df IH]; cbn [fold_right length]; [lia|].
    unfold copies at 1. lia. }
  split.
  { intros r. symmetry. apply apply_event_rows_seg_In. }
  intros Hnd.
  rewrite (flat_map_repeat_once _ _ (fun r _ => copies_unique log r Hnd)) in Hperm.
  split; [exact Hperm|].
  now rewrite <- (length_map seg out), (Permutation_length Hperm).
Qed.

Lemma nth_error_combine {A B : Type} (l : list A) (l' : list B) i :
  nth_error (combine l l') i
  = match nth_error l i, nth_error l' i with
    | Some a, Some b => Some (a, b)
    | _, _ => None
    end.
Proof.
  revert l' i. induction l as [|a l IH]; intros [|b l'] [|i]; cbn; try reflexivity.
  - now destruct (nth_error l i).
  - apply IH.
Qed.

Lemma to_float_eq_one c : eq_one (to_float c) = eq_one c.
Proof. now destruct c. Qed.

Lemma to_float_is_str c : is_str (to_float c) = is_str c.
Proof. now destruct c. Qed.

(** [shift(1)] gives the first row the missing value of the dtype. *)
Lemma shift1_head d status :
  status <> [] ->
  nth 0 (shift1 d status) NaN = match d with Object => NoneCell | _ => NaN end.
Proof.
  destruct status as [|x status]; [congruence|]. intros _.
  unfold shift1. cbn [length firstn]. now destruct d.
Qed.

(** In an object column, [shift(1)] moves every cell one row down
    unchanged. *)
Lemma shift1_object status i :
  (S i < length status)%nat ->
  nth (S i) (shift1 Object status) NaN = nth i status NaN.
Proof.
  intros Hi. unfold shift1.
  destruct status as [|x status]; [cbn in Hi; lia|].
  cbn [length firstn nth]. rewrite nth_firstn.
  cbn [length] in Hi. destruct (Nat.ltb_spec i (length status)); [reflexivity | lia].
Qed.

(** The cells [shift(1)] gives: the fill value or a cell of the column, as
    a float in a numeric column. *)
Lemma shift1_In d status prev :
  In prev (shift1 d status) ->
  match d with
  | Object => prev = NoneCell \/ In prev status
  | _ => exists c, prev = to_float c /\ (c = NaN \/ In c status)
  end.
Proof.
  unfold shift1. intros H. destruct d.
  - apply in_map_iff in H as (c & <- & Hc). exists c. split; [reflexivity|].
    apply In_firstn_cell in Hc. destruct Hc as [<- | Hc]; auto.
  - apply in_map_iff in H as (c & <- & Hc). exists c. split; [reflexivity|].
    apply In_firstn_cell in Hc. destruct Hc as [<- | Hc]; auto.
  - apply In_firstn_cell in H. destruct H as [<- | H]; auto.
Qed.

(** A row of the join: its base row is a row of the left frame, and its log
    columns are missing when no entry has the base row's timestamp, or those
    of an entry at that timestamp, a whole number possibly turned into a
    float by the dtype rule. *)
Lemma merge_left_row df change_flag_df r :
  In r (merge_left df change_flag_df) ->
  In (seg r) df
  /\ event_type r = 0
  /\ ((time_stamp r = None /\ status_management r = NaN /\ change_flag r = NaN
       /\ forall e, In e change_flag_df -> log_time_stamp e <> ts (seg r))
      \/ exists e,
           In e change_flag_df /\ log_time_stamp e = ts (seg r)
           /\ time_stamp r = Some (ts (seg r))
           /\ (status_management r = log_status_management e
               \/ status_management r = to_float (log_status_management e))
           /\ (change_flag r = log_change_flag e
               \/ change_flag r = to_float (log_change_flag e))).
Proof.
  unfold merge_left, replace_column. intros H.
  apply in_map_iff in H as ([x1 cf] & <- & H1).
  pose proof (in_combine_l _ _ _ _ H1) as Hx1.
  apply In_combine_upcast in H1.
  apply in_map_iff in Hx1 as ([x0 st] & <- & H0).
  pose proof (in_combine_l _ _ _ _ H0) as Hx0.
  apply In_combine_upcast in H0.
  cbn [set_change_flag set_status_management seg time_stamp status_management
       change_flag event_type] in *.
  apply in_flat_map in Hx0 as (b & Hb & Hx0). unfold merge_row in Hx0.
  destruct (filter _ change_flag_df) as [|e0 l] eqn:Ef.
  - destruct Hx0 as [<- | []]. cbn [seg time_stamp status_management change_flag
                                    event_type to_float] in *.
    split; [assumption|]. split; [reflexivity|]. left.
    split; [reflexivity|]. split; [destruct H0; assumption|].
    split; [destruct H1; assumption|].
    intros e He Heq.
    assert (Hin : In e (filter (fun e => log_time_stamp e =? ts b) change_flag_df)).
    { apply filter_In. split; [assumption | now apply Z.eqb_eq]. }
    rewrite Ef in Hin. destruct Hin.
  - apply in_map_iff in Hx0 as (e & <- & He). rewrite <- Ef in He.
    apply filter_In in He as (He & Ht). apply Z.eqb_eq in Ht.
    cbn [seg time_stamp status_management change_flag event_type] in *.
    split; [assumption|]. split; [reflexivity|]. right. exists e.
    split; [assumption|]. split; [assumption|]. split; [now rewrite Ht|].
    split; assumption.
Qed.

(** The event-type assignments change no other column of a row. *)
Lemma event_type_assignments_nth (m1 m2 m3 : EvRow -> bool) l i r :
  nth_error
    (loc_event_type m3 2
       (loc_event_type m2 1
          (loc_event_type m1 1 (map (fun r => set_event_type r 0) l)))) i = Some r ->
  exists x,
    nth_error l i = Some x
    /\ seg r = seg x /\ time_stamp r = time_stamp x
    /\ status_management r = status_management x
    /\ change_flag r = change_flag x /\ status_change r = status_change x.
Proof.
  unfold loc_event_type. rewrite !nth_error_map.
  destruct (nth_error l i) as [x|]; [|discriminate].
  cbn [option_map]. intros H. injection H as <-. exists x. split; [reflexivity|].
  destruct x as [sg t st cf code et]. unfold set_event_type at 1 2 3.
  cbn [seg time_stamp status_management change_flag status_change event_type].
  destruct (m1 _); unfold set_event_type at 1 2;
    cbn [seg time_stamp status_management change_flag status_change event_type];
    destruct (m2 _); unfold set_event_type;
    cbn [seg time_stamp status_management change_flag status_change event_type];
    destruct (m3 _); repeat split.
Qed.

(** A row of [apply_event_labels]'s result, by position: it is the row of the
    sorted join at that position with the transition code built from its own
    status cell followed by the shifted column's cell. *)
Lemma apply_event_rows_nth df change_flag_df i r :
  nth_error (apply_event_rows df change_flag_df) i = Some r ->
  let joined := sort_values ev_ts (merge_left df change_flag_df) in
  exists r1,
    nth_error joined i = Some r1
    /\ seg r = seg r1 /\ time_stamp r = time_stamp r1
    /\ status_management r = status_management r1
    /\ change_flag r = change_flag r1
    /\ status_change r
       = (zfill2 (astype_str (status_management r1))
          ++ zfill2 (astype_str
               (nth i (shift1 (merged_dtype
                                 (dtype_of (map log_status_management change_flag_df))
                                 (map status_management joined))
                              (map status_management joined)) NaN)))%string.
Proof.
  intros H joined. unfold apply_event_rows in H. cbv zeta in H. fold joined in H.
  apply event_type_assignments_nth in H
    as (x & Hx & Hseg & Hts & Hst & Hcf & Hcode).
  unfold replace_column in Hx. rewrite nth_error_map, nth_error_combine in Hx.
  destruct (nth_error joined i) as [r1|] eqn:E1; [|discriminate].
  unfold status_change_column in Hx.
  rewrite nth_error_map, nth_error_combine, nth_error_map, E1 in Hx.
  cbn [option_map] in Hx.
  destruct (nth_error (shift1 _ (map status_management joined)) i) as [prev|] eqn:Es;
    [|discriminate].
  cbn [option_map] in Hx. injection Hx as <-.
  exists r1. split; [reflexivity|].
  rewrite Hseg, Hts, Hst, Hcf, Hcode, (nth_error_nth _ _ NaN Es).
  destruct r1; repeat split.
Qed.

Lemma apply_event_rows_row df change_flag_df r :
  In r (apply_event_rows df change_flag_df) ->
  exists r1 prev,
    In r1 (merge_left df change_flag_df)
    /\ seg r = seg r1 /\ time_stamp r = time_stamp r1
    /\ status_management r = status_management r1
    /\ change_flag r = change_flag r1
    /\ status_change r
       = (zfill2 (astype_str (status_management r1)) ++ zfill2 (astype_str prev))%string.
Proof.
  intros H. apply In_nth_error in H as (i & Hi).
  destruct (apply_event_rows_nth _ _ _ _ Hi) as (r1 & H1 & Hrest).
  exists r1. eexists.
  split; [|exact Hrest].
  apply nth_error_In in H1. now apply sort_values_In in H1.
Qed.

(** X11: A base row whose timestamp is at no entry of the status log comes out of
    the join with missing log columns and carries no event.  Events can
    only arise on base rows whose millisecond timestamp is exactly that of
    a log entry. *)
Theorem unmatched_row_has_no_event :
  forall df change_flag_df r,
    In r (apply_event_rows df change_flag_df) ->
    (forall e, In e change_flag_df -> log_time_stamp e <> ts (seg r)) ->
    time_stamp r = None
    /\ status_management r = NaN
    /\ change_flag r = NaN
    /\ event_type r = 0.
Proof.
  intros df log r Hr Hno.
  pose proof (apply_event_rows_event_type _ _ _ Hr) as Hev.
  destruct (apply_event_rows_row _ _ _ Hr)
    as (r1 & prev & Hr1 & Hseg & Hts & Hst & Hcf & Hcode).
  destruct (merge_left_row _ _ _ Hr1) as (_ & _ & [Hmiss | Hhit]).
  - destruct Hmiss as (Ht & Hs & Hc & _).
    rewrite Hts, Hst, Hcf, Ht, Hs, Hc. repeat split.
    assert (Hnd : has_nondigit (status_change r) = true).
    { rewrite Hcode, Hs, has_nondigit_app, has_nondigit_zfill2. reflexivity. }
    destruct (code_with_nondigit_unmatched _ Hnd) as (Hon & Hoff).
    rewrite Hev, Hon, Hoff, Hcf, Hc. reflexivity.
  - destruct Hhit as (e & He & Het & _). exfalso.
    apply (Hno e He). now rewrite Hseg.
Qed.

(** X12: A result row at the timestamp of a log entry carries the values of an
    entry at exactly that timestamp: the join key it shows is its own
    timestamp, its change flag equals 1 exactly when the entry's does, and
    its status is the entry's, a whole number possibly as a float. *)
Theorem matched_row_carries_log_entry :
  forall df change_flag_df r t,
    In r (apply_event_rows df change_flag_df) ->
    time_stamp r = Some t ->
    t = ts (seg r)
    /\ exists e,
         In e change_flag_df
         /\ log_time_stamp e = t
         /\ (status_management r = log_status_management e
             \/ status_management r = to_float (log_status_management e))
         /\ eq_one (change_flag r) = eq_one (log_change_flag e).
Proof.
  intros df log r t Hr Ht.
  destruct (apply_event_rows_row _ _ _ Hr)
    as (r1 & prev & Hr1 & Hseg & Hts & Hst & Hcf & _).
  destruct (merge_left_row _ _ _ Hr1) as (_ & _ & [Hmiss | Hhit]).
  - destruct Hmiss as (Hnone & _). rewrite Hts, Hnone in Ht. discriminate.
  - destruct Hhit as (e & He & Het & Hsome & Hs & Hc).
    rewrite Hts, Hsome in Ht. injection Ht as <-. rewrite Hseg.
    split; [reflexivity|]. exists e. split; [assumption|]. split; [assumption|].
    rewrite Hst, Hcf. split; [assumption|].
    destruct Hc as [-> | ->]; [reflexivity | apply to_float_eq_one].
Qed.

(** X13: The first row in timestamp order has no row before it: [shift(1)]
    gives it the missing value of the column's dtype as previous status,
    [None] when the status column is an object column and [NaN] when it
    is numeric.  Its transition code is its own padded status followed by
    "None" or "nan", which is in neither code list, so its event comes from
    its change flag alone. *)
Theorem first_row_event_from_flag_only :
  forall df change_flag_df r,
    nth_error (apply_event_rows df change_flag_df) 0 = Some r ->
    status_change r
    = (zfill2 (astype_str (status_management r))
       ++ match dtype_of (map log_status_management change_flag_df) with
          | Object => "None"
          | Int64 | Float64 => "nan"
          end)%string
    /\ isin (status_change r) get_on_map = false
    /\ isin (status_change r) get_off_map = false
    /\ event_type r = flag_event (change_flag r).
Proof.
  intros df log r Hr.
  pose proof (apply_event_rows_event_type _ _ _ (nth_error_In _ _ Hr)) as Hev.
  destruct (apply_event_rows_nth _ _ _ _ Hr) as (r1 & Hr1 & _ & _ & Hst & _ & Hcode).
  rewrite shift1_head, <- Hst in Hcode
    by (intros Hnil; apply (f_equal (@length cell)) in Hnil;
        rewrite length_map in Hnil;
        destruct (sort_values ev_ts (merge_left df log)); [discriminate Hr1 | discriminate Hnil]).
  assert (Hfill : zfill2 (astype_str
                    match merged_dtype (dtype_of (map log_status_management log))
                            (map status_management (sort_values ev_ts (merge_left df log)))
                    with Object => NoneCell | _ => NaN end)
                  = match dtype_of (map log_status_management log) with
                    | Object => "None"
                    | Int64 | Float64 => "nan"
                    end%string).
  { destruct (dtype_of (map log_status_management log)); cbn [merged_dtype];
      [destruct (existsb is_float _)| |]; reflexivity. }
  rewrite Hfill in Hcode. clear Hfill.
  assert (Hnd : has_nondigit (status_change r) = true).
  { rewrite Hcode, has_nondigit_app.
    destruct (dtype_of (map log_status_management log)); apply orb_true_r. }
  destruct (code_with_nondigit_unmatched _ Hnd) as (Hon & Hoff).
  split; [assumption|]. split; [assumption|]. split; [assumption|].
  unfold flag_event. now rewrite Hev, Hon, Hoff.
Qed.

(** X14: On an object status column (a log whose status column holds text),
    the transition code of every row after the first is the row's own
    status followed by the status of the row before it in timestamp order,
    each as text padded to two characters: the current code comes first.
    A change from code a to code b is therefore looked up as b followed by
    a. *)
Theorem text_code_is_current_then_previous :
  forall df change_flag_df i p r,
    dtype_of (map log_status_management change_flag_df) = Object ->
    nth_error (apply_event_rows df change_flag_df) i = Some p ->
    nth_error (apply_event_rows df change_flag_df) (S i) = Some r ->
    status_change r
    = (zfill2 (astype_str (status_management r))
       ++ zfill2 (astype_str (status_management p)))%string
    /\ (event_type r = 2
        <-> isin (zfill2 (astype_str (status_management r))
                  ++ zfill2 (astype_str (status_management p))) get_off_map = true).
Proof.
  intros df log i p r Hlog Hp Hr.
  pose proof (apply_event_rows_event_type _ _ _ (nth_error_In _ _ Hr)) as Hev.
  destruct (apply_event_rows_nth _ _ _ _ Hp) as (p1 & Hp1 & _ & _ & Hpst & _ & _).
  destruct (apply_event_rows_nth _ _ _ _ Hr) as (r1 & Hr1 & _ & _ & Hst & _ & Hcode).
  rewrite Hlog in Hcode. cbn [merged_dtype] in Hcode.
  rewrite shift1_object in Hcode
    by (rewrite length_map; apply nth_error_Some; now rewrite Hr1).
  assert (Hprev : nth i (map status_management
                           (sort_values ev_ts (merge_left df log))) NaN
                  = status_management p).
  { apply nth_error_nth. now rewrite nth_error_map, Hp1, Hpst. }
  rewrite Hprev, <- Hst in Hcode. split; [assumption|].
  rewrite <- Hcode, Hev.
  destruct (isin (status_change r) get_off_map); [tauto|].
  destruct (isin (status_change r) get_on_map);
    [split; discriminate|].
  destruct (eq_one (change_flag r)); split; discriminate.
Qed.

(** X15: The event type of every row is 0, 1 or 2, decided by the transition
    code before the change flag: 2 exactly on an alighting code, 1 exactly
    on a boarding code or, without an alighting code, a change flag of 1,
    and 0 exactly when neither list holds the code and the flag is not 1. *)
Theorem event_type_decided_by_code_then_flag :
  forall df change_flag_df r,
    In r (apply_event_rows df change_flag_df) ->
    (event_type r = 0 \/ event_type r = 1 \/ event_type r = 2)
    /\ (event_type r = 2 <-> isin (status_change r) get_off_map = true)
    /\ (event_type r = 1
        <-> isin (status_change r) get_off_map = false
            /\ (isin (status_change r) get_on_map = true
                \/ eq_one (change_flag r) = true))
    /\ (event_type r = 0
        <-> isin (status_change r) get_off_map = false
            /\ isin (status_change r) get_on_map = false
            /\ eq_one (change_flag r) = false).
Proof.
  intros df log r Hr. rewrite (apply_event_rows_event_type _ _ _ Hr).
  generalize (isin (status_change r) get_off_map),
             (isin (status_change r) get_on_map),
             (eq_one (change_flag r)).
  intros [] [] [];
    repeat split; auto; try discriminate; try tauto;
    try (intros (H1 & H2); try discriminate; destruct H2; discriminate);
    try (intros (H1 & H2 & H3); discriminate).
Qed.

Lemma merge_left_status_not_str df change_flag_df r :
  (forall e, In e change_flag_df -> is_str (log_status_management e) = false) ->
  In r (merge_left df change_flag_df) ->
  is_str (status_management r) = false
  /\ (change_flag_df = [] -> status_management r = NaN).
Proof.
  intros Hlog Hr.
  destruct (merge_left_row _ _ _ Hr) as (_ & _ & [(_ & -> & _) | Hhit]);
    [split; reflexivity|].
  destruct Hhit as (e & He & _ & _ & Hs & _). split.
  - destruct Hs as [-> | ->]; [|rewrite to_float_is_str]; now apply Hlog.
  - intros ->. destruct He.
Qed.

(** X16: With a status column that holds numbers, no row's transition code is
    in either code list, and the event type is the change flag's alone. *)
Lemma numeric_status_never_matches df change_flag_df r :
  (forall e, In e change_flag_df -> is_str (log_status_management e) = false) ->
  In r (apply_event_rows df change_flag_df) ->
  isin (status_change r) get_on_map = false
  /\ isin (status_change r) get_off_map = false
  /\ event_type r = flag_event (change_flag r).
Proof.
  intros Hlog Hr.
  pose proof (apply_event_rows_event_type _ _ _ Hr) as Hev.
  assert (Hcode : isin (status_change r) get_on_map = false
                  /\ isin (status_change r) get_off_map = false).
  { apply In_nth_error in Hr as (i & Hi).
    destruct (apply_event_rows_nth _ _ _ _ Hi) as (r1 & Hr1 & _ & _ & _ & _ & Hcode).
    set (joined := sort_values ev_ts (merge_left df change_flag_df)) in *.
    set (d := dtype_of (map log_status_management change_flag_df)) in *.
    assert (Hstatus : forall c, In c (map status_management joined) ->
              is_str c = false /\ (change_flag_df = [] -> c = NaN)).
    { intros c Hc. apply in_map_iff in Hc as (y & <- & Hy).
      apply sort_values_In in Hy.
      exact (merge_left_status_not_str df change_flag_df y Hlog Hy). }
    assert (Hin : In (nth i (shift1 (merged_dtype d (map status_management joined))
                                    (map status_management joined)) NaN)
                     (shift1 (merged_dtype d (map status_management joined))
                             (map status_management joined))).
    { apply nth_In. rewrite shift1_length, length_map.
      apply nth_error_Some. now rewrite Hr1. }
    apply shift1_In in Hin.
    assert (Hnd : has_nondigit
                    (astype_str (nth i (shift1 (merged_dtype d (map status_management joined))
                                               (map status_management joined)) NaN))
                  = true).
    { destruct (merged_dtype d (map status_management joined)) eqn:Ed.
      - destruct Hin as (c & -> & [-> | Hc]); [reflexivity|].
        apply to_float_text. now apply Hstatus.
      - destruct Hin as (c & -> & [-> | Hc]); [reflexivity|].
        apply to_float_text. now apply Hstatus.
      - apply merged_dtype_object in Ed.
        assert (Hnil : change_flag_df = []).
        { assert (Hcol : map log_status_management change_flag_df = []).
          { apply dtype_of_object_no_text; [|exact Ed].
            intros c Hc. apply in_map_iff in Hc as (e & <- & He). now apply Hlog. }
          now destruct change_flag_df. }
        destruct Hin as [-> | Hc]; [reflexivity|].
        now rewrite (proj2 (Hstatus _ Hc) Hnil). }
    apply code_with_nondigit_unmatched.
    rewrite Hcode, has_nondigit_app, !has_nondigit_zfill2, Hnd. apply orb_true_r. }
  destruct Hcode as (Hon & Hoff). rewrite Hon, Hoff in Hev.
  split; [assumption|]. split; [assumption|]. exact Hev.
Qed.

End ReconcilerMore.

Section ReconcilerMoreExamples.
Import Detector Reconciler.

Lemma left_join_witness :
  Permutation (map seg (apply_event_rows two_rows (log_of (IntCell 0) (IntCell 3) (IntCell 0))))
              two_rows
  /\ length (apply_event_rows two_rows (log_of (IntCell 0) (IntCell 3) (IntCell 0)))
     = length two_rows.
Proof.
  apply (proj2 (proj2 (proj2 (proj2
           (left_join_keeps_every_row two_rows
              (log_of (IntCell 0) (IntCell 3) (IntCell 0))))))).
  cbn. repeat constructor; cbn; intuition discriminate.
Defined.

Lemma unmatched_row_witness :
  time_stamp (mkEvRow (mkSegRow (mkBaseRow 1000 30%float 0%float 0%float 0 0) 0 0)
                      None NaN NaN "nannan" 0) = None
  /\ status_management
       (mkEvRow (mkSegRow (mkBaseRow 1000 30%float 0%float 0%float 0 0) 0 0)
                None NaN NaN "nannan" 0) = NaN
  /\ change_flag
       (mkEvRow (mkSegRow (mkBaseRow 1000 30%float 0%float 0%float 0 0) 0 0)
                None NaN NaN "nannan" 0) = NaN
  /\ event_type
       (mkEvRow (mkSegRow (mkBaseRow 1000 30%float 0%float 0%float 0 0) 0 0)
                None NaN NaN "nannan" 0) = 0.
Proof.
  apply (unmatched_row_has_no_event two_rows [mkStatusEvent 500 (IntCell 3) (IntCell 1)]).
  - vm_compute. right. left. reflexivity.
  - intros e [<- | []]. cbn. lia.
Defined.

Lemma matched_row_witness :
  1000 = ts (seg (mkEvRow (mkSegRow (mkBaseRow 1000 30%float 0%float 0%float 0 0) 0 0)
                          (Some 1000) (IntCell 3) (IntCell 1) "030.0" 1)).
Proof.
  refine (proj1 (matched_row_carries_log_entry two_rows
                   (log_of (IntCell 0) (IntCell 3) (IntCell 1))
                   (mkEvRow (mkSegRow (mkBaseRow 1000 30%float 0%float 0%float 0 0) 0 0)
                            (Some 1000) (IntCell 3) (IntCell 1) "030.0" 1)
                   1000 _ eq_refl)).
  vm_compute. right. left. reflexivity.
Defined.

Lemma first_row_witness :
  status_change
    (mkEvRow (mkSegRow (mkBaseRow 0 30%float 0%float 0%float 0 0) 0 0)
             (Some 0) (StrCell "3") (FloatCell 1) "03None" 1)
  = (zfill2 (astype_str
       (status_management
          (mkEvRow (mkSegRow (mkBaseRow 0 30%float 0%float 0%float 0 0) 0 0)
                   (Some 0) (StrCell "3") (FloatCell 1) "03None" 1))) ++ "None")%string.
Proof.
  exact (proj1 (first_row_event_from_flag_only two_rows
                  [mkStatusEvent 0 (StrCell "3") (IntCell 1)]
                  (mkEvRow (mkSegRow (mkBaseRow 0 30%float 0%float 0%float 0 0) 0 0)
                           (Some 0) (StrCell "3") (FloatCell 1) "03None" 1)
                  eq_refl)).
Defined.

Lemma text_code_witness :
  status_change
    (mkEvRow (mkSegRow (mkBaseRow 1000 30%float 0%float 0%float 0 0) 0 0)
             (Some 1000) (StrCell "3") (IntCell 0) "0300" 2)
  = (zfill2 (astype_str (StrCell "3")) ++ zfill2 (astype_str (StrCell "0")))%string.
Proof.
  exact (proj1 (text_code_is_current_then_previous two_rows
                  (log_of (StrCell "0") (StrCell "3") (IntCell 0)) 0%nat
                  (mkEvRow (mkSegRow (mkBaseRow 0 30%float 0%float 0%float 0 0) 0 0)
                           (Some 0) (StrCell "0") (IntCell 0) "00None" 0)
                  (mkEvRow (mkSegRow (mkBaseRow 1000 30%float 0%float 0%float 0 0) 0 0)
                           (Some 1000) (StrCell "3") (IntCell 0) "0300" 2)
                  eq_refl eq_refl eq_refl)).
Defined.

Lemma event_type_decided_witness :
  event_type
    (mkEvRow (mkSegRow (mkBaseRow 1000 30%float 0%float 0%float 0 0) 0 0)
             (Some 1000) (StrCell "3") (IntCell 1) "0300" 2) = 0
  \/ event_type
       (mkEvRow (mkSegRow (mkBaseRow 1000 30%float 0%float 0%float 0 0) 0 0)
                (Some 1000) (StrCell "3") (IntCell 1) "0300" 2) = 1
  \/ event_type
       (mkEvRow (mkSegRow (mkBaseRow 1000 30%float 0%float 0%float 0 0) 0 0)
                (Some 1000) (StrCell "3") (IntCell 1) "0300" 2) = 2.
Proof.
  exact (proj1 (event_type_decided_by_code_then_flag two_rows
                  (log_of (StrCell "0") (StrCell "3") (IntCell 1))
                  (mkEvRow (mkSegRow (mkBaseRow 1000 30%float 0%float 0%float 0 0) 0 0)
                           (Some 1000) (StrCell "3") (IntCell 1) "0300" 2)
                  (or_intror (or_introl eq_refl)))).
Defined.

Lemma numeric_status_witness :
  isin "030.0" get_on_map = false
  /\ isin "030.0" get_off_map = false
  /\ event_type
       (mkEvRow (mkSegRow (mkBaseRow 1000 30%float 0%float 0%float 0 0) 0 0)
                (Some 1000) (IntCell 3) (IntCell 1) "030.0" 1)
     = flag_event (IntCell 1).
Proof.
  exact (numeric_status_never_matches two_rows
           (log_of (IntCell 0) (IntCell 3) (IntCell 1))
           (mkEvRow (mkSegRow (mkBaseRow 1000 30%float 0%float 0%float 0 0) 0 0)
                    (Some 1000) (IntCell 3) (IntCell 1) "030.0" 1)
           ltac:(intros e [<- | [<- | []]]; reflexivity)
           (or_intror (or_introl eq_refl))).
Defined.

End ReconcilerMoreExamples.


(* ================================================================== *)
(** * Labels and the assembled data set *)

Section LabelMore.
Import Detector Reconciler.
Context {sorter : SortValues}.

Lemma label_rows_ev rows : map ev (label_rows rows) = map ev (labelled0 rows).
Proof.
  unfold label_rows. fold (labelled0 rows). fold (event_rows rows).
  generalize (event_rows rows), (labelled0 rows).
  induction l as [|e events IH]; intros df; [reflexivity|].
  cbn [fold_left]. now rewrite IH, label_event_ev.
Qed.

Lemma label_rows_ev_perm rows : Permutation rows (map ev (label_rows rows)).
Proof.
  rewrite label_rows_ev. unfold labelled0.
  rewrite <- (map_id rows) at 1.
  rewrite <- (map_ext (fun r => ev (mkLabRow r 0)) (fun r => r) (fun r => eq_refl)).
  rewrite <- map_map. apply Permutation_map, sort_values_perm.
Qed.

Lemma label_rows_ev_In rows r : In r (label_rows rows) -> In (ev r) rows.
Proof.
  intros H. apply (Permutation_in _ (Permutation_sym (label_rows_ev_perm rows))).
  now apply in_map.
Qed.

(** The label a segment ends with is the initial one, or the type of a
    boarding or alighting event, and then the segment's id is positive. *)
Lemma final_label_range df events segment : forall initial,
  final_label df events segment initial = initial
  \/ (0 < segment
      /\ (final_label df events segment initial = 1
          \/ final_label df events segment initial = 2)).
Proof.
  unfold final_label.
  induction events as [|e events IH]; intros initial; [now left|].
  cbn [fold_left].
  destruct (target df e) as [sg|] eqn:Et; [|apply IH].
  destruct (Z.eqb_spec segment sg) as [-> | _]; [|apply IH].
  apply target_event_type in Et as (Hpos & Hty).
  destruct (IH (event_type (ev e))) as [-> | H]; [|now right].
  right. split; [assumption|]. destruct Hty as [(-> & _) | (-> & _)]; auto.
Qed.

Lemma labels_range_and_uniform rows r :
  In r (label_rows rows) ->
  (label r = 0 \/ label r = 1 \/ label r = 2)
  /\ (label r <> 0 -> 0 < lab_segment r)
  /\ forall r',
       In r' (label_rows rows) -> lab_segment r' = lab_segment r -> label r' = label r.
Proof.
  intros Hr.
  destruct (label_rows_In _ _ Hr) as (_ & _ & _ & Hl).
  assert (Huni : forall r', In r' (label_rows rows) ->
                            lab_segment r' = lab_segment r -> label r' = label r).
  { intros r' Hr' Hseg. destruct (label_rows_In _ _ Hr') as (_ & _ & _ & Hl').
    now rewrite Hl', Hseg, <- Hl. }
  destruct (final_label_range (labelled0 rows) (event_rows rows) (lab_segment r) 0)
    as [H0 | (Hpos & H12)].
  - rewrite <- Hl in H0. split; [now left|]. split; [congruence | exact Huni].
  - rewrite <- Hl in H12. split; [now right|]. split; [auto | exact Huni].
Qed.

(** X17: Labels take the values 0, 1 and 2, a label other than 0 sits on a row
    of a stop segment only, and the rows of one segment all carry the same
    label, also when several events target the segment. *)
Theorem labels_uniform_per_segment :
  forall rows r,
    In r (label_rows rows) ->
    (label r = 0 \/ label r = 1 \/ label r = 2)
    /\ (label r <> 0 -> 0 < lab_segment r)
    /\ forall r',
         In r' (label_rows rows) -> lab_segment r' = lab_segment r -> label r' = label r.
Proof. intros rows r. apply labels_range_and_uniform. Qed.

End LabelMore.

Section LabelMoreExamples.
Import Detector Reconciler.

Lemma labels_uniform_witness :
  label (nth 5 (label_rows boarding_in_second_stop) lab_row0) = 0
  \/ label (nth 5 (label_rows boarding_in_second_stop) lab_row0) = 1
  \/ label (nth 5 (label_rows boarding_in_second_stop) lab_row0) = 2.
Proof.
  refine (proj1 (labels_uniform_per_segment boarding_in_second_stop
                   (nth 5 (label_rows boarding_in_second_stop) lab_row0) _)).
  apply nth_In. vm_compute. lia.
Defined.

End LabelMoreExamples.

Section PipelineMore.
Import Detector Reconciler Pipeline.
Context {sorter : SortValues}.

(** The base rows the files give, in file order. *)
Definition parsed (json_files : list Capture.t) : list BaseRow :=
  flat_map (fun f => fst (Parser.process_json_file f)) json_files.

(** The parsed columns of an output row. *)
Definition base_of (r : LabRow) : BaseRow := base (seg (ev r)).

Lemma concat_filter_nonempty {A : Type} (l : list (list A)) :
  concat (filter (fun x => negb (length x =? 0)%nat) l) = concat l.
Proof.
  induction l as [|x l IH]; [reflexivity|].
  cbn [filter]. destruct x as [|a x]; cbn [length Nat.eqb negb concat app];
    [assumption | now rewrite IH].
Qed.

Lemma filter_nonempty_nil {A : Type} (l : list (list A)) :
  filter (fun x => negb (length x =? 0)%nat) l = [] <-> concat l = [].
Proof.
  induction l as [|x l IH]; [tauto|].
  cbn [filter concat]. destruct x as [|a x]; cbn [length Nat.eqb negb app];
    [assumption | split; discriminate].
Qed.

Lemma create_dataset_rows stop_speed_threshold json_files change_flag_df base_df :
  create_dataset stop_speed_threshold json_files change_flag_df = Some base_df ->
  parsed json_files <> []
  /\ rows base_df
     = sort_values lab_ts
         (label_rows
            (apply_event_rows
               (identify_rows stop_speed_threshold (parsed json_files))
               change_flag_df)).
Proof.
  intros H. apply (f_equal (option_map rows)) in H. cbn [option_map] in H.
  set (out := rows base_df) in *. clearbody out.
  unfold parsed. rewrite flat_map_concat_map.
  unfold create_dataset in H.
  destruct json_files as [|f files]; [discriminate|].
  set (frames := map (fun f => fst (Parser.process_json_file f)) (f :: files)) in *.
  clearbody frames.
  destruct (filter _ frames) as [|x xs] eqn:Ef; [discriminate|].
  cbn [option_map rows identify_stop_segments apply_event_labels label_stop_segments] in H.
  rewrite <- Ef, concat_filter_nonempty in H.
  split.
  - intros Hnil. apply filter_nonempty_nil in Hnil. rewrite Hnil in Ef. discriminate.
  - assert (Hinj : forall a b : list LabRow, Some a = Some b -> a = b)
      by (intros a b E; now injection E).
    apply Hinj in H. now symmetry.
Qed.

(** X18: [create_dataset] raises exactly when there is no file or no file gives
    a base row; unparsable and empty captures among others do no harm. *)
Theorem create_dataset_fails_iff_no_rows :
  forall stop_speed_threshold json_files change_flag_df,
    create_dataset stop_speed_threshold json_files change_flag_df = None
    <-> forall f, In f json_files -> fst (Parser.process_json_file f) = [].
Proof.
  intros thr files log.
  assert (Hall : (forall f, In f files -> fst (Parser.process_json_file f) = [])
                 <-> concat (map (fun f => fst (Parser.process_json_file f)) files) = []).
  { induction files as [|f files IH]; cbn [map concat];
      [split; [reflexivity | intros _ f []]|].
    split.
    - intros H. rewrite (H f (or_introl eq_refl)). apply IH.
      intros g Hg. apply H. now right.
    - intros H. apply app_eq_nil in H as (Hf & Hrest).
      intros g [<- | Hg]; [assumption | now apply IH]. }
  rewrite Hall, <- filter_nonempty_nil. unfold create_dataset.
  destruct files as [|f files]; [split; reflexivity|].
  destruct (filter _ _) as [|x xs]; [split; reflexivity|].
  split; discriminate.
Qed.

(** X19: The emitted base table holds the parsed base rows of all files and
    nothing else, in ascending timestamp order; a base row comes once per
    status-log entry at its timestamp, so once when the log has no
    timestamp twice. *)
Theorem dataset_holds_parsed_rows :
  forall stop_speed_threshold json_files change_flag_df base_df,
    create_dataset stop_speed_threshold json_files change_flag_df = Some base_df ->
    ascending lab_ts (rows base_df)
    /\ (forall b, In b (parsed json_files) <-> In b (map base_of (rows base_df)))
    /\ (0 < length (parsed json_files) <= length (rows base_df))%nat
    /\ (NoDup (map log_time_stamp change_flag_df) ->
        Permutation (parsed json_files) (map base_of (rows base_df))
        /\ length (rows base_df) = length (parsed json_files)).
Proof.
  intros thr files log out H.
  apply create_dataset_rows in H as (Hne & Hrows).
  set (segs := identify_rows thr (parsed files)) in *.
  set (events := apply_event_rows segs log) in *.
  assert (Hev : Permutation events (map ev (rows out))).
  { rewrite Hrows. transitivity (map ev (label_rows events));
      [apply label_rows_ev_perm | apply Permutation_map, sort_values_perm]. }
  assert (Hseg : Permutation (flat_map (fun r => repeat r (copies log r)) segs)
                             (map seg (map ev (rows out)))).
  { transitivity (map seg events);
      [symmetry; apply apply_event_rows_seg_perm | now apply Permutation_map]. }
  assert (Hbase : Permutation (parsed files) (map base segs)).
  { unfold segs. rewrite identify_rows_base. apply sort_values_perm. }
  assert (Hof : map base_of (rows out) = map base (map seg (map ev (rows out)))).
  { now rewrite !map_map. }
  split; [rewrite Hrows; apply sort_values_ascending|]. split.
  { intros b. rewrite Hof. split.
    - intros Hb. apply (Permutation_in _ Hbase) in Hb.
      apply in_map_iff in Hb as (s & <- & Hs). apply in_map.
      apply (Permutation_in _ Hseg).
      now apply (In_repeated (copies log) segs s (copies_positive log)).
    - intros Hb. apply in_map_iff in Hb as (s & <- & Hs).
      apply (Permutation_in _ (Permutation_sym Hseg)) in Hs.
      apply (In_repeated (copies log) segs s (copies_positive log)) in Hs.
      apply (Permutation_in _ (Permutation_sym Hbase)). now apply in_map. }
  assert (Hlen : length (rows out)
                 = length (flat_map (fun r => repeat r (copies log r)) segs)).
  { now rewrite (Permutation_length Hseg), !length_map. }
  assert (Hsegs : length segs = length (parsed files)).
  { now rewrite (Permutation_length Hbase), length_map. }
  split.
  { split.
    - destruct (parsed files); [congruence | cbn; lia].
    - rewrite Hlen, <- Hsegs, flat_map_repeat_length. clear.
      induction segs as [|r l IH]; cbn [fold_right length]; [lia|].
      unfold copies at 1. lia. }
  intros Hnd.
  rewrite (flat_map_repeat_once _ _ (fun r _ => copies_unique log r Hnd)) in Hseg, Hlen.
  split; [|congruence].
  rewrite Hof. transitivity (map base segs); [assumption | now apply Permutation_map].
Qed.

(** X20: In the emitted base table a row with a label other than 0 is a stopped
    row, and the rows of one stop carry one label; [is_stopped] is 0 or 1
    and tells the rows of the stop segments from the others. *)
Theorem labelled_rows_are_stopped :
  forall stop_speed_threshold json_files change_flag_df base_df r,
    create_dataset stop_speed_threshold json_files change_flag_df = Some base_df ->
    In r (rows base_df) ->
    (label r = 0 \/ label r = 1 \/ label r = 2)
    /\ (lab_stopped r = 0 \/ lab_stopped r = 1)
    /\ (lab_stopped r = 1 <-> 0 < lab_segment r)
    /\ (label r <> 0 -> lab_stopped r = 1)
    /\ forall r',
         In r' (rows base_df) -> lab_segment r' = lab_segment r -> label r' = label r.
Proof.
  intros thr files log out r H Hr.
  apply create_dataset_rows in H as (_ & Hrows).
  assert (Hflag : forall s, In s (identify_rows thr (parsed files)) ->
            (is_stopped s = 0 \/ is_stopped s = 1)
            /\ (is_stopped s = 1 <-> 0 < stop_segment s))
    by (intros s; apply identify_rows_flag).
  set (segs := identify_rows thr (parsed files)) in *. clearbody segs.
  assert (Hseg : forall e, In e (apply_event_rows segs log) -> In (seg e) segs)
    by (intros e He; apply (apply_event_rows_seg_In segs log); apply in_map; exact He).
  set (events := apply_event_rows segs log) in *. clearbody events.
  assert (Hev : forall x, In x (label_rows events) -> In (ev x) events)
    by (intros x; apply label_rows_ev_In).
  assert (Hlab : forall x, In x (label_rows events) ->
            (label x = 0 \/ label x = 1 \/ label x = 2)
            /\ (label x <> 0 -> 0 < lab_segment x)
            /\ forall x', In x' (label_rows events) ->
                 lab_segment x' = lab_segment x -> label x' = label x)
    by (intros x; apply labels_range_and_uniform).
  assert (Hin : forall x, In x (rows out) -> In x (label_rows events))
    by (intros x Hx; rewrite Hrows in Hx; exact (proj1 (sort_values_In _ _ _) Hx)).
  set (labelled := label_rows events) in *. clearbody labelled.
  clear Hrows.
  apply Hin in Hr.
  destruct (Hlab r Hr) as (H012 & Hpos & Huni).
  destruct (Hflag _ (Hseg _ (Hev r Hr))) as (H01 & Hiff).
  split; [exact H012|]. split; [exact H01|]. split; [exact Hiff|].
  split; [intros Hl; apply Hiff, Hpos, Hl|].
  intros r' Hr'. apply Huni, Hin, Hr'.
Qed.

End PipelineMore.

Section PipelineExamples.
Import Detector Reconciler Pipeline.

Lemma dataset_holds_parsed_witness :
  exists base_df,
    create_dataset 10%float
      [capture_of [plain_sample (Value 0) (Value 0%float)]] [] = Some base_df
    /\ ascending lab_ts (rows base_df).
Proof.
  eexists. split; [reflexivity|].
  exact (proj1 (dataset_holds_parsed_rows 10%float
                  [capture_of [plain_sample (Value 0) (Value 0%float)]] [] _ eq_refl)).
Defined.

(** The samples of [two_stops] as one capture. *)
Definition two_stops_capture : Capture.t :=
  capture_of (map (fun b => plain_sample (Value (timestamp b)) (Value (speed b)))
                  two_stops).

Lemma labelled_rows_witness :
  lab_stopped (mkLabRow (mkEvRow (mkSegRow (mkBaseRow 100000 0%float 0%float 0%float 0 0) 2 1)
                                 None NaN NaN "nannan" 0) 1) = 1.
Proof.
  refine (proj1 (proj2 (proj2 (proj2
            (labelled_rows_are_stopped 10%float [two_stops_capture]
               [mkStatusEvent 110000 (IntCell 0) (IntCell 1)] _
               (mkLabRow (mkEvRow (mkSegRow (mkBaseRow 100000 0%float 0%float 0%float 0 0) 2 1)
                                  None NaN NaN "nannan" 0) 1)
               _ _)))) _).
  - reflexivity.
  - vm_compute. do 5 right. left. reflexivity.
  - discriminate.
Defined.

End PipelineExamples.

(* ================================================================== *)
(** * The split as a whole *)

Section SplitMore.
Import Split.
Context {R : Type} (car_id : R -> string).

Lemma concat_map_app_perm {A : Type} (f g : A -> list R) (ids : list A) :
  Permutation (concat (map (fun c => f c ++ g c) ids))
              (concat (map f ids) ++ concat (map g ids)).
Proof.
  induction ids as [|c ids IH]; cbn [map concat]; [constructor|].
  rewrite IH, <- !app_assoc. apply Permutation_app_head.
  rewrite !app_assoc. apply Permutation_app_tail, Permutation_app_comm.
Qed.

(** Moving a row to the front of its vehicle's block. *)
Lemma blocks_cons (x : R) (l : list R) (ids : list string) :
  NoDup ids -> In (car_id x) ids ->
  Permutation (x :: concat (map (rows_of car_id l) ids))
              (concat (map (rows_of car_id (x :: l)) ids)).
Proof.
  intros Hnd Hin. induction ids as [|c ids IH]; [destruct Hin|].
  inversion Hnd as [|? ? Hc Hnd']; subst. cbn [map concat].
  unfold rows_of at 3. cbn [filter]. fold (rows_of car_id l c).
  destruct (String.eqb_spec (car_id x) c) as [E | Hne].
  - cbn [app]. constructor. apply Permutation_app_head.
    assert (Hsame : map (rows_of car_id (x :: l)) ids = map (rows_of car_id l) ids).
    { apply map_ext_in. intros c' Hc'. unfold rows_of. cbn [filter].
      destruct (String.eqb_spec (car_id x) c') as [E' | _]; [|reflexivity].
      exfalso. apply Hc. now rewrite <- E, E'. }
    now rewrite Hsame.
  - destruct Hin as [E | Hin]; [now symmetry in E|].
    rewrite <- (IH Hnd' Hin). apply Permutation_middle.
Qed.

Lemma blocks_perm (l : list R) (ids : list string) :
  NoDup ids -> (forall r, In r l -> In (car_id r) ids) ->
  Permutation l (concat (map (rows_of car_id l) ids)).
Proof.
  intros Hnd. induction l as [|x l IH]; intros Hcover.
  - assert (Hnil : concat (map (rows_of car_id []) ids) = []).
    { clear. induction ids as [|c ids IH]; [reflexivity | exact IH]. }
    rewrite Hnil. constructor.
  - rewrite <- blocks_cons; [|assumption|apply Hcover; now left].
    constructor. apply IH. intros r Hr. apply Hcover. now right.
Qed.

(** X21: The split loses and repeats no row: the training rows followed by the
    test rows are the data set up to order, so the two sizes add up to the
    data set's and every row of the data set is in one of the two parts. *)
Theorem split_loses_no_row :
  forall dataset train_ratio train_df test_df,
    split_dataset car_id dataset train_ratio = Some (train_df, test_df) ->
    Permutation dataset (train_df ++ test_df)
    /\ (length train_df + length test_df = length dataset)%nat
    /\ (forall r, In r dataset <-> In r train_df \/ In r test_df).
Proof.
  intros dataset ratio train_df test_df H.
  unfold split_dataset in H.
  destruct (split_loop car_id dataset ratio (unique (map car_id dataset)) [] [])
    as [[train_data test_data]|] eqn:E; [|discriminate].
  injection H as <- <-.
  apply split_loop_some in E as (_ & -> & ->). cbn [app].
  set (ids := unique (map car_id dataset)).
  assert (Hperm : Permutation dataset
            (concat (map (fun c => iloc_to (rows_of car_id dataset c)
                                           (index_of car_id dataset ratio c)) ids)
             ++ concat (map (fun c => iloc_from (rows_of car_id dataset c)
                                                (index_of car_id dataset ratio c)) ids))).
  { rewrite <- concat_map_app_perm.
    rewrite (map_ext _ (rows_of car_id dataset)) by (intros c; apply cut_split).
    apply blocks_perm; [apply unique_NoDup|].
    intros r Hr. apply unique_In. now apply in_map. }
  split; [exact Hperm|]. split.
  { now rewrite <- length_app, <- (Permutation_length Hperm). }
  intros r. rewrite <- in_app_iff. split; apply Permutation_in;
    [|symmetry]; exact Hperm.
Qed.

End SplitMore.

Section SplitEdge.
Import Split.

Lemma split_loses_no_row_witness :
  Permutation ten_rows (firstn 8 ten_rows ++ skipn 8 ten_rows).
Proof.
  exact (proj1 (split_loses_no_row fst ten_rows 0x1.999999999999ap-1%float
                  (firstn 8 ten_rows) (skipn 8 ten_rows) eq_refl)).
Defined.

Lemma split_index_nan len train_ratio :
  Prim2SF train_ratio = S754_nan -> split_index len train_ratio = None.
Proof.
  intros Hnan. unfold split_index, py_int.
  rewrite FloatAxioms.mul_spec, Hnan. unfold SF64mul, SFmul.
  now destruct (Prim2SF (PrimFloat.of_uint63 _)).
Qed.

(** X22: [int] raises on a NaN: with a train ratio that is NaN the split fails
    on every data set that has a row, at the first vehicle. *)
Theorem split_raises_on_nan_ratio :
  forall (R : Type) (car_id : R -> string) dataset train_ratio,
    dataset <> [] ->
    Prim2SF train_ratio = S754_nan ->
    split_dataset car_id dataset train_ratio = None.
Proof.
  intros R car_id dataset ratio Hne Hnan. unfold split_dataset.
  destruct dataset as [|x l]; [congruence|].
  cbn [map unique split_loop]. now rewrite split_index_nan.
Qed.

Lemma split_raises_on_nan_witness :
  split_dataset fst ten_rows nan = None.
Proof.
  exact (split_raises_on_nan_ratio (string * Z) fst ten_rows nan
           ltac:(discriminate) eq_refl).
Defined.

End SplitEdge.

(* ================================================================== *)
(** * The first processor's parser *)

Section ParserV1Facts.

(** The acceleration row of the second processor that a row of the first
    corresponds to: the sub-sample index becomes a 10 ms step. *)
Definition accel_of (r : ParserV1.Row) : AccelRow :=
  {| a_timestamp := ParserV1.timestamp r + ParserV1.sample_index r * 10;
     acc_x := ParserV1.acc_x r;
     acc_y := ParserV1.acc_y r;
     acc_z := ParserV1.acc_z r;
     rad_x := ParserV1.rad_x r;
     rad_y := ParserV1.rad_y r;
     rad_z := ParserV1.rad_z r |}.

(** The base-row columns the first processor repeats on every row. *)
Definition repeats (r : ParserV1.Row) (b : BaseRow) : Prop :=
  ParserV1.timestamp r = timestamp b
  /\ ParserV1.speed r = speed b
  /\ ParserV1.right_blinker r = right_blinker b
  /\ ParserV1.left_blinker r = left_blinker b.

Lemma process_record_v1 imei record_datetime record base_row accel_rows :
  Parser.process_record record_datetime record = Some (base_row, accel_rows) ->
  exists rows,
    ParserV1.process_record imei record_datetime record = Some rows
    /\ map accel_of rows = accel_rows
    /\ forall r, In r rows -> ParserV1.car_id r = imei /\ repeats r base_row.
Proof.
  unfold Parser.process_record, ParserV1.process_record.
  change (ParserV1.parse_timestamp record_datetime (Sample.timeStamp record))
    with (Parser.parse_timestamp record_datetime (Sample.timeStamp record)).
  destruct (Parser.parse_timestamp _ _) as [t|]; [|discriminate].
  destruct (Parser.convert (Sample.speed record) _) as [v|]; [|discriminate].
  unfold Parser.blinkers.
  destruct (match Parser.convert (Sample.vehicleInformationRightBlinker record) [0] with
            | Some _ => _ | None => _ end) as [rb lb].
  destruct (Parser.convert (Sample.latitude record) _); [|discriminate].
  destruct (Parser.convert (Sample.longitude record) _); [|discriminate].
  destruct (Parser.convert (Sample.altitude record) _); [|discriminate].
  destruct (Parser.convert (Sample.heading record) _); [|discriminate].
  destruct (Parser.in_timestamp_range _); [|discriminate].
  intros H. injection H as <- <-. eexists. split; [reflexivity|]. split.
  - rewrite map_map. apply map_ext. intros i. reflexivity.
  - intros r Hr. apply in_map_iff in Hr as (i & <- & _). repeat split.
Qed.

Lemma process_record_v2_fails imei record_datetime record :
  ParserV1.process_record imei record_datetime record = None ->
  Parser.process_record record_datetime record = None.
Proof.
  unfold Parser.process_record, ParserV1.process_record.
  change (ParserV1.parse_timestamp record_datetime (Sample.timeStamp record))
    with (Parser.parse_timestamp record_datetime (Sample.timeStamp record)).
  destruct (Parser.parse_timestamp _ _) as [t|]; [|reflexivity].
  destruct (Parser.convert (Sample.speed record) _) as [v|]; [|reflexivity].
  destruct (match Parser.convert (Sample.vehicleInformationRightBlinker record) [0] with
            | Some _ => _ | None => _ end) as [rb lb].
  discriminate.
Qed.

Lemma process_records_v1 imei record_datetime records :
  forall base_rows accel_rows base_rows' accel_rows' rows,
    Parser.process_records record_datetime records base_rows accel_rows
    = Some (base_rows', accel_rows') ->
    map accel_of rows = accel_rows ->
    (forall r, In r rows ->
       ParserV1.car_id r = imei /\ exists b, In b base_rows /\ repeats r b) ->
    exists rows',
      ParserV1.process_records imei record_datetime records rows = Some rows'
      /\ map accel_of rows' = accel_rows'
      /\ forall r, In r rows' ->
           ParserV1.car_id r = imei /\ exists b, In b base_rows' /\ repeats r b.
Proof.
  induction records as [|record rest IH]; intros bs acs bs' acs' rows H Hmap Hrows.
  - cbn in H. injection H as <- <-. exists rows. auto.
  - cbn [Parser.process_records] in H.
    destruct (Parser.process_record record_datetime record) as [[b new]|] eqn:E;
      [|discriminate].
    destruct (process_record_v1 imei _ _ _ _ E) as (new1 & E1 & Hnew & Hrep).
    cbn [ParserV1.process_records]. rewrite E1.
    apply (IH _ _ _ _ (rows ++ new1) H).
    + now rewrite map_app, Hmap, Hnew.
    + intros r Hr. apply in_app_or in Hr as [Hr | Hr].
      * destruct (Hrows r Hr) as (Hc & b0 & Hb0 & Hr0). split; [assumption|].
        exists b0. split; [apply in_or_app; now left | assumption].
      * destruct (Hrep r Hr) as (Hc & Hr0). split; [assumption|].
        exists b. split; [apply in_or_app; right; now left | assumption].
Qed.

(** X23: Where the second processor reads a capture, the first reads it too and
    gives the same sub-samples: its rows are, one for one and in order, the
    second's acceleration rows, the second's timestamp being the first's
    plus 10 ms per sub-sample index, and every row repeats the vehicle id
    of the capture and the timestamp, speed and blinker flags of a base row
    of the second.  The first processor does not read the position keys:
    no capture it fails on is read by the second. *)
Theorem first_processor_rows_match_second :
  forall data,
    (fst (Parser.process_json_file data) <> [] ->
     map accel_of (ParserV1.process_json_file data) = snd (Parser.process_json_file data)
     /\ forall r, In r (ParserV1.process_json_file data) ->
          ParserV1.car_id r = Capture.imei data
          /\ exists b, In b (fst (Parser.process_json_file data)) /\ repeats r b)
    /\ (ParserV1.process_json_file data = [] ->
        Parser.process_json_file data = ([], [])).
Proof.
  intros data. unfold Parser.process_json_file, ParserV1.process_json_file.
  destruct (Capture.data data) as [[|record rest]|];
    try (split; [intros H; now contradiction H | reflexivity]).
  destruct (Parser.process_records _ _ [] []) as [[bs acs]|] eqn:E.
  - destruct (process_records_v1 (Capture.imei data) _ _ _ _ _ _ [] E eq_refl)
      as (rows & E1 & Hmap & Hrows); [intros r []|].
    rewrite E1. cbn [fst snd]. split; [auto|].
    intros ->. cbn [map] in Hmap. subst acs.
    cbn [Parser.process_records] in E.
    destruct (Parser.process_record _ record) as [[b new]|] eqn:Er; [|discriminate].
    destruct (process_record_v1 (Capture.imei data) _ _ _ _ Er) as (new1 & E1' & Hnew & _).
    exfalso. cbn [ParserV1.process_records] in E1. rewrite E1' in E1.
    assert (Hlen : forall recs rws out,
              ParserV1.process_records (Capture.imei data)
                (Capture.recordDateTime data) recs rws = Some out ->
              (length rws <= length out)%nat).
    { clear. induction recs as [|x recs IH]; intros rws out H; cbn in H.
      - injection H as <-. lia.
      - destruct (ParserV1.process_record _ _ x); [|discriminate].
        apply IH in H. rewrite length_app in H. lia. }
    apply Hlen in E1. cbn [app length] in E1.
    unfold ParserV1.process_record in E1'.
    destruct (ParserV1.parse_timestamp _ _); [|discriminate].
    destruct (Parser.convert (Sample.speed record) _); [|discriminate].
    destruct (match Parser.convert (Sample.vehicleInformationRightBlinker record) [0] with
              | Some _ => _ | None => _ end) as [rb lb].
    injection E1' as <-. rewrite length_map, length_seq in E1.
    unfold Parser.max_length in E1. lia.
  - cbn [fst snd]. split; [intros H; now contradiction H | reflexivity].
Qed.

Lemma first_processor_witness :
  map accel_of (ParserV1.process_json_file (capture_of [ragged_sample]))
  = snd (Parser.process_json_file (capture_of [ragged_sample])).
Proof.
  refine (proj1 (proj1 (first_processor_rows_match_second (capture_of [ragged_sample])) _)).
  vm_compute. discriminate.
Defined.

End ParserV1Facts.

(* ================================================================== *)
(** * The majority rule for blinkers *)

Section BlinkerMajority.

(** How many entries of an array are 0, and how many 1. *)
Definition zeros (a : list Z) : nat := count_occ Z.eq_dec a 0.
Definition ones (a : list Z) : nat := count_occ Z.eq_dec a 1.

Lemma sum_shift (l : list Z) (k : Z) : fold_left Z.add l k = k + Parser.sum l.
Proof.
  unfold Parser.sum. revert k. induction l as [|x l IH]; intros k; cbn [fold_left]; [lia|].
  rewrite (IH (k + x)), (IH (0 + x)). lia.
Qed.

Lemma sum_cons (x : Z) (l : list Z) : Parser.sum (x :: l) = x + Parser.sum l.
Proof. unfold Parser.sum at 1. cbn [fold_left]. rewrite sum_shift. lia. Qed.

Lemma sum_counts_ones (a : list Z) :
  (forall x, In x a -> x = 0 \/ x = 1) ->
  Parser.sum a = Z.of_nat (ones a)
  /\ length a = (zeros a + ones a)%nat.
Proof.
  unfold zeros, ones. induction a as [|x a IH]; intros H; [split; reflexivity|].
  destruct IH as (IHs & IHl); [intros y Hy; apply H; now right|].
  rewrite sum_cons, IHs. cbn [length count_occ]. rewrite IHl.
  destruct (H x (or_introl eq_refl)) as [-> | ->].
  - destruct (Z.eq_dec 0 0) as [_|]; [|congruence].
    destruct (Z.eq_dec 0 1) as [|_]; [discriminate|]. split; lia.
  - destruct (Z.eq_dec 1 0) as [|_]; [discriminate|].
    destruct (Z.eq_dec 1 1) as [_|]; [|congruence]. split; lia.
Qed.

(** X24: On an array of zeros and ones the majority flag is 1 exactly when the
    ones outnumber the zeros, a tie giving 0; and on every pair of arrays,
    a flag the majority rule sets is also set by the any-nonzero rule of
    the two other processors. *)
Theorem majority_flag_counts_ones :
  (forall a,
     (forall x, In x a -> x = 0 \/ x = 1) ->
     (ParserFeatures.majority a = 1
      <-> (zeros a < ones a)%nat)
     /\ (ParserFeatures.majority a = 0
         <-> (ones a <= zeros a)%nat))
  /\ (forall right left,
        (fst (ParserFeatures.blinkers right left) = 1
         -> fst (Parser.blinkers right left) = 1)
        /\ (snd (ParserFeatures.blinkers right left) = 1
            -> snd (Parser.blinkers right left) = 1)).
Proof.
  split.
  - intros a H. destruct (sum_counts_ones a H) as (Hs & Hl).
    unfold ParserFeatures.majority. rewrite Hs, Hl.
    destruct (Z.ltb_spec (Z.of_nat (zeros a + ones a))
                         (2 * Z.of_nat (ones a)));
      split; split; intros; try lia; try discriminate.
  - intros right left. unfold ParserFeatures.blinkers, Parser.blinkers.
    destruct (Parser.convert right [0]) as [r|]; [|split; discriminate].
    destruct (Parser.convert left [0]) as [l|]; [|split; discriminate].
    cbn [fst snd]. unfold ParserFeatures.majority.
    split.
    + destruct (Z.ltb_spec (Z.of_nat (length r)) (2 * Parser.sum r)); [|discriminate].
      intros _. destruct (Z.eqb_spec (Parser.sum r) 0); [lia | reflexivity].
    + destruct (Z.ltb_spec (Z.of_nat (length l)) (2 * Parser.sum l)); [|discriminate].
      intros _. destruct (Z.eqb_spec (Parser.sum l) 0); [lia | reflexivity].
Qed.

(** An array of two ones and two zeros: a tie. *)
Definition tied_blinker : list Z := [1; 0; 1; 0].

Lemma majority_flag_witness :
  (ParserFeatures.majority tied_blinker = 0
   <-> (ones tied_blinker <= zeros tied_blinker)%nat)
  /\ ParserFeatures.majority tied_blinker = 0
  /\ fst (Parser.blinkers (Value tied_blinker) (Value [0])) = 1.
Proof.
  split; [|split; reflexivity].
  refine (proj2 (proj1 majority_flag_counts_ones tied_blinker _)).
  intros x [<- | [<- | [<- | [<- | []]]]]; auto.
Defined.

End BlinkerMajority.
